(** * BMS_BLE-HA: the Supervolt driver and the capability matcher

    A shallow embedding of
    [custom_components/bms_ble/plugins/supervolt_bms.py]
    (classes [SupervoltData] and [BMS]) and of
    [ConfigFlow._device_supported] and the steps of the flow from
    [custom_components/bms_ble/config_flow.py], followed by the
    properties of the design document that concern them and by further
    properties of the code.

    Conventions of the embedding:
    - a [bytearray] is a [list byte]; Python floats are IEEE binary64
      numbers, that is Rocq's primitive [float]s;
    - an attribute that holds [None] (or does not exist yet) is [None];
    - code that can raise runs in a state-and-exception monad [M]: a
      raise keeps the mutations made so far, as Python does;
    - the clock ([time.time()]) and the radio link are inputs. *)

From Stdlib Require Import ZArith Uint63 PrimFloat.
From Stdlib.Strings Require Import Byte.
From stdpp Require Import base option list gmap strings pretty.

Local Open Scope Z_scope.

(** ** Python values and built-ins *)

(** Exceptions that the modelled code can meet. *)
Inductive exn : Type :=
  | ValueError        (* int() on a malformed text, or .decode() failing *)
  | IndexError
  | TypeError
  | KeyError
  | AssertionError
  | TimeoutError      (* asyncio.wait_for *)
  | BleakError
  | OtherError.

#[global] Instance exn_eq_dec : EqDecision exn.
Proof. solve_decision. Defined.

(** Result of running a piece of code: a value or a raised exception. *)
Inductive res (A : Type) : Type :=
  | Val (a : A)
  | Exc (e : exn).
Arguments Val {A} a.
Arguments Exc {A} e.

(** State-and-exception monad: the state that a raise leaves behind is
    the state at the raise. *)
Definition M (S A : Type) : Type := S → S * res A.

#[global] Instance M_ret {S} : MRet (M S) := λ A a s, (s, Val a).
#[global] Instance M_bind {S} : MBind (M S) := λ A B f m s,
  match m s with
  | (s', Val a) => f a s'
  | (s', Exc e) => (s', Exc e)
  end.

Definition raise {S A} (e : exn) : M S A := λ s, (s, Exc e).
Definition gets {S A} (f : S → A) : M S A := λ s, (s, Val (f s)).
Definition modify {S} (f : S → S) : M S unit := λ s, (f s, Val tt).

(** [try: body / except: handler] with a bare [except]. *)
Definition try_except {S A} (body : M S A) (handler : exn → M S A) : M S A :=
  λ s, match body s with
       | (s', Val a) => (s', Val a)
       | (s', Exc e) => handler e s'
       end.

(** [for i in l: acc = body(i, acc)], the loop-carried variables in [acc]. *)
Fixpoint for_each {S B} (l : list nat) (acc : B) (body : nat → B → M S B)
  : M S B :=
  match l with
  | [] => mret acc
  | i :: l' => acc' ← body i acc; for_each l' acc' body
  end.

(** [range(a, b)] *)
Definition range (a b : nat) : list nat := seq a (b - a).

(** [l[start:stop]] for non-negative bounds: clipped to the sequence,
    it never raises. *)
Definition py_slice {A} (start stop : nat) (l : list A) : list A :=
  take (stop - start) (drop start l).

(** [l[i]] and [l[i] = v] on a Python list: IndexError out of range. *)
Definition py_getitem {S A} (l : list A) (i : nat) : M S A :=
  match l !! i with
  | Some x => mret x
  | None => raise IndexError
  end.

Definition py_setitem {A} (i : nat) (v : A) (l : list A) : res (list A) :=
  if decide (i < length l)%nat then Val (<[i:=v]> l) else Exc IndexError.

(** [float(n)] for an integer below 2^63 in magnitude; the decoder only
    converts integers read from at most four characters. *)
Definition float_of_Z (n : Z) : float :=
  match n with
  | Z0 => PrimFloat.zero
  | Zpos _ => PrimFloat.of_uint63 (Uint63.of_Z n)
  | Zneg _ => PrimFloat.opp (PrimFloat.of_uint63 (Uint63.of_Z (- n)))
  end.

(** [n / d] with an integer [n] and a float [d]: true division. *)
Definition int_div_float (n : Z) (d : float) : float :=
  PrimFloat.div (float_of_Z n) d.

(** Truth value of an optional float: [None], [0] and [0.0] are false. *)
Definition truthy (x : option float) : bool :=
  match x with
  | None => false
  | Some v => negb (PrimFloat.eqb v PrimFloat.zero)
  end.

(** Values found in the dictionary that [getData] builds. *)
#[warnings="-register-all"]
Inductive pyval : Type :=
  | VNone
  | VInt (n : Z)
  | VFloat (x : float)
  | VList (l : list pyval).

Definition of_float (x : option float) : pyval :=
  match x with Some v => VFloat v | None => VNone end.
Definition of_int (x : option Z) : pyval :=
  match x with Some v => VInt v | None => VNone end.

(** A [dict] keeps insertion order; assigning to a present key replaces
    the value in place. *)
Definition dict : Type := list (string * pyval).

Fixpoint dict_set (k : string) (v : pyval) (d : dict) : dict :=
  match d with
  | [] => [(k, v)]
  | (k', v') :: d' =>
      if String.eqb k' k then (k, v) :: d' else (k', v') :: dict_set k v d'
  end.

(** [d |= e] *)
Definition dict_update (d e : dict) : dict :=
  foldl (λ acc kv, dict_set kv.1 kv.2 acc) d e.

(** A dictionary display [{k1: v1, ...}] *)
Definition dict_of (e : dict) : dict := dict_update [] e.

(** ** [int(text, 16)] on ASCII text

    The decoder reads every field with [int(data[a:b].decode(), 16)].
    The model below takes that built-in as a parameter [int16] (with
    [None] for a raise), so the theorems hold for whatever it accepts;
    [py_int16] is its behaviour on ASCII text: optional white space
    around (tab, line feed, vertical tab, form feed, carriage return and
    space), an optional sign, an optional [0x] prefix, hexadecimal digits
    with single underscores between them.  Text with a byte above 127 is
    outside [py_int16]: it answers [None] there, although the built-in
    accepts the digits and blanks of other scripts; [py_int16] is used
    on the sample frames only, which are ASCII. *)

Definition byte_code (b : byte) : Z := Z.of_N (Byte.to_N b).

Definition hex_digit (b : byte) : option Z :=
  let c := byte_code b in
  if (48 <=? c) && (c <=? 57) then Some (c - 48)
  else if (65 <=? c) && (c <=? 70) then Some (c - 55)
  else if (97 <=? c) && (c <=? 102) then Some (c - 87)
  else None.

Definition is_space (b : byte) : bool :=
  let c := byte_code b in
  ((9 <=? c) && (c <=? 13)) || (c =? 32).

Definition is_underscore (b : byte) : bool := byte_code b =? 95.

Fixpoint skip_spaces (l : list byte) : list byte :=
  match l with
  | b :: l' => if is_space b then skip_spaces l' else l
  | [] => []
  end.

(** Digits with single underscores between them; [prev_us] tells that the
    previous character was an underscore, [acc] is the value so far.
    Returns the value and what follows the digits. *)
Fixpoint scan_digits (l : list byte) (prev_us : bool) (acc : Z)
  : option (Z * list byte) :=
  match l with
  | [] => if prev_us then None else Some (acc, [])
  | b :: l' =>
      match hex_digit b with
      | Some d => scan_digits l' false (16 * acc + d)
      | None =>
          if is_underscore b then
            if prev_us then None else scan_digits l' true acc
          else if prev_us then None else Some (acc, l)
      end
  end.

Definition py_int16 (text : list byte) : option Z :=
  let s := skip_spaces text in
  let '(sign, s) :=
    match s with
    | b :: s' => if byte_code b =? 43 then (1, s')
                 else if byte_code b =? 45 then (-1, s') else (1, s)
    | [] => (1, s)
    end in
  let s :=
    match s with
    | z :: x :: s' =>
        if (byte_code z =? 48) && ((byte_code x =? 120) || (byte_code x =? 88))
        then match s' with
             | u :: s'' => if is_underscore u then s'' else s'
             | [] => s'
             end
        else s
    | _ => s
    end in
  match s with
  | [] => None
  | b :: _ =>
      match hex_digit b with
      | None => None
      | Some _ =>
          match scan_digits s false 0 with
          | Some (n, rest) =>
              match skip_spaces rest with
              | [] => Some (sign * n)
              | _ :: _ => None
              end
          | None => None
          end
      end
  end.

Local Close Scope Z_scope.

(** ** The telemetry record: class [SupervoltData]

    One field per attribute.  The attributes [address], [command],
    [version], [length], [balanceState], [dischargeNumber] and
    [chargeNumber] have no class-level default: they come into being at
    their first assignment, and nothing reads them before.  [length] is
    [length_] here.  [totalV] is first assigned the integer [0] and then
    only added floats to; it is a float throughout here, [0] being [0.0]
    (both are false, and [getData], its one reader, returns nothing for
    them).  The class constant [verbose] is [False] and never assigned:
    the blocks it guards only log and are left out. *)
Record SupervoltData : Type := mkSupervoltData {
  cellV : list (option float);
  totalV : option float;
  soc : option Z;
  workingState : option Z;
  alarm : option Z;
  chargingA : option float;
  dischargingA : option float;
  loadA : option float;
  tempC : list (option Z);
  completeAh : option float;
  remainingAh : option float;
  designedAh : option float;
  lastUpdatetime : float;
  address : option Z;
  command : option Z;
  version : option Z;
  length_ : option Z;
  balanceState : option Z;
  dischargeNumber : option Z;
  chargeNumber : option Z
}.

(** Attribute assignment [self.f = v], one function per attribute. *)
Definition set_cellV (v : list (option float)) (s : SupervoltData) : SupervoltData :=
  {| cellV := v; totalV := totalV s; soc := soc s;
     workingState := workingState s; alarm := alarm s;
     chargingA := chargingA s; dischargingA := dischargingA s;
     loadA := loadA s; tempC := tempC s; completeAh := completeAh s;
     remainingAh := remainingAh s; designedAh := designedAh s;
     lastUpdatetime := lastUpdatetime s; address := address s;
     command := command s; version := version s; length_ := length_ s;
     balanceState := balanceState s; dischargeNumber := dischargeNumber s;
     chargeNumber := chargeNumber s |}.
Definition set_totalV (v : option float) (s : SupervoltData) : SupervoltData :=
  {| cellV := cellV s; totalV := v; soc := soc s;
     workingState := workingState s; alarm := alarm s;
     chargingA := chargingA s; dischargingA := dischargingA s;
     loadA := loadA s; tempC := tempC s; completeAh := completeAh s;
     remainingAh := remainingAh s; designedAh := designedAh s;
     lastUpdatetime := lastUpdatetime s; address := address s;
     command := command s; version := version s; length_ := length_ s;
     balanceState := balanceState s; dischargeNumber := dischargeNumber s;
     chargeNumber := chargeNumber s |}.
Definition set_soc (v : option Z) (s : SupervoltData) : SupervoltData :=
  {| cellV := cellV s; totalV := totalV s; soc := v;
     workingState := workingState s; alarm := alarm s;
     chargingA := chargingA s; dischargingA := dischargingA s;
     loadA := loadA s; tempC := tempC s; completeAh := completeAh s;
     remainingAh := remainingAh s; designedAh := designedAh s;
     lastUpdatetime := lastUpdatetime s; address := address s;
     command := command s; version := version s; length_ := length_ s;
     balanceState := balanceState s; dischargeNumber := dischargeNumber s;
     chargeNumber := chargeNumber s |}.
Definition set_workingState (v : option Z) (s : SupervoltData) : SupervoltData :=
  {| cellV := cellV s; totalV := totalV s; soc := soc s; workingState := v;
     alarm := alarm s; chargingA := chargingA s;
     dischargingA := dischargingA s; loadA := loadA s; tempC := tempC s;
     completeAh := completeAh s; remainingAh := remainingAh s;
     designedAh := designedAh s; lastUpdatetime := lastUpdatetime s;
     address := address s; command := command s; version := version s;
     length_ := length_ s; balanceState := balanceState s;
     dischargeNumber := dischargeNumber s; chargeNumber := chargeNumber s |}.
Definition set_alarm (v : option Z) (s : SupervoltData) : SupervoltData :=
  {| cellV := cellV s; totalV := totalV s; soc := soc s;
     workingState := workingState s; alarm := v; chargingA := chargingA s;
     dischargingA := dischargingA s; loadA := loadA s; tempC := tempC s;
     completeAh := completeAh s; remainingAh := remainingAh s;
     designedAh := designedAh s; lastUpdatetime := lastUpdatetime s;
     address := address s; command := command s; version := version s;
     length_ := length_ s; balanceState := balanceState s;
     dischargeNumber := dischargeNumber s; chargeNumber := chargeNumber s |}.
Definition set_chargingA (v : option float) (s : SupervoltData) : SupervoltData :=
  {| cellV := cellV s; totalV := totalV s; soc := soc s;
     workingState := workingState s; alarm := alarm s; chargingA := v;
     dischargingA := dischargingA s; loadA := loadA s; tempC := tempC s;
     completeAh := completeAh s; remainingAh := remainingAh s;
     designedAh := designedAh s; lastUpdatetime := lastUpdatetime s;
     address := address s; command := command s; version := version s;
     length_ := length_ s; balanceState := balanceState s;
     dischargeNumber := dischargeNumber s; chargeNumber := chargeNumber s |}.
Definition set_dischargingA (v : option float) (s : SupervoltData) : SupervoltData :=
  {| cellV := cellV s; totalV := totalV s; soc := soc s;
     workingState := workingState s; alarm := alarm s;
     chargingA := chargingA s; dischargingA := v; loadA := loadA s;
     tempC := tempC s; completeAh := completeAh s;
     remainingAh := remainingAh s; designedAh := designedAh s;
     lastUpdatetime := lastUpdatetime s; address := address s;
     command := command s; version := version s; length_ := length_ s;
     balanceState := balanceState s; dischargeNumber := dischargeNumber s;
     chargeNumber := chargeNumber s |}.
Definition set_loadA (v : option float) (s : SupervoltData) : SupervoltData :=
  {| cellV := cellV s; totalV := totalV s; soc := soc s;
     workingState := workingState s; alarm := alarm s;
     chargingA := chargingA s; dischargingA := dischargingA s; loadA := v;
     tempC := tempC s; completeAh := completeAh s;
     remainingAh := remainingAh s; designedAh := designedAh s;
     lastUpdatetime := lastUpdatetime s; address := address s;
     command := command s; version := version s; length_ := length_ s;
     balanceState := balanceState s; dischargeNumber := dischargeNumber s;
     chargeNumber := chargeNumber s |}.
Definition set_tempC (v : list (option Z)) (s : SupervoltData) : SupervoltData :=
  {| cellV := cellV s; totalV := totalV s; soc := soc s;
     workingState := workingState s; alarm := alarm s;
     chargingA := chargingA s; dischargingA := dischargingA s;
     loadA := loadA s; tempC := v; completeAh := completeAh s;
     remainingAh := remainingAh s; designedAh := designedAh s;
     lastUpdatetime := lastUpdatetime s; address := address s;
     command := command s; version := version s; length_ := length_ s;
     balanceState := balanceState s; dischargeNumber := dischargeNumber s;
     chargeNumber := chargeNumber s |}.
Definition set_completeAh (v : option float) (s : SupervoltData) : SupervoltData :=
  {| cellV := cellV s; totalV := totalV s; soc := soc s;
     workingState := workingState s; alarm := alarm s;
     chargingA := chargingA s; dischargingA := dischargingA s;
     loadA := loadA s; tempC := tempC s; completeAh := v;
     remainingAh := remainingAh s; designedAh := designedAh s;
     lastUpdatetime := lastUpdatetime s; address := address s;
     command := command s; version := version s; length_ := length_ s;
     balanceState := balanceState s; dischargeNumber := dischargeNumber s;
     chargeNumber := chargeNumber s |}.
Definition set_remainingAh (v : option float) (s : SupervoltData) : SupervoltData :=
  {| cellV := cellV s; totalV := totalV s; soc := soc s;
     workingState := workingState s; alarm := alarm s;
     chargingA := chargingA s; dischargingA := dischargingA s;
     loadA := loadA s; tempC := tempC s; completeAh := completeAh s;
     remainingAh := v; designedAh := designedAh s;
     lastUpdatetime := lastUpdatetime s; address := address s;
     command := command s; version := version s; length_ := length_ s;
     balanceState := balanceState s; dischargeNumber := dischargeNumber s;
     chargeNumber := chargeNumber s |}.
Definition set_designedAh (v : option float) (s : SupervoltData) : SupervoltData :=
  {| cellV := cellV s; totalV := totalV s; soc := soc s;
     workingState := workingState s; alarm := alarm s;
     chargingA := chargingA s; dischargingA := dischargingA s;
     loadA := loadA s; tempC := tempC s; completeAh := completeAh s;
     remainingAh := remainingAh s; designedAh := v;
     lastUpdatetime := lastUpdatetime s; address := address s;
     command := command s; version := version s; length_ := length_ s;
     balanceState := balanceState s; dischargeNumber := dischargeNumber s;
     chargeNumber := chargeNumber s |}.
Definition set_lastUpdatetime (v : float) (s : SupervoltData) : SupervoltData :=
  {| cellV := cellV s; totalV := totalV s; soc := soc s;
     workingState := workingState s; alarm := alarm s;
     chargingA := chargingA s; dischargingA := dischargingA s;
     loadA := loadA s; tempC := tempC s; completeAh := completeAh s;
     remainingAh := remainingAh s; designedAh := designedAh s;
     lastUpdatetime := v; address := address s; command := command s;
     version := version s; length_ := length_ s;
     balanceState := balanceState s; dischargeNumber := dischargeNumber s;
     chargeNumber := chargeNumber s |}.
Definition set_address (v : option Z) (s : SupervoltData) : SupervoltData :=
  {| cellV := cellV s; totalV := totalV s; soc := soc s;
     workingState := workingState s; alarm := alarm s;
     chargingA := chargingA s; dischargingA := dischargingA s;
     loadA := loadA s; tempC := tempC s; completeAh := completeAh s;
     remainingAh := remainingAh s; designedAh := designedAh s;
     lastUpdatetime := lastUpdatetime s; address := v;
     command := command s; version := version s; length_ := length_ s;
     balanceState := balanceState s; dischargeNumber := dischargeNumber s;
     chargeNumber := chargeNumber s |}.
Definition set_command (v : option Z) (s : SupervoltData) : SupervoltData :=
  {| cellV := cellV s; totalV := totalV s; soc := soc s;
     workingState := workingState s; alarm := alarm s;
     chargingA := chargingA s; dischargingA := dischargingA s;
     loadA := loadA s; tempC := tempC s; completeAh := completeAh s;
     remainingAh := remainingAh s; designedAh := designedAh s;
     lastUpdatetime := lastUpdatetime s; address := address s;
     command := v; version := version s; length_ := length_ s;
     balanceState := balanceState s; dischargeNumber := dischargeNumber s;
     chargeNumber := chargeNumber s |}.
Definition set_version (v : option Z) (s : SupervoltData) : SupervoltData :=
  {| cellV := cellV s; totalV := totalV s; soc := soc s;
     workingState := workingState s; alarm := alarm s;
     chargingA := chargingA s; dischargingA := dischargingA s;
     loadA := loadA s; tempC := tempC s; completeAh := completeAh s;
     remainingAh := remainingAh s; designedAh := designedAh s;
     lastUpdatetime := lastUpdatetime s; address := address s;
     command := command s; version := v; length_ := length_ s;
     balanceState := balanceState s; dischargeNumber := dischargeNumber s;
     chargeNumber := chargeNumber s |}.
Definition set_length_ (v : option Z) (s : SupervoltData) : SupervoltData :=
  {| cellV := cellV s; totalV := totalV s; soc := soc s;
     workingState := workingState s; alarm := alarm s;
     chargingA := chargingA s; dischargingA := dischargingA s;
     loadA := loadA s; tempC := tempC s; completeAh := completeAh s;
     remainingAh := remainingAh s; designedAh := designedAh s;
     lastUpdatetime := lastUpdatetime s; address := address s;
     command := command s; version := version s; length_ := v;
     balanceState := balanceState s; dischargeNumber := dischargeNumber s;
     chargeNumber := chargeNumber s |}.
Definition set_balanceState (v : option Z) (s : SupervoltData) : SupervoltData :=
  {| cellV := cellV s; totalV := totalV s; soc := soc s;
     workingState := workingState s; alarm := alarm s;
     chargingA := chargingA s; dischargingA := dischargingA s;
     loadA := loadA s; tempC := tempC s; completeAh := completeAh s;
     remainingAh := remainingAh s; designedAh := designedAh s;
     lastUpdatetime := lastUpdatetime s; address := address s;
     command := command s; version := version s; length_ := length_ s;
     balanceState := v; dischargeNumber := dischargeNumber s;
     chargeNumber := chargeNumber s |}.
Definition set_dischargeNumber (v : option Z) (s : SupervoltData) : SupervoltData :=
  {| cellV := cellV s; totalV := totalV s; soc := soc s;
     workingState := workingState s; alarm := alarm s;
     chargingA := chargingA s; dischargingA := dischargingA s;
     loadA := loadA s; tempC := tempC s; completeAh := completeAh s;
     remainingAh := remainingAh s; designedAh := designedAh s;
     lastUpdatetime := lastUpdatetime s; address := address s;
     command := command s; version := version s; length_ := length_ s;
     balanceState := balanceState s; dischargeNumber := v;
     chargeNumber := chargeNumber s |}.
Definition set_chargeNumber (v : option Z) (s : SupervoltData) : SupervoltData :=
  {| cellV := cellV s; totalV := totalV s; soc := soc s;
     workingState := workingState s; alarm := alarm s;
     chargingA := chargingA s; dischargingA := dischargingA s;
     loadA := loadA s; tempC := tempC s; completeAh := completeAh s;
     remainingAh := remainingAh s; designedAh := designedAh s;
     lastUpdatetime := lastUpdatetime s; address := address s;
     command := command s; version := version s; length_ := length_ s;
     balanceState := balanceState s; dischargeNumber := dischargeNumber s;
     chargeNumber := v |}.

(** [SupervoltData()]: [__init__] gives the instance its own two lists;
    every other attribute is still the class default.  [t0] is the
    class-level [lastUpdatetime = time.time()], read once when the module
    is loaded. *)
Definition new_SupervoltData (t0 : float) : SupervoltData :=
  {| cellV := replicate 16 None; totalV := None; soc := None;
     workingState := None; alarm := None; chargingA := None;
     dischargingA := None; loadA := None; tempC := replicate 4 None;
     completeAh := None; remainingAh := None; designedAh := None;
     lastUpdatetime := t0; address := None; command := None;
     version := None; length_ := None; balanceState := None;
     dischargeNumber := None; chargeNumber := None |}.

(** The two lists are made with 16 and 4 entries and no code changes
    their length. *)
Definition wf (s : SupervoltData) : Prop :=
  length (cellV s) = 16 ∧ length (tempC s) = 4.

#[global] Instance wf_dec s : Decision (wf s).
Proof. unfold wf. apply _. Defined.

Definition BAT_TIMEOUT : Z := 10.
Definition MAX_TIME_S : Z := 120.

(** What [parse] reports to the logger at warning or error level, or
    which frame it decoded. *)
Inductive parse_event : Type :=
  | Realtime                     (* 128 bytes, decoded to the end *)
  | Capacity                     (* 30 bytes, decoded to the end *)
  | WrongLength (n : nat)        (* LOGGER.warning("wrong length: ...") *)
  | NoData                       (* LOGGER.debug("no data") *)
  | Failed (e : exn).            (* LOGGER.error(sys.exc_info(), ...) *)

(** Reading an attribute for arithmetic: [None] is a TypeError. *)
Definition get_float (f : SupervoltData → option float)
  : M SupervoltData float :=
  v ← gets f;
  match v with
  | Some x => mret x
  | None => raise TypeError
  end.

(** [self.cellV[i] = v] and [self.tempC[i] = v] *)
Definition set_cell (i : nat) (v : option float) : M SupervoltData unit :=
  λ s, match py_setitem i v (cellV s) with
       | Val l => (set_cellV l s, Val tt)
       | Exc e => (s, Exc e)
       end.

Definition set_temp (i : nat) (v : option Z) : M SupervoltData unit :=
  λ s, match py_setitem i v (tempC s) with
       | Val l => (set_tempC l s, Val tt)
       | Exc e => (s, Exc e)
       end.

(** [x > 500] *)
Definition too_big (x : float) : bool :=
  PrimFloat.ltb (float_of_Z 500) x.

Section Decoder.

(** [int16 text] is [int(text.decode(), 16)]; [None] when it raises. *)
Variable int16 : list byte → option Z.

Definition int_at (data : list byte) (start end_ : nat)
  : M SupervoltData Z :=
  match int16 (py_slice start end_ data) with
  | Some n => mret n
  | None => raise ValueError
  end.

(** The branch [len(data) == 128] of [parse]. *)
Definition parse_realtime (data : list byte) (now : float)
  : M SupervoltData unit :=
  let start := 1 in
  let end_ := start + 2 in
  n ← int_at data start end_; modify (set_address (Some n));;
  let start := end_ in
  let end_ := start + 2 in
  n ← int_at data start end_; modify (set_command (Some n));;
  let start := end_ in
  let end_ := start + 2 in
  n ← int_at data start end_; modify (set_version (Some n));;
  let start := end_ in
  let end_ := start + 4 in
  n ← int_at data start end_; modify (set_length_ (Some n));;
  (* bdate *)
  let start := end_ in
  let end_ := start + 14 in
  (* bvoltarray *)
  let start := end_ in
  let end_ := start + 16 * 4 in
  modify (set_totalV (Some (float_of_Z 0)));;
  cv ← gets cellV;
  (if bool_decide (cv ≠ []) then
     for_each (range 0 11) tt (λ i _,
       n ← int_at data (start + i * 4) (start + i * 4 + 4);
       set_cell i (Some (int_div_float n (float_of_Z 1000)));;
       cv ← gets cellV;
       c ← py_getitem cv i;
       t ← get_float totalV;
       match c with
       | Some c => modify (set_totalV (Some (PrimFloat.add t c)))
       | None => raise TypeError
       end)
   else mret tt);;
  let start := end_ in
  let end_ := start + 4 in
  n ← int_at data start end_;
  modify (set_chargingA (Some (int_div_float n (float_of_Z 100))));;
  c ← get_float chargingA;
  (if too_big c then modify (set_chargingA (Some (float_of_Z 0)))
   else mret tt);;
  let start := end_ in
  let end_ := start + 4 in
  n ← int_at data start end_;
  modify (set_dischargingA (Some (int_div_float n (float_of_Z 100))));;
  d ← get_float dischargingA;
  (if too_big d then modify (set_dischargingA (Some (float_of_Z 0)))
   else mret tt);;
  c ← get_float chargingA;
  d ← get_float dischargingA;
  modify (set_loadA (Some (PrimFloat.add (PrimFloat.opp c) d)));;
  cursor ← for_each (range 0 4) (start, end_) (λ i cursor,
    let start := cursor.2 in
    let end_ := start + 2 in
    tc ← gets tempC;
    (if bool_decide (tc ≠ []) then
       n ← int_at data start end_; set_temp i (Some (n - 40)%Z)
     else mret tt);;
    mret (start, end_));
  let end_ := cursor.2 in
  let start := end_ in
  let end_ := start + 4 in
  n ← int_at data start end_; modify (set_workingState (Some n));;
  let start := end_ in
  let end_ := start + 2 in
  n ← int_at data start end_; modify (set_alarm (Some n));;
  let start := end_ in
  let end_ := start + 4 in
  n ← int_at data start end_; modify (set_balanceState (Some n));;
  let start := end_ in
  let end_ := start + 4 in
  n ← int_at data start end_; modify (set_dischargeNumber (Some n));;
  let start := end_ in
  let end_ := start + 4 in
  n ← int_at data start end_; modify (set_chargeNumber (Some n));;
  let start := end_ in
  let end_ := start + 2 in
  n ← int_at data start end_; modify (set_soc (Some n));;
  modify (set_lastUpdatetime now).

(** The branch [len(data) == 30] of [parse]. *)
Definition parse_capacity (data : list byte) (now : float)
  : M SupervoltData unit :=
  let start := 1 in
  let end_ := start + 2 in
  n ← int_at data start end_; modify (set_address (Some n));;
  let start := end_ in
  let end_ := start + 2 in
  n ← int_at data start end_; modify (set_command (Some n));;
  let start := end_ in
  let end_ := start + 2 in
  n ← int_at data start end_; modify (set_version (Some n));;
  let start := end_ in
  let end_ := start + 4 in
  n ← int_at data start end_; modify (set_length_ (Some n));;
  (* breseved *)
  let start := end_ in
  let end_ := start + 4 in
  let start := end_ in
  let end_ := start + 4 in
  n ← int_at data start end_;
  modify (set_remainingAh (Some (int_div_float n (float_of_Z 10))));;
  let start := end_ in
  let end_ := start + 4 in
  n ← int_at data start end_;
  modify (set_completeAh (Some (int_div_float n (float_of_Z 10))));;
  let start := end_ in
  let end_ := start + 4 in
  n ← int_at data start end_;
  modify (set_designedAh (Some (int_div_float n (float_of_Z 10))));;
  modify (set_lastUpdatetime now).

(** [SupervoltData.parse(data)].  [data] is the [bytearray] of a
    notification, so both type tests of the source pass; [now] is what
    [time.time()] returns at the end of a frame decoded to the end. *)
Definition parse (data : list byte) (now : float)
  : M SupervoltData parse_event :=
  try_except
    (if bool_decide (data ≠ []) then
       if decide (length data = 128) then
         parse_realtime data now;; mret Realtime
       else if decide (length data = 30) then
         parse_capacity data now;; mret Capacity
       else mret (WrongLength (length data))
     else mret NoData)
    (λ e, mret (Failed e)).

End Decoder.

(** [SupervoltData.resetValues()] *)
Definition resetValues : M SupervoltData unit :=
  try_except
    (modify (set_alarm None);;
     modify (set_balanceState None);;
     cv ← gets cellV;
     (if bool_decide (cv ≠ []) then
        for_each (range 0 11) tt (λ i _, set_cell i None)
      else mret tt);;
     modify (set_chargeNumber None);;
     modify (set_chargingA None);;
     modify (set_completeAh None);;
     modify (set_designedAh None);;
     modify (set_dischargeNumber None);;
     modify (set_dischargingA None);;
     modify (set_loadA None);;
     modify (set_remainingAh None);;
     modify (set_soc None);;
     tc ← gets tempC;
     (if bool_decide (tc ≠ []) then
        for_each (range 0 4) tt (λ i _, set_temp i None)
      else mret tt);;
     modify (set_totalV None);;
     modify (set_version None);;
     modify (set_workingState None))
    (λ _, mret tt).

(** The names imported from [..const]; that module is not part of the
    sources at hand, so the strings are parameters. *)
Record Consts : Type := mkConsts {
  ATTR_BATTERY_CHARGING : string;
  ATTR_BATTERY_LEVEL : string;
  ATTR_CURRENT : string;
  ATTR_CYCLE_CAP : string;
  ATTR_DELTA_VOLTAGE : string;
  ATTR_POWER : string;
  ATTR_TEMPERATURE : string;
  ATTR_VOLTAGE : string;
  ATTR_CELL_VOLTAGES : string;
  KEY_CELL_VOLTAGE : string;
  KEY_CELL_COUNT : string
}.

(** The keys that [getData] writes before the per-cell ones. *)
Definition scalar_keys (K : Consts) : list string :=
  [ATTR_VOLTAGE K; ATTR_DELTA_VOLTAGE K; ATTR_CURRENT K;
   ATTR_BATTERY_LEVEL K; ATTR_CYCLE_CAP K; KEY_CELL_COUNT K;
   ATTR_TEMPERATURE K].

(** The names are told apart: the scalar keys differ from one another,
    none of them nor [ATTR_CELL_VOLTAGES] starts with [KEY_CELL_VOLTAGE],
    and [ATTR_CELL_VOLTAGES] is none of the scalar keys. *)
Definition consts_distinct (K : Consts) : Prop :=
  NoDup (ATTR_CELL_VOLTAGES K :: scalar_keys K) ∧
  Forall (λ k, String.prefix (KEY_CELL_VOLTAGE K) k = false)
         (ATTR_CELL_VOLTAGES K :: scalar_keys K).

#[global] Instance consts_distinct_dec K : Decision (consts_distinct K).
Proof. unfold consts_distinct. apply _. Defined.

(** [f"{KEY_CELL_VOLTAGE}{i+1}"] *)
Definition cell_key (K : Consts) (i : nat) : string :=
  KEY_CELL_VOLTAGE K +:+ pretty (i + 1).

(** [SupervoltData.getData()], with [now] for [time.time()]. *)
Definition getData (K : Consts) (now : float)
  : M SupervoltData (option dict) :=
  last ← gets lastUpdatetime;
  tv ← gets totalV;
  if PrimFloat.ltb (float_of_Z MAX_TIME_S) (PrimFloat.sub now last)
     || negb (truthy tv)
  then mret None
  else
    la ← gets loadA;
    so ← gets soc;
    re ← gets remainingAh;
    let data := dict_of [(ATTR_VOLTAGE K, of_float tv);
                         (ATTR_DELTA_VOLTAGE K, of_float tv);
                         (ATTR_CURRENT K, of_float la);
                         (ATTR_BATTERY_LEVEL K, of_int so);
                         (ATTR_CYCLE_CAP K, of_float re);
                         (KEY_CELL_COUNT K, VInt 4)] in
    tc ← gets tempC;
    data ← (if bool_decide (tc ≠ []) then
              t ← py_getitem tc 0;
              mret (dict_update data [(ATTR_TEMPERATURE K, of_int t)])
            else mret data);
    data ← for_each (range 0 4) data (λ i data,
              cv ← gets cellV;
              c ← py_getitem cv i;
              mret (dict_update data [(cell_key K i, of_float c)]));
    let data :=
      dict_update data
        [(ATTR_CELL_VOLTAGES K,
          VList (map snd
                   (filter (λ kv, String.prefix (KEY_CELL_VOLTAGE K) kv.1 = true)
                           data)))] in
    mret (Some data).

(** ** The driver: class [BMS]

    The radio link (the [BleakClient] of the source, with the device
    behind it) is an input: at every [await] the driver is suspended and
    the link answers with a [reply], which tells the notifications handed
    to the driver's handler meanwhile and whether the awaited call fails.
    The calls made on the link are recorded in order. *)

Record BLEDevice : Type := mkBLEDevice {
  ble_name : option string;
  ble_address : string
}.

Inductive call : Type :=
  | Connect
  | StartNotify
  | WriteGattChar (data : list byte)
  | StopNotify
  | Disconnect.

#[global] Instance byte_eq_dec : EqDecision byte := Byte.byte_eq_dec.

#[global] Instance call_eq_dec : EqDecision call.
Proof. solve_decision. Defined.

(** A notification: the bytes and the clock reading when [parse] is at
    its end. *)
Definition notification : Type := list byte * float.

Record reply : Type := mkReply {
  notified : list notification;
  failure : option exn
}.

(** The client object: [is_connected] turns true when [connect()]
    returns and false when [disconnect()] returns. *)
Record BleakClient : Type := mkBleakClient {
  is_connected : bool
}.

(** An instance of [BMS].  [supervoltData] is a reference to a record in
    the heap. *)
Record BMS : Type := mkBMS {
  _reconnect : bool;
  _ble_device : BLEDevice;
  _client : option BleakClient;
  _data_event : bool;
  supervoltData : nat
}.

(** What the instances share: the records allocated so far, the
    class-level dictionary [BMS.supervoltDatas], the clock reading
    [loaded_at] taken when the class [SupervoltData] was defined, the
    replies that the link still has to give and the calls made so far. *)
Record World : Type := mkWorld {
  heap : list SupervoltData;
  supervoltDatas : gmap string nat;
  loaded_at : float;
  link : list reply;
  calls : list call
}.

Definition set_heap (h : list SupervoltData) (w : World) : World :=
  {| heap := h; supervoltDatas := supervoltDatas w;
     loaded_at := loaded_at w; link := link w; calls := calls w |}.
Definition set_link (l : list reply) (w : World) : World :=
  {| heap := heap w; supervoltDatas := supervoltDatas w;
     loaded_at := loaded_at w; link := l; calls := calls w |}.
Definition set_calls (c : list call) (w : World) : World :=
  {| heap := heap w; supervoltDatas := supervoltDatas w;
     loaded_at := loaded_at w; link := link w; calls := c |}.

Definition set__client (c : option BleakClient) (b : BMS) : BMS :=
  {| _reconnect := _reconnect b; _ble_device := _ble_device b;
     _client := c; _data_event := _data_event b;
     supervoltData := supervoltData b |}.
Definition set__data_event (e : bool) (b : BMS) : BMS :=
  {| _reconnect := _reconnect b; _ble_device := _ble_device b;
     _client := _client b; _data_event := e;
     supervoltData := supervoltData b |}.

(** The state when the module has just been loaded: no record, an empty
    [supervoltDatas]. *)
Definition initial_world (t0 : float) (l : list reply) : World :=
  {| heap := []; supervoltDatas := ∅; loaded_at := t0; link := l;
     calls := [] |}.

(** [BMS(ble_device, reconnect)].  The default argument of [dict.get] is
    evaluated before the call: a new [SupervoltData] is always made. *)
Definition BMS_init (ble_device : BLEDevice) (reconnect : bool)
  : M World BMS :=
  match ble_name ble_device with
  | None => raise AssertionError
  | Some name =>
      h ← gets heap;
      t0 ← gets loaded_at;
      let fresh := length h in
      modify (set_heap (h ++ [new_SupervoltData t0]));;
      registry ← gets supervoltDatas;
      mret {| _reconnect := reconnect; _ble_device := ble_device;
              _client := None; _data_event := false;
              supervoltData := default fresh (registry !! name) |}
  end.

(** Code of the instance runs on the instance and the world. *)
Definition Self : Type := BMS * World.

Definition on_self (f : BMS → BMS) : M Self unit :=
  modify (λ st, (f st.1, st.2)).
Definition on_world (f : World → World) : M Self unit :=
  modify (λ st, (st.1, f st.2)).

(** Running a method of the record that [self.supervoltData] refers to. *)
Definition on_record {A} (m : M SupervoltData A) : M Self A :=
  λ st,
    let l := supervoltData st.1 in
    match heap st.2 !! l with
    | None => (st, Exc OtherError)
    | Some r =>
        let '(r', a) := m r in
        ((st.1, set_heap (<[l:=r']> (heap st.2)) st.2), a)
    end.

Section Driver.

Variable int16 : list byte → option Z.
Variable K : Consts.

(** [BaseBMS.calc_values(data, values)]: it completes [data] in place
    with the derived values asked for.  [basebms.py] is not part of the
    sources at hand. *)
Variable calc_values : dict → list string → res dict.

(** [BMS._notification_handler] *)
Definition _notification_handler (n : notification) : M Self unit :=
  on_record (parse int16 n.1 n.2);;
  on_self (set__data_event true).

(** One suspension of the driver: the link's next reply is taken (a link
    with no reply left stays silent and lets the call return), its
    notifications are handled in order, and its failure, if any, is
    returned. *)
Definition suspend : M Self (option exn) :=
  l ← gets (λ st : Self, link st.2);
  let r := default (mkReply [] None) (head l) in
  on_world (set_link (tail l));;
  for_each (seq 0 (length (notified r))) tt (λ i _,
    match notified r !! i with
    | Some n => _notification_handler n
    | None => mret tt
    end);;
  mret (failure r).

(** [await self._client.f(...)] for a call [c] on the link *)
Definition await_call (c : call) : M Self unit :=
  on_world (λ w, set_calls (calls w ++ [c]) w);;
  f ← suspend;
  match f with
  | Some e => raise e
  | None => mret tt
  end.

(** [BMS._connect] *)
Definition _connect : M Self unit :=
  c ← gets (λ st : Self, _client st.1);
  (match c with
   | None => on_self (set__client (Some (mkBleakClient false)))
   | Some _ => mret tt
   end);;
  c ← gets (λ st : Self, _client st.1);
  match c with
  | None => raise TypeError
  | Some cl =>
      if negb (is_connected cl) then
        await_call Connect;;
        on_self (set__client (Some (mkBleakClient true)));;
        await_call StartNotify
      else mret tt
  end.

(** [asyncio.wait_for(self._wait_event(), timeout=BAT_TIMEOUT)]: the
    wait ends when the event is set, and the event is then cleared; if
    the link sets it by no notification, the wait times out. *)
Definition wait_event : M Self unit :=
  suspend;;
  ev ← gets (λ st : Self, _data_event st.1);
  if ev : bool then on_self (set__data_event false)
  else raise TimeoutError.

(** [BMS.disconnect] *)
Definition disconnect : M Self unit :=
  c ← gets (λ st : Self, _client st.1);
  match c with
  | Some cl =>
      if is_connected cl then
        try_except
          (on_self (set__data_event false);;
           await_call StopNotify;;
           await_call Disconnect;;
           on_self (set__client (Some (mkBleakClient false))))
          (λ e, if decide (e = BleakError) then mret tt else raise e)
      else mret tt
  | None => mret tt
  end.

Definition command_realtime : list byte :=
  String.list_byte_of_string ":000250000E03~".
Definition command_capacity : list byte :=
  String.list_byte_of_string ":001031000E05~".

(** [BMS.async_update], with [now] for the clock reading in [getData].
    The source ends with the call of [calc_values] and has no [return]:
    the value here is the dictionary [data] as that call leaves it. *)
Definition async_update (now : float) : M Self dict :=
  try_except
    (_connect;;
     c ← gets (λ st : Self, _client st.1);
     match c with
     | Some _ =>
         on_record resetValues;;
         await_call (WriteGattChar command_realtime);;
         wait_event;;
         await_call (WriteGattChar command_capacity);;
         wait_event;;
         disconnect
     | None => mret tt
     end)
    (λ _, mret tt);;
  data ← on_record (getData K now);
  match data with
  | None => raise AssertionError
  | Some data =>
      match calc_values data [ATTR_POWER K; ATTR_BATTERY_CHARGING K;
                              ATTR_DELTA_VOLTAGE K] with
      | Val data => mret data
      | Exc e => raise e
      end
  end.

End Driver.

(** ** The capability matcher: [ConfigFlow._device_supported]

    The enumeration [BmsTypes], the plug-in classes and
    [BaseBMS.supported] live in the package [plugins], which is not part
    of the sources at hand: they are parameters.  A class is what the
    matcher uses of it. *)

Record BluetoothServiceInfoBleak : Type := mkServiceInfo {
  info_name : string;
  info_address : string;
  service_uuids : list string;
  connectable : bool
}.

Record BaseBMS : Type := mkBaseBMS {
  bms_name : string;
  supported : BluetoothServiceInfoBleak → bool
}.

Section ConfigFlow.

(** The members of the enumeration, in the order of iteration (the order
    of definition), and [type.name]. *)
Variable BmsType : Type.
Variable BmsTypes : list BmsType.
Variable type_name : BmsType → string.

(** The module's name space after [from .plugins import *]. *)
Variable globals : string → option BaseBMS.

(** The loop [for type in BmsTypes: ...] from a given member on. *)
Fixpoint device_supported_from (types : list BmsType)
    (discovery_info : BluetoothServiceInfoBleak) : res (option BmsType) :=
  match types with
  | [] => Val None
  | type :: types' =>
      match globals (type_name type) with
      | None => Exc KeyError
      | Some bms =>
          if supported bms discovery_info then Val (Some type)
          else device_supported_from types' discovery_info
      end
  end.

Definition _device_supported (discovery_info : BluetoothServiceInfoBleak)
  : res (option BmsType) :=
  device_supported_from BmsTypes discovery_info.

(** The type's class is found and claims the device. *)
Definition claims (type : BmsType)
    (discovery_info : BluetoothServiceInfoBleak) : bool :=
  match globals (type_name type) with
  | Some bms => supported bms discovery_info
  | None => false
  end.

End ConfigFlow.

(** ** The layout of the two frames

    The fields that [parse] reads from a frame, in the order it reads
    them, each with the bounds of its slice; what is kept for a field
    whose text decodes to [n]; and where it is kept. *)

Inductive field : Type :=
  | Address | Command | Version | Length
  | CellV (i : nat)
  | ChargingA | DischargingA
  | TempC (i : nat)
  | WorkingState | Alarm | BalanceState | DischargeNumber | ChargeNumber
  | Soc
  | RemainingAh | CompleteAh | DesignedAh.

#[global] Instance field_eq_dec : EqDecision field.
Proof. solve_decision. Defined.

Definition region : Type := field * (nat * nat).

Definition realtime_header : list region :=
  [(Address, (1, 3)); (Command, (3, 5)); (Version, (5, 7));
   (Length, (7, 11))].

Definition realtime_cells : list region :=
  map (λ i, (CellV i, (25 + i * 4, 25 + i * 4 + 4))) (seq 0 11).

Definition realtime_tail : list region :=
  [(ChargingA, (89, 93)); (DischargingA, (93, 97));
   (TempC 0, (97, 99)); (TempC 1, (99, 101)); (TempC 2, (101, 103));
   (TempC 3, (103, 105));
   (WorkingState, (105, 109)); (Alarm, (109, 111));
   (BalanceState, (111, 115)); (DischargeNumber, (115, 119));
   (ChargeNumber, (119, 123)); (Soc, (123, 125))].

Definition realtime_fields : list region :=
  realtime_header ++ realtime_cells ++ realtime_tail.

Definition capacity_fields : list region :=
  [(Address, (1, 3)); (Command, (3, 5)); (Version, (5, 7));
   (Length, (7, 11));
   (RemainingAh, (15, 19)); (CompleteAh, (19, 23));
   (DesignedAh, (23, 27))].

(** The fields of a frame of a known length. *)
Definition frame_fields (len : nat) : list region :=
  if decide (len = 128) then realtime_fields
  else if decide (len = 30) then capacity_fields
  else [].

(** The plausibility clamp on a current. *)
Definition clamp (x : float) : float :=
  if too_big x then float_of_Z 0 else x.

Inductive fval : Type :=
  | FInt (n : Z)
  | FFloat (x : float).

(** The value kept for a field whose text decodes to [n]. *)
Definition stored (f : field) (n : Z) : fval :=
  match f with
  | CellV _ => FFloat (int_div_float n (float_of_Z 1000))
  | ChargingA | DischargingA =>
      FFloat (clamp (int_div_float n (float_of_Z 100)))
  | TempC _ => FInt (n - 40)
  | RemainingAh | CompleteAh | DesignedAh =>
      FFloat (int_div_float n (float_of_Z 10))
  | _ => FInt n
  end.

(** The attribute (or list slot) of a field. *)
Definition read (f : field) (s : SupervoltData) : option fval :=
  match f with
  | Address => FInt <$> address s
  | Command => FInt <$> command s
  | Version => FInt <$> version s
  | Length => FInt <$> length_ s
  | CellV i => FFloat <$> mjoin (cellV s !! i)
  | ChargingA => FFloat <$> chargingA s
  | DischargingA => FFloat <$> dischargingA s
  | TempC i => FInt <$> mjoin (tempC s !! i)
  | WorkingState => FInt <$> workingState s
  | Alarm => FInt <$> alarm s
  | BalanceState => FInt <$> balanceState s
  | DischargeNumber => FInt <$> dischargeNumber s
  | ChargeNumber => FInt <$> chargeNumber s
  | Soc => FInt <$> soc s
  | RemainingAh => FFloat <$> remainingAh s
  | CompleteAh => FFloat <$> completeAh s
  | DesignedAh => FFloat <$> designedAh s
  end.

(** The effect on the record of a field decoded to [n]: the assignment
    of [stored f n], and for a cell the addition to [totalV], for the
    discharging current the computation of [loadA]. *)
Definition apply_field (f : field) (n : Z) (s : SupervoltData)
  : SupervoltData :=
  match f with
  | Address => set_address (Some n) s
  | Command => set_command (Some n) s
  | Version => set_version (Some n) s
  | Length => set_length_ (Some n) s
  | CellV i =>
      let v := int_div_float n (float_of_Z 1000) in
      set_totalV ((λ t, PrimFloat.add t v) <$> totalV s)
        (set_cellV (<[i:=Some v]> (cellV s)) s)
  | ChargingA =>
      set_chargingA (Some (clamp (int_div_float n (float_of_Z 100)))) s
  | DischargingA =>
      let d := clamp (int_div_float n (float_of_Z 100)) in
      set_loadA ((λ c, PrimFloat.add (PrimFloat.opp c) d) <$> chargingA s)
        (set_dischargingA (Some d) s)
  | TempC i => set_tempC (<[i:=Some (n - 40)%Z]> (tempC s)) s
  | WorkingState => set_workingState (Some n) s
  | Alarm => set_alarm (Some n) s
  | BalanceState => set_balanceState (Some n) s
  | DischargeNumber => set_dischargeNumber (Some n) s
  | ChargeNumber => set_chargeNumber (Some n) s
  | Soc => set_soc (Some n) s
  | RemainingAh =>
      set_remainingAh (Some (int_div_float n (float_of_Z 10))) s
  | CompleteAh =>
      set_completeAh (Some (int_div_float n (float_of_Z 10))) s
  | DesignedAh =>
      set_designedAh (Some (int_div_float n (float_of_Z 10))) s
  end.

Definition apply_fields (l : list (field * Z)) (s : SupervoltData)
  : SupervoltData :=
  foldl (λ s fn, apply_field fn.1 fn.2 s) s l.

(** The sum of floats as the loop forms it: from [0], left to right. *)
Definition fsum (l : list float) : float :=
  foldl PrimFloat.add (float_of_Z 0) l.

Section Layout.

Variable int16 : list byte → option Z.

Definition decode_at (data : list byte) (r : region) : option Z :=
  int16 (py_slice r.2.1 r.2.2 data).

(** The fields of [l] decoded in order up to the first one that does not
    decode. *)
Definition decode_fields (data : list byte)
  : list region → list (field * Z) :=
  fix go (l : list region) : list (field * Z) :=
    match l with
    | [] => []
    | r :: l' =>
        match decode_at data r with
        | Some n => (r.1, n) :: go l'
        | None => []
        end
    end.

(** The cell voltages that a 128-byte frame yields: those of the slots
    before the first one that does not decode. *)
Definition cells_parsed (data : list byte) : list float :=
  map (λ fn, int_div_float fn.2 (float_of_Z 1000))
      (decode_fields data realtime_cells).

(** The two branches of [parse] as the layout tells them: the fields
    are applied in order up to the first one that does not decode; the
    128-byte branch clears [totalV] once the header is through; the time
    stamp is set when every field has decoded. *)
Definition realtime_decoded (data : list byte) (now : float)
    (s : SupervoltData) : SupervoltData * res unit :=
  let hd := decode_fields data realtime_header in
  if decide (length hd = 4) then
    let rest := decode_fields data (realtime_cells ++ realtime_tail) in
    let s1 :=
      apply_fields rest
        (set_totalV (Some (float_of_Z 0)) (apply_fields hd s)) in
    if decide (length rest = 23) then (set_lastUpdatetime now s1, Val tt)
    else (s1, Exc ValueError)
  else (apply_fields hd s, Exc ValueError).

Definition capacity_decoded (data : list byte) (now : float)
    (s : SupervoltData) : SupervoltData * res unit :=
  let vals := decode_fields data capacity_fields in
  if decide (length vals = 7) then
    (set_lastUpdatetime now (apply_fields vals s), Val tt)
  else (apply_fields vals s, Exc ValueError).

End Layout.

(** ** Sample data *)

Definition bytes_of (s : string) : list byte := String.list_byte_of_string s.

(** The names as the integration's [const.py] is known to define them. *)
Definition sample_consts : Consts :=
  {| ATTR_BATTERY_CHARGING := "battery_charging";
     ATTR_BATTERY_LEVEL := "battery_level";
     ATTR_CURRENT := "current";
     ATTR_CYCLE_CAP := "cycle_capacity";
     ATTR_DELTA_VOLTAGE := "delta_voltage";
     ATTR_POWER := "power";
     ATTR_TEMPERATURE := "temperature";
     ATTR_VOLTAGE := "voltage";
     ATTR_CELL_VOLTAGES := "cell_voltages";
     KEY_CELL_VOLTAGE := "cell#";
     KEY_CELL_COUNT := "cell_count" |}.

(** A realtime frame from its parts: header, eleven cells (and five
    unused slots), the two currents, four temperatures, the status words
    and the state of charge. *)
Definition realtime_frame (address cells charging discharging soc : string)
  : list byte :=
  bytes_of (":" +:+ address +:+ "01" +:+ "52" +:+ "007E"
            +:+ "20240101120000"
            +:+ cells +:+ "00000000000000000000"
            +:+ charging +:+ discharging
            +:+ "3C3C3C3C" +:+ "F000" +:+ "00" +:+ "0000" +:+ "0001"
            +:+ "0002" +:+ soc +:+ "AB~").

(** Four cells at 3.3 V, 1 A in, 2 A out, 100 %. *)
Definition frame_ok : list byte :=
  realtime_frame "00"
    "0CE40CE40CE40CE40000000000000000000000000000" "0064" "00C8" "64".

(** Every cell at 0 V. *)
Definition frame_zero_volt : list byte :=
  realtime_frame "00"
    "00000000000000000000000000000000000000000000" "0064" "00C8" "64".

(** The address is no hexadecimal text. *)
Definition frame_bad_address : list byte :=
  realtime_frame "ZZ"
    "00000000000000000000000000000000000000000000" "0064" "00C8" "64".

(** The third cell is no hexadecimal text. *)
Definition frame_bad_cell : list byte :=
  realtime_frame "00"
    "0CE40CE4ZZZZ0CE40000000000000000000000000000" "0064" "00C8" "64".

(** Both currents at exactly 500 A (50000 = 0xC350). *)
Definition frame_500A : list byte :=
  realtime_frame "00"
    "0CE40CE40CE40CE40000000000000000000000000000" "C350" "C350" "64".

(** Both currents just above: 500.01 A. *)
Definition frame_above_500A : list byte :=
  realtime_frame "00"
    "0CE40CE40CE40CE40000000000000000000000000000" "C351" "C351" "64".

(** A capacity frame: 100 Ah left of 200 Ah. *)
Definition frame_capacity : list byte :=
  bytes_of (":" +:+ "00" +:+ "10" +:+ "31" +:+ "0010" +:+ "0000"
            +:+ "03E8" +:+ "07D0" +:+ "07D0" +:+ "AB~").

(** The remaining capacity is no hexadecimal text. *)
Definition frame_bad_capacity : list byte :=
  bytes_of (":" +:+ "00" +:+ "10" +:+ "31" +:+ "0010" +:+ "0000"
            +:+ "03E8" +:+ "07G0" +:+ "07D0" +:+ "AB~").

Definition fresh_record : SupervoltData := new_SupervoltData (float_of_Z 0).

(** The record after [frame_ok], decoded at time 1000. *)
Definition record_ok : SupervoltData :=
  (parse py_int16 frame_ok (float_of_Z 1000) fresh_record).1.

(** ** Notions used in the properties *)

(** What [getData] returns when it returns a reading. *)
Definition snapshot_of (K : Consts) (s : SupervoltData) : dict :=
  [(ATTR_VOLTAGE K, of_float (totalV s));
   (ATTR_DELTA_VOLTAGE K, of_float (totalV s));
   (ATTR_CURRENT K, of_float (loadA s));
   (ATTR_BATTERY_LEVEL K, of_int (soc s));
   (ATTR_CYCLE_CAP K, of_float (remainingAh s));
   (KEY_CELL_COUNT K, VInt 4);
   (ATTR_TEMPERATURE K, of_int (mjoin (tempC s !! 0)));
   (cell_key K 0, of_float (mjoin (cellV s !! 0)));
   (cell_key K 1, of_float (mjoin (cellV s !! 1)));
   (cell_key K 2, of_float (mjoin (cellV s !! 2)));
   (cell_key K 3, of_float (mjoin (cellV s !! 3)));
   (ATTR_CELL_VOLTAGES K,
    VList [of_float (mjoin (cellV s !! 0)); of_float (mjoin (cellV s !! 1));
           of_float (mjoin (cellV s !! 2)); of_float (mjoin (cellV s !! 3))])].


(** A link that hands over no notification. *)
Definition silent (l : list reply) : Prop :=
  Forall (λ r, notified r = []) l.

#[global] Instance silent_dec l : Decision (silent l).
Proof. unfold silent. apply _. Defined.

(** The code [m] keeps the property [I] of the instance and the world,
    whether it returns or raises. *)
Definition preserves {A} (I : Self → Prop) (m : M Self A) : Prop :=
  ∀ st, I st → I (m st).1.

(** The instance refers to the record [r] at [l], and the link is
    silent. *)
Definition quiet (l : nat) (r : SupervoltData) (st : Self) : Prop :=
  supervoltData st.1 = l ∧ heap st.2 !! l = Some r ∧ silent (link st.2).

Definition has_client (st : Self) : Prop := is_Some (_client st.1).


(** A device that the Supervolt plug-in claims. *)
Definition sample_device : BLEDevice :=
  {| ble_name := Some "libatt-0001"; ble_address := "AA:BB:CC:DD:EE:FF" |}.

(** A [calc_values] that derives nothing. *)
Definition no_calc (data : dict) (values : list string) : res dict :=
  Val data.

(** A driver made in the state after loading, and the world then. *)
Definition sample_world (l : list reply) : World :=
  (BMS_init sample_device false (initial_world (float_of_Z 0) l)).1.

Definition sample_driver : BMS :=
  {| _reconnect := false; _ble_device := sample_device; _client := None;
     _data_event := false; supervoltData := 0 |}.

(** Three driver types; the second and the third claim the same names. *)
Definition sample_types : list string := ["FirstBMS"; "SecondBMS"; "ThirdBMS"].

Definition sample_globals (name : string) : option BaseBMS :=
  if String.eqb name "FirstBMS" then
    Some {| bms_name := "first";
            supported := λ i, String.prefix "SmartBat" (info_name i) |}
  else if String.eqb name "SecondBMS" then
    Some {| bms_name := "second";
            supported := λ i, String.prefix "libatt" (info_name i) |}
  else if String.eqb name "ThirdBMS" then
    Some {| bms_name := "third";
            supported := λ i, String.prefix "libatt" (info_name i) |}
  else None.

Definition sample_info : BluetoothServiceInfoBleak :=
  {| info_name := "libatt-0001"; info_address := "AA:BB:CC:DD:EE:FF";
     service_uuids := []; connectable := true |}.


(** ** The working state as text

    [getWorkingStateTextShort], [getWorkingStateText] and [appendState]
    of [SupervoltData].  A Python [str] is the string of its UTF-8
    bytes here.  [&] on Python integers is the bitwise and of the
    two's-complement numbers, as [Z.land] is. *)

Definition getWorkingStateTextShort (s : SupervoltData) : string :=
  match workingState s with
  | None => "nicht erreichbar"
  | Some ws =>
      if (Z.land ws 0xF003 >=? 0xF000)%Z then "Normal"
      else if (Z.land ws 0x000C >? 0x0000)%Z then "Schutzschaltung"
      else if (Z.land ws 0x0020 >? 0)%Z then "Kurzschluss"
      else if (Z.land ws 0x0500 >? 0)%Z then "Überhitzt"
      else if (Z.land ws 0x0A00 >? 0)%Z then "Unterkühlt"
      else "Unbekannt"
  end.

(** [appendState(text, append)]; [text] is a [str], never [None]. *)
Definition appendState (text append : string) : string :=
  if (String.length text =? 0)%nat then append
  else text +:+ " | " +:+ append.

Definition getWorkingStateText (s : SupervoltData) : string :=
  let text := "" in
  match workingState s with
  | None => "Unbekannt"
  | Some ws =>
      let text := if (Z.land ws 0x0001 >? 0)%Z
                  then appendState text "Laden" else text in
      let text := if (Z.land ws 0x0002 >? 0)%Z
                  then appendState text "Entladen" else text in
      let text := if (Z.land ws 0x0004 >? 0)%Z
                  then appendState text "Überladungsschutz" else text in
      let text := if (Z.land ws 0x0008 >? 0)%Z
                  then appendState text "Entladeschutz" else text in
      let text := if (Z.land ws 0x0010 >? 0)%Z
                  then appendState text "Überladen" else text in
      let text := if (Z.land ws 0x0020 >? 0)%Z
                  then appendState text "Kurzschluss" else text in
      let text := if (Z.land ws 0x0040 >? 0)%Z
                  then appendState text "Entladeschutz 1" else text in
      let text := if (Z.land ws 0x0080 >? 0)%Z
                  then appendState text "Entladeschutz 2" else text in
      let text := if (Z.land ws 0x0100 >? 0)%Z
                  then appendState text "Überhitzt (Laden)" else text in
      let text := if (Z.land ws 0x0200 >? 0)%Z
                  then appendState text "Unterkühlt (Laden)" else text in
      let text := if (Z.land ws 0x0400 >? 0)%Z
                  then appendState text "Überhitzt (Entladen)" else text in
      let text := if (Z.land ws 0x0800 >? 0)%Z
                  then appendState text "Unterkühlt (Entladen)" else text in
      let text := if (Z.land ws 0x1000 >? 0)%Z
                  then appendState text "DFET an" else text in
      let text := if (Z.land ws 0x2000 >? 0)%Z
                  then appendState text "CFET an" else text in
      let text := if (Z.land ws 0x4000 >? 0)%Z
                  then appendState text "DFET Schalter an" else text in
      let text := if (Z.land ws 0x8000 >? 0)%Z
                  then appendState text "CFET Schalter an" else text in
      text
  end.

(** The label that [getWorkingStateText] gives to each of the bits 0 to
    15, in the order of the bits. *)
Definition state_labels : list string :=
  ["Laden"; "Entladen"; "Überladungsschutz"; "Entladeschutz"; "Überladen";
   "Kurzschluss"; "Entladeschutz 1"; "Entladeschutz 2";
   "Überhitzt (Laden)"; "Unterkühlt (Laden)"; "Überhitzt (Entladen)";
   "Unterkühlt (Entladen)"; "DFET an"; "CFET an"; "DFET Schalter an";
   "CFET Schalter an"].

(** The labels of the bits of [ws] that are set. *)
Definition labels_of (ws : Z) : list string :=
  omap (λ kl : nat * string,
          if Z.testbit ws (Z.of_nat kl.1) then Some kl.2 else None)
       (zip (seq 0 16) state_labels).

(** The chain of [if ...: text = self.appendState(text, label)]. *)
Fixpoint append_labels (xs : list (bool * string)) (text : string) : string :=
  match xs with
  | [] => text
  | (b, label) :: xs' =>
      append_labels xs' (if b then appendState text label else text)
  end.

(** The labels whose test holds. *)
Definition chosen (xs : list (bool * string)) : list string :=
  omap (λ x : bool * string, if x.1 then Some x.2 else None) xs.

(** ** The steps of the configuration flow:
    [ConfigFlow.async_step_user], [async_step_bluetooth] and
    [async_step_bluetooth_confirm]

    What the flow base class and the Bluetooth integration of Home
    Assistant give is an input: the unique ids of the configured
    entries, the devices discovered at the time of the step, and the
    check [_abort_if_unique_id_configured], which raises to abort the
    flow.  Of [async_set_unique_id] the step uses that it records the
    id of the flow. *)

(** [ConfigFlow.DiscoveredDevice] *)
Record DiscoveredDevice (BmsType : Type) : Type := mkDiscoveredDevice {
  dd_name : string;
  dd_discovery_info : BluetoothServiceInfoBleak;
  dd_type : BmsType
}.
Arguments mkDiscoveredDevice {BmsType} _ _ _.
Arguments dd_name {BmsType} _.
Arguments dd_discovery_info {BmsType} _.
Arguments dd_type {BmsType} _.

(** The attributes of a flow that the step uses.  A Python dictionary
    keeps its keys in the order of their insertion. *)
Record Flow (BmsType : Type) : Type := mkFlow {
  unique_id : option string;
  title_placeholders : option string;
  _discovered_device : option (DiscoveredDevice BmsType);
  _discovered_devices : list (string * DiscoveredDevice BmsType)
}.
Arguments mkFlow {BmsType} _ _ _ _.
Arguments unique_id {BmsType} _.
Arguments title_placeholders {BmsType} _.
Arguments _discovered_device {BmsType} _.
Arguments _discovered_devices {BmsType} _.

(** [ConfigFlow()] *)
Definition Flow_init {BmsType} : Flow BmsType :=
  {| unique_id := None; title_placeholders := None;
     _discovered_device := None; _discovered_devices := [] |}.

(** The results of a step that the code builds: [async_abort],
    [async_show_form] with the options of the selector in its schema
    (value and label) or the name in its description placeholders,
    [async_create_entry] with its title and the type stored in its
    data. *)
Inductive FlowResult : Type :=
  | AsyncAbort (reason : string)
  | AsyncShowForm (step_id : string)
      (data_schema : option (list (string * string)))
      (description_placeholders : option string)
  | AsyncCreateEntry (title : string) (type : string).

(** [d[k] = v] and [d[k]] on a dictionary. *)
Fixpoint item_set {V} (k : string) (v : V) (d : list (string * V))
  : list (string * V) :=
  match d with
  | [] => [(k, v)]
  | (k', v') :: d' =>
      if String.eqb k' k then (k, v) :: d' else (k', v') :: item_set k v d'
  end.

Fixpoint item_get {V} (k : string) (d : list (string * V)) : option V :=
  match d with
  | [] => None
  | (k', v') :: d' => if String.eqb k' k then Some v' else item_get k d'
  end.

(** [for x in l: body(x)] *)
Fixpoint for_in {S A} (l : list A) (body : A → M S unit) : M S unit :=
  match l with
  | [] => mret tt
  | x :: l' => body x;; for_in l' body
  end.

Section UserStep.

Variable BmsType : Type.
Variable BmsTypes : list BmsType.
Variable type_name : BmsType → string.
Variable globals : string → option BaseBMS.

(** The truth value of a member of the enumeration. *)
Variable type_truthy : BmsType → bool.

Variable CONF_ADDRESS : string.

(** [self._async_current_ids()] and
    [async_discovered_service_info(self.hass, False)] *)
Variable _async_current_ids : gset string.
Variable async_discovered_service_info : list BluetoothServiceInfoBleak.

(** [self._abort_if_unique_id_configured()], by the unique id of the
    flow. *)
Variable _abort_if_unique_id_configured : option string → res unit.

(** The body of the loop over the discovered devices. *)
Definition discover (discovery_info : BluetoothServiceInfoBleak)
  : M (Flow BmsType) unit :=
  let address := info_address discovery_info in
  devices ← gets _discovered_devices;
  if bool_decide (address ∈ _async_current_ids)
     || bool_decide (address ∈ devices.*1)
  then mret tt
  else
    match _device_supported BmsType BmsTypes type_name globals
            discovery_info with
    | Exc e => raise e
    | Val None => mret tt
    | Val (Some device_class) =>
        if negb (type_truthy device_class) then mret tt
        else
          modify (λ self,
            {| unique_id := unique_id self;
               title_placeholders := title_placeholders self;
               _discovered_device := _discovered_device self;
               _discovered_devices :=
                 item_set address
                   (mkDiscoveredDevice (info_name discovery_info)
                      discovery_info device_class)
                   (_discovered_devices self) |})
    end.

Definition async_step_user (user_input : option (gmap string string))
  : M (Flow BmsType) FlowResult :=
  match user_input with
  | Some user_input =>
      match user_input !! CONF_ADDRESS with
      | None => raise KeyError
      | Some address =>
          modify (λ self,
            {| unique_id := Some address;
               title_placeholders := title_placeholders self;
               _discovered_device := _discovered_device self;
               _discovered_devices := _discovered_devices self |});;
          uid ← gets unique_id;
          (λ self, (self, _abort_if_unique_id_configured uid));;
          devices ← gets _discovered_devices;
          match item_get address devices with
          | None => raise KeyError
          | Some device =>
              modify (λ self,
                {| unique_id := unique_id self;
                   title_placeholders := Some (dd_name device);
                   _discovered_device := Some device;
                   _discovered_devices := _discovered_devices self |});;
              mret (AsyncCreateEntry (dd_name device)
                      (type_name (dd_type device)))
          end
      end
  | None =>
      for_in async_discovered_service_info discover;;
      devices ← gets _discovered_devices;
      if bool_decide (devices = []) then mret (AsyncAbort "no_devices_found")
      else
        mret (AsyncShowForm "user"
                (Some (map (λ ad, (ad.1, dd_name ad.2)) devices)) None)
  end.

(** [self.async_set_unique_id(address)] with [raise_on_progress] left
    at its default: it can raise to abort the flow. *)
Variable async_set_unique_id : string → res unit.

(** [ConfigFlow.async_step_bluetooth_confirm]; [_set_confirm_only]
    only marks the flow for the user interface. *)
Definition async_step_bluetooth_confirm
    (user_input : option (gmap string string))
  : M (Flow BmsType) FlowResult :=
  device ← gets _discovered_device;
  match device with
  | None => raise AssertionError
  | Some device =>
      match user_input with
      | Some _ =>
          mret (AsyncCreateEntry (dd_name device)
                  (type_name (dd_type device)))
      | None =>
          mret (AsyncShowForm "bluetooth_confirm" None
                  (Some (dd_name device)))
      end
  end.

(** [ConfigFlow.async_step_bluetooth] *)
Definition async_step_bluetooth (discovery_info : BluetoothServiceInfoBleak)
  : M (Flow BmsType) FlowResult :=
  (λ self, (self, async_set_unique_id (info_address discovery_info)));;
  modify (λ self,
    {| unique_id := Some (info_address discovery_info);
       title_placeholders := title_placeholders self;
       _discovered_device := _discovered_device self;
       _discovered_devices := _discovered_devices self |});;
  uid ← gets unique_id;
  (λ self, (self, _abort_if_unique_id_configured uid));;
  match _device_supported BmsType BmsTypes type_name globals
          discovery_info with
  | Exc e => raise e
  | Val None => mret (AsyncAbort "not_supported")
  | Val (Some device_class) =>
      let device :=
        mkDiscoveredDevice (info_name discovery_info) discovery_info
          device_class in
      modify (λ self,
        {| unique_id := unique_id self;
           title_placeholders := Some (dd_name device);
           _discovered_device := Some device;
           _discovered_devices := _discovered_devices self |});;
      async_step_bluetooth_confirm None
  end.

End UserStep.

(** The devices known after the loop of the user step: the view of the
    loop as a fold. *)
Section Discovery.

Variable BmsType : Type.
Variable BmsTypes : list BmsType.
Variable type_name : BmsType → string.
Variable globals : string → option BaseBMS.
Variable type_truthy : BmsType → bool.
Variable _async_current_ids : gset string.

(** The type under which a device is offered, if it is. *)
Definition offered (discovery_info : BluetoothServiceInfoBleak)
  : option BmsType :=
  match _device_supported BmsType BmsTypes type_name globals
          discovery_info with
  | Val (Some t) => if type_truthy t then Some t else None
  | _ => None
  end.

Definition discovered_step (devices : list (string * DiscoveredDevice BmsType))
    (discovery_info : BluetoothServiceInfoBleak)
  : list (string * DiscoveredDevice BmsType) :=
  let address := info_address discovery_info in
  if bool_decide (address ∈ _async_current_ids)
     || bool_decide (address ∈ devices.*1)
  then devices
  else match offered discovery_info with
       | Some t =>
           devices ++ [(address,
                        mkDiscoveredDevice (info_name discovery_info)
                          discovery_info t)]
       | None => devices
       end.

Definition discovered (infos : list BluetoothServiceInfoBleak)
    (devices : list (string * DiscoveredDevice BmsType))
  : list (string * DiscoveredDevice BmsType) :=
  foldl discovered_step devices infos.

End Discovery.

(** ** More notions used in the properties *)

(** The readings that only the realtime frame carries, and those that
    only the capacity frame carries. *)
Definition realtime_part (s : SupervoltData) :=
  (cellV s, totalV s, chargingA s, dischargingA s, loadA s, tempC s,
   (workingState s, alarm s, balanceState s, dischargeNumber s,
    chargeNumber s, soc s)).

Definition capacity_part (s : SupervoltData) :=
  (remainingAh s, completeAh s, designedAh s).

(** The record after the notifications [ns] were handed to the handler,
    in order. *)
Definition handled (int16 : list byte → option Z) (ns : list notification)
    (s : SupervoltData) : SupervoltData :=
  foldl (λ s n, (parse int16 n.1 n.2 s).1) s ns.

(** What [async_update] ends with when its record is [s] after the
    [try] statement. *)
Definition poll_outcome (K : Consts)
    (calc_values : dict → list string → res dict) (now : float)
    (s : SupervoltData) : res dict :=
  match (getData K now s).2 with
  | Val (Some data) =>
      calc_values data [ATTR_POWER K; ATTR_BATTERY_CHARGING K;
                        ATTR_DELTA_VOLTAGE K]
  | Val None => Exc AssertionError
  | Exc e => Exc e
  end.

(** The instance refers to a record, and the lists of the record have
    their places. *)
Definition has_record (st : Self) : Prop :=
  ∃ r, heap st.2 !! supervoltData st.1 = Some r ∧ wf r.

(** Whether [ns] holds a notification: each one sets the event. *)
Definition arrived (ns : list notification) : bool :=
  bool_decide (ns ≠ []).

(** The instance and the world with the record of the instance set
    apart. *)
Definition at_record (b : BMS) (w : World) (r : SupervoltData) : Self :=
  (b, set_heap (<[supervoltData b:=r]> (heap w)) w).

(** The world with the replies left and the calls made set apart. *)
Definition world_at (w : World) (lk : list reply) (cs : list call) : World :=
  set_calls cs (set_link lk w).

(** ** More sample data *)

(** A frame from the address 1 with cells at 3.0 V, currents of 0.16 A
    and 0.32 A and 50 %, whose third cell is no hexadecimal text. *)
Definition frame_stops_at_cell : list byte :=
  realtime_frame "01"
    "0BB80BB8ZZZZ0BB80000000000000000000000000000" "0010" "0020" "32".

(** The record with the protection and temperature bits of the working
    state set. *)
Definition record_protected : SupervoltData :=
  set_workingState (Some 0x0124%Z) fresh_record.

(** A link that answers the eight awaits of a poll without a failure
    and hands over one frame during each of the two waits. *)
Definition sample_link_ok : list reply :=
  [mkReply [] None; mkReply [] None;
   mkReply [] None; mkReply [(frame_ok, float_of_Z 1000)] None;
   mkReply [] None; mkReply [(frame_capacity, float_of_Z 1001)] None;
   mkReply [] None; mkReply [] None].

(** A link on which the second await fails. *)
Definition sample_link_failing : list reply :=
  [mkReply [] None; mkReply [] (Some BleakError)].

(** The driver with its client connected. *)
Definition connected_driver : BMS :=
  set__client (Some (mkBleakClient true)) sample_driver.

(** Two discoveries of one device, then one of a device that no class
    claims. *)
Definition sample_info_again : BluetoothServiceInfoBleak :=
  {| info_name := "libatt-0001 (again)"; info_address := "AA:BB:CC:DD:EE:FF";
     service_uuids := []; connectable := true |}.

Definition sample_info_other : BluetoothServiceInfoBleak :=
  {| info_name := "Headphones"; info_address := "11:22:33:44:55:66";
     service_uuids := []; connectable := true |}.

Definition sample_infos : list BluetoothServiceInfoBleak :=
  [sample_info; sample_info_again; sample_info_other].

Definition sample_flow : Flow string :=
  {| unique_id := None; title_placeholders := None;
     _discovered_device := None;
     _discovered_devices :=
       [("AA:BB:CC:DD:EE:FF",
         mkDiscoveredDevice "libatt-0001" sample_info "SecondBMS")] |}.

Definition sample_user_input : gmap string string :=
  {["address" := "AA:BB:CC:DD:EE:FF"]}.

(** * Properties *)

(** ** Running monadic code on a known state *)

Lemma bind_assoc_run {S A B C} (m : M S A) (f : A → M S B) (g : B → M S C)
    (s : S) :
  ((m ≫= f) ≫= g) s = (m ≫= (λ x, f x ≫= g)) s.
Proof. unfold mbind, M_bind. destruct (m s) as [s' [a|e]]; reflexivity. Qed.

(** Evaluation that leaves float and integer arithmetic as written. *)
Ltac eval_code t :=
  eval lazy -[float_of_Z int_div_float too_big Z.sub PrimFloat.ltb
              PrimFloat.eqb PrimFloat.sub] in t.

(** One step of a program [m ≫= k] run on a state in normal form: a
    nested bind is reassociated, a test on a decoded field or on the
    clamp is split, anything else is evaluated. *)
Ltac mstep dec :=
  lazymatch goal with
  | |- @mbind _ _ _ _ ?k ?m ?s = ?R =>
      lazymatch m with
      | @mbind _ _ _ _ ?f ?m' => refine (eq_trans (bind_assoc_run m' f k s) _)
      | match ?x with _ => _ end =>
          lazymatch x with
          | dec _ _ => let x' := eval lazy in x in
                       change x with x'; destruct x'
          | too_big _ => destruct x eqn:?
          | _ => let x' := eval_code x in
                 change x with x'; cbv beta iota
          end
      | _ =>
          let r := eval_code (m s) in
          lazymatch r with
          | (?s', Val ?a) => change (k a s' = R); cbv beta
          | (?s', Exc ?e) => change ((s', Exc e) = R)
          end
      end
  | |- (_, _) = _ => fail
  | |- ?L = ?R => let r := eval_code L in change (r = R)
  end.

Ltac rewrite_clamps :=
  repeat match goal with
         | E : @eq bool (too_big _) _ |- _ => rewrite E; clear E
         end.

(** ** The decoder follows the layout *)

Lemma wf_lists s :
  wf s →
  ∃ c0 c1 c2 c3 c4 c5 c6 c7 c8 c9 c10 c11 c12 c13 c14 c15 t0 t1 t2 t3,
    cellV s = [c0; c1; c2; c3; c4; c5; c6; c7; c8; c9; c10; c11; c12; c13;
               c14; c15] ∧
    tempC s = [t0; t1; t2; t3].
Proof.
  intros [Hc Ht].
  destruct (cellV s)
    as [|c0 [|c1 [|c2 [|c3 [|c4 [|c5 [|c6 [|c7 [|c8 [|c9 [|c10 [|c11 [|c12
        [|c13 [|c14 [|c15 [|]]]]]]]]]]]]]]]]]; try discriminate Hc.
  destruct (tempC s) as [|t0 [|t1 [|t2 [|t3 [|]]]]]; try discriminate Ht.
  by repeat eexists.
Qed.

Section DecoderFacts.

Variable int16 : list byte → option Z.

(** The decoder as a function of the slice bounds alone. *)
Ltac abstract_decoder data dec :=
  set (dec := λ a b : nat, int16 (py_slice a b data));
  change (int_at int16 data) with
    (λ a b, match dec a b with
            | Some n => mret n
            | None => raise (S := SupervoltData) ValueError
            end);
  change (decode_fields int16 data) with
    (fix go (l : list region) : list (field * Z) :=
       match l with
       | [] => []
       | r :: l' => match dec r.2.1 r.2.2 with
                    | Some n => (r.1, n) :: go l'
                    | None => []
                    end
       end);
  clearbody dec; clear data.

Lemma parse_realtime_layout s data now :
  wf s → parse_realtime int16 data now s = realtime_decoded int16 data now s.
Proof.
  intros Hwf.
  destruct (wf_lists s Hwf)
    as (c0&c1&c2&c3&c4&c5&c6&c7&c8&c9&c10&c11&c12&c13&c14&c15&t0&t1&t2&t3
        &Hc&Ht).
  destruct s; simpl in Hc, Ht; subst. clear Hwf.
  unfold parse_realtime, realtime_decoded.
  abstract_decoder data dec.
  cbv [for_each range seq Nat.sub realtime_header realtime_cells
       realtime_tail app map fst snd Nat.add Nat.mul].
  repeat (mstep dec).
  all: lazy -[float_of_Z int_div_float too_big Z.sub].
  all: rewrite_clamps.
  all: reflexivity.
Qed.

Lemma parse_capacity_layout s data now :
  parse_capacity int16 data now s = capacity_decoded int16 data now s.
Proof.
  destruct s.
  unfold parse_capacity, capacity_decoded.
  abstract_decoder data dec.
  cbv [capacity_fields fst snd Nat.add].
  repeat (mstep dec).
  all: reflexivity.
Qed.

(** [parse] on a record with its two lists in shape. *)
Lemma parse_layout s data now :
  wf s →
  parse int16 data now s =
    if decide (length data = 128) then
      match realtime_decoded int16 data now s with
      | (s', Val _) => (s', Val Realtime)
      | (s', Exc e) => (s', Val (Failed e))
      end
    else if decide (length data = 30) then
      match capacity_decoded int16 data now s with
      | (s', Val _) => (s', Val Capacity)
      | (s', Exc e) => (s', Val (Failed e))
      end
    else if decide (data = []) then (s, Val NoData)
    else (s, Val (WrongLength (length data))).
Proof.
  intros Hwf. unfold parse, try_except.
  destruct data as [|b data].
  - reflexivity.
  - rewrite bool_decide_true by done.
    rewrite (decide_False (P := (b :: data = []))) by done.
    destruct (decide (length (b :: data) = 128)) as [H128|H128].
    + unfold mbind at 1, M_bind. rewrite parse_realtime_layout by done.
      by destruct (realtime_decoded _ _ _ _) as [s' [[]|e]].
    + destruct (decide (length (b :: data) = 30)) as [H30|H30].
      * unfold mbind at 1, M_bind. rewrite parse_capacity_layout.
        by destruct (capacity_decoded _ _ _ _) as [s' [[]|e]].
      * reflexivity.
Qed.

End DecoderFacts.

(** ** What a decoded field leaves in the record *)

(** The fields of both layouts. *)
Lemma realtime_fields_NoDup : NoDup realtime_fields.*1.
Proof. compute_done. Qed.

Lemma capacity_fields_NoDup : NoDup capacity_fields.*1.
Proof. compute_done. Qed.

Lemma known_field_index f :
  f ∈ (realtime_fields ++ capacity_fields).*1 →
  match f with
  | CellV i => i < 11
  | TempC i => i < 4
  | _ => True
  end.
Proof.
  intros Hin. destruct f; try exact I.
  all: cbv [realtime_fields capacity_fields realtime_header realtime_cells
            realtime_tail fmap list_fmap app map seq fst] in Hin.
  all: repeat (apply elem_of_cons in Hin as [Hin|Hin];
               [try discriminate Hin; inversion Hin; subst; lia|]).
  all: by apply elem_of_nil in Hin.
Qed.

Lemma apply_field_lengths f n s :
  length (cellV (apply_field f n s)) = length (cellV s) ∧
  length (tempC (apply_field f n s)) = length (tempC s).
Proof. destruct f; cbn; rewrite ?length_insert; done. Qed.

Lemma apply_field_wf f n s : wf s → wf (apply_field f n s).
Proof.
  unfold wf. destruct (apply_field_lengths f n s) as [-> ->]. done.
Qed.

Lemma apply_fields_cons f n l s :
  apply_fields ((f, n) :: l) s = apply_fields l (apply_field f n s).
Proof. reflexivity. Qed.

Lemma apply_fields_wf l s : wf s → wf (apply_fields l s).
Proof.
  revert s. induction l as [|[f n] l IH]; intros s Hwf; [done|].
  rewrite apply_fields_cons. apply IH, apply_field_wf, Hwf.
Qed.

Lemma read_apply_field_same f n s :
  wf s → f ∈ (realtime_fields ++ capacity_fields).*1 →
  read f (apply_field f n s) = Some (stored f n).
Proof.
  intros [Hc Ht] Hin. apply known_field_index in Hin.
  destruct f; try reflexivity; cbn.
  - rewrite list_lookup_insert_eq by lia. reflexivity.
  - rewrite list_lookup_insert_eq by lia. reflexivity.
Qed.

Lemma read_apply_field_other f g n s :
  f ≠ g → read g (apply_field f n s) = read g s.
Proof.
  intros Hne. destruct f, g; try reflexivity; try congruence; cbn.
  - rewrite list_lookup_insert_ne; [done|congruence].
  - rewrite list_lookup_insert_ne; [done|congruence].
Qed.

Lemma read_apply_fields_other l g s :
  g ∉ l.*1 → read g (apply_fields l s) = read g s.
Proof.
  revert s. induction l as [|[f n] l IH]; intros s Hnin; [done|].
  cbn in Hnin. apply not_elem_of_cons in Hnin as [Hne Hnin].
  rewrite apply_fields_cons, IH by done.
  by apply read_apply_field_other.
Qed.

(** A field that was applied holds its stored value, whatever was
    applied after it. *)
Lemma read_apply_fields l s j g n :
  wf s → NoDup l.*1 →
  (∀ f, f ∈ l.*1 → f ∈ (realtime_fields ++ capacity_fields).*1) →
  l !! j = Some (g, n) →
  read g (apply_fields l s) = Some (stored g n).
Proof.
  revert s j. induction l as [|[f m] l IH]; intros s j Hwf Hnd Hknown Hj;
    [done|].
  cbn in Hnd. apply NoDup_cons in Hnd as [Hnin Hnd].
  destruct j as [|j]; cbn in Hj.
  - injection Hj as -> ->.
    rewrite apply_fields_cons, read_apply_fields_other by done.
    apply read_apply_field_same; [done|]. apply Hknown. cbn. left.
  - rewrite apply_fields_cons. apply (IH _ j); try done.
    + by apply apply_field_wf.
    + intros f' Hf'. apply Hknown. cbn. by right.
Qed.

Lemma read_set_totalV g v s : read g (set_totalV v s) = read g s.
Proof. by destruct g. Qed.

Lemma read_set_lastUpdatetime g v s : read g (set_lastUpdatetime v s) = read g s.
Proof. by destruct g. Qed.

Lemma lastUpdatetime_apply_fields l s :
  lastUpdatetime (apply_fields l s) = lastUpdatetime s.
Proof.
  revert s. induction l as [|[f n] l IH]; intros s; [done|].
  rewrite apply_fields_cons, IH. by destruct f.
Qed.

Lemma loadA_apply_fields l s :
  DischargingA ∉ l.*1 → loadA (apply_fields l s) = loadA s.
Proof.
  revert s. induction l as [|[f n] l IH]; intros s Hnin; [done|].
  cbn in Hnin. apply not_elem_of_cons in Hnin as [Hne Hnin].
  rewrite apply_fields_cons, IH by done. by destruct f.
Qed.

Lemma totalV_apply_fields l s :
  (∀ i, CellV i ∉ l.*1) → totalV (apply_fields l s) = totalV s.
Proof.
  revert s. induction l as [|[f n] l IH]; intros s Hnin; [done|].
  rewrite apply_fields_cons, IH.
  - destruct f; try done. exfalso. apply (Hnin i). left.
  - intros i Hi. apply (Hnin i). by right.
Qed.

Section FrameFacts.

Variable int16 : list byte → option Z.

(** *** The decoded prefix *)

Lemma decode_fields_cons data r l :
  decode_fields int16 data (r :: l) =
    match decode_at int16 data r with
    | Some n => (r.1, n) :: decode_fields int16 data l
    | None => []
    end.
Proof. reflexivity. Qed.

Lemma decode_fields_length data l :
  length (decode_fields int16 data l) ≤ length l.
Proof.
  induction l as [|r l IH]; [done|]. rewrite decode_fields_cons.
  destruct (decode_at int16 data r); cbn; lia.
Qed.

(** The decoded fields are, in order, fields of the layout with the
    integers that their slices decode to. *)
Lemma decode_fields_lookup data l j g n :
  decode_fields int16 data l !! j = Some (g, n) →
  ∃ a b, l !! j = Some (g, (a, b)) ∧ int16 (py_slice a b data) = Some n.
Proof.
  revert j. induction l as [|[f [a b]] l IH]; intros j Hj; [done|].
  rewrite decode_fields_cons in Hj.
  destruct (decode_at int16 data (f, (a, b))) as [m|] eqn:E; [|done].
  destruct j as [|j]; cbn in Hj.
  - injection Hj as -> ->. by exists a, b.
  - by apply IH.
Qed.

Lemma decode_fields_fst data l :
  (decode_fields int16 data l).*1 `prefix_of` l.*1.
Proof.
  induction l as [|r l IH]; [done|]. rewrite decode_fields_cons.
  destruct (decode_at int16 data r); cbn.
  - by apply prefix_cons.
  - apply prefix_nil.
Qed.

(** Up to the first field that does not decode, every field is there. *)
Lemma decode_fields_first_failure data l k r :
  l !! k = Some r → decode_at int16 data r = None →
  (∀ j r', j < k → l !! j = Some r' → is_Some (decode_at int16 data r')) →
  length (decode_fields int16 data l) = k ∧
  ∀ j g a b n, j < k → l !! j = Some (g, (a, b)) →
    int16 (py_slice a b data) = Some n →
    decode_fields int16 data l !! j = Some (g, n).
Proof.
  revert k. induction l as [|r0 l IH]; intros k Hk Hfail Hbefore; [done|].
  rewrite decode_fields_cons.
  destruct k as [|k]; cbn in Hk.
  - injection Hk as ->. rewrite Hfail. split; [done|]. intros; lia.
  - destruct (Hbefore 0 r0) as [m Hm]; [lia|done|]. rewrite Hm.
    destruct (IH k) as [Hlen Hget]; [done|done| |].
    { intros j r' Hj Hr'. apply (Hbefore (S j)); [lia|done]. }
    split; [cbn; by rewrite Hlen|].
    intros [|j] g a b n Hj Hr Hn; cbn in *.
    + injection Hr as ->.
      change (int16 (py_slice a b data) = Some m) in Hm. cbn. congruence.
    + apply (Hget j g a b); [lia|done|done].
Qed.

Lemma decode_fields_all data l :
  length (decode_fields int16 data l) = length l →
  ∀ r, r ∈ l → is_Some (decode_at int16 data r).
Proof.
  induction l as [|r0 l IH]; intros Hlen r Hr; [by apply elem_of_nil in Hr|].
  rewrite decode_fields_cons in Hlen.
  destruct (decode_at int16 data r0) as [m|] eqn:E; [|done].
  cbn in Hlen. apply elem_of_cons in Hr as [->|Hr]; [by rewrite E|].
  apply IH; [lia|done].
Qed.

Lemma decode_fields_app data l1 l2 :
  decode_fields int16 data (l1 ++ l2) =
    if decide (length (decode_fields int16 data l1) = length l1)
    then decode_fields int16 data l1 ++ decode_fields int16 data l2
    else decode_fields int16 data l1.
Proof.
  induction l1 as [|r l1 IH]; [done|].
  rewrite <- app_comm_cons, !decode_fields_cons.
  destruct (decode_at int16 data r); [|done]. cbn. rewrite IH.
  destruct (decide (length _ = length l1)) as [H|H].
  - rewrite decide_True by (by rewrite H). done.
  - rewrite decide_False by lia. done.
Qed.

Lemma decode_fields_NoDup data l :
  NoDup l.*1 → NoDup (decode_fields int16 data l).*1.
Proof.
  intros Hnd. destruct (decode_fields_fst data l) as [l' Hl'].
  rewrite Hl' in Hnd. by apply NoDup_app in Hnd as [? _].
Qed.

Lemma decode_fields_known data l f :
  f ∈ (decode_fields int16 data l).*1 → f ∈ l.*1.
Proof.
  intros Hf. destruct (decode_fields_fst data l) as [l' ->].
  apply elem_of_app. by left.
Qed.

(** *** The record after a frame *)

(** Every field that a realtime frame yields is in the record afterwards
    with its stored value. *)
Lemma realtime_decoded_reads s data now j g n :
  wf s →
  decode_fields int16 data realtime_fields !! j = Some (g, n) →
  read g (realtime_decoded int16 data now s).1 = Some (stored g n).
Proof.
  intros Hwf Hj. unfold realtime_decoded.
  pose proof realtime_fields_NoDup as Hnd.
  unfold realtime_fields in Hj, Hnd. rewrite decode_fields_app in Hj.
  set (hd := decode_fields int16 data realtime_header) in *.
  set (rest := decode_fields int16 data (realtime_cells ++ realtime_tail)) in *.
  assert (Hhd : ∀ f, f ∈ hd.*1 →
                     f ∈ (realtime_fields ++ capacity_fields).*1).
  { intros f Hf. apply decode_fields_known in Hf.
    unfold realtime_fields. rewrite !fmap_app, !elem_of_app. auto. }
  assert (Hrest : ∀ f, f ∈ rest.*1 →
                       f ∈ (realtime_fields ++ capacity_fields).*1).
  { intros f Hf. apply decode_fields_known in Hf.
    unfold realtime_fields. rewrite !fmap_app, !elem_of_app in *. tauto. }
  rewrite fmap_app in Hnd. apply NoDup_app in Hnd as (Hnd1 & Hdisj & Hnd2).
  change (length realtime_header) with 4 in Hj.
  destruct (decide (length hd = 4)) as [H4|H4].
  - assert (Hgoal : read g (apply_fields rest (set_totalV (Some (float_of_Z 0))
                                               (apply_fields hd s)))
                    = Some (stored g n)).
    { destruct (decide (j < length hd)) as [Hlt|Hge].
      - rewrite lookup_app_l in Hj by done.
        rewrite read_apply_fields_other, read_set_totalV.
        + eapply read_apply_fields; eauto using decode_fields_NoDup.
        + intros Hin. apply decode_fields_known in Hin.
          apply (Hdisj g); [|done].
          apply decode_fields_known with (data := data).
          apply list_elem_of_fmap. exists (g, n). split; [done|].
          by eapply list_elem_of_lookup_2.
      - rewrite lookup_app_r in Hj by lia.
        eapply read_apply_fields; eauto using decode_fields_NoDup.
        by apply apply_fields_wf. }
    destruct (decide (length rest = 23)); cbn [fst];
      by rewrite ?read_set_lastUpdatetime.
  - cbn [fst]. eapply read_apply_fields; eauto using decode_fields_NoDup.

Qed.

Lemma capacity_decoded_reads s data now j g n :
  wf s →
  decode_fields int16 data capacity_fields !! j = Some (g, n) →
  read g (capacity_decoded int16 data now s).1 = Some (stored g n).
Proof.
  intros Hwf Hj. unfold capacity_decoded.
  assert (read g (apply_fields (decode_fields int16 data capacity_fields) s)
          = Some (stored g n)).
  { eapply read_apply_fields; eauto.
    - apply decode_fields_NoDup, capacity_fields_NoDup.
    - intros f Hf. apply decode_fields_known in Hf.
      rewrite fmap_app, elem_of_app. by right. }
  destruct (decide _); cbn; by rewrite ?read_set_lastUpdatetime.
Qed.

(** A frame with a field that does not decode is reported as failed and
    leaves the time stamp alone. *)
Lemma realtime_decoded_failed s data now :
  length (decode_fields int16 data realtime_fields) < 27 →
  ∃ s', realtime_decoded int16 data now s = (s', Exc ValueError) ∧
        lastUpdatetime s' = lastUpdatetime s.
Proof.
  unfold realtime_fields, realtime_decoded. rewrite decode_fields_app.
  change (length realtime_header) with 4.
  destruct (decide (length _ = 4)) as [H4|H4]; intros Hlen.
  - rewrite length_app, H4 in Hlen.
    rewrite decide_False by lia. eexists. split; [done|].
    rewrite lastUpdatetime_apply_fields.
    change (lastUpdatetime (set_totalV ?v ?x)) with (lastUpdatetime x).
    by rewrite lastUpdatetime_apply_fields.
  - eexists. split; [done|]. by rewrite lastUpdatetime_apply_fields.
Qed.

Lemma capacity_decoded_failed s data now :
  length (decode_fields int16 data capacity_fields) < 7 →
  ∃ s', capacity_decoded int16 data now s = (s', Exc ValueError) ∧
        lastUpdatetime s' = lastUpdatetime s.
Proof.
  unfold capacity_decoded. intros Hlen. rewrite decide_False by lia.
  eexists. split; [done|]. by rewrite lastUpdatetime_apply_fields.
Qed.

(** *** What a frame leaves alone *)

Lemma decode_fields_take data l :
  (decode_fields int16 data l).*1
  = take (length (decode_fields int16 data l)) l.*1.
Proof.
  destruct (decode_fields_fst data l) as [l' Hl'].
  rewrite Hl', <- (length_fmap fst (decode_fields int16 data l)).
  by rewrite take_app_length.
Qed.

(** A field whose text the decoder did not reach reads as before. *)
Lemma realtime_decoded_untouched s data now g :
  g ∉ (decode_fields int16 data realtime_fields).*1 →
  read g (realtime_decoded int16 data now s).1 = read g s.
Proof.
  unfold realtime_fields, realtime_decoded.
  rewrite (decode_fields_app data realtime_header).
  change (length realtime_header) with 4.
  destruct (decide (length _ = 4)) as [H4|H4]; intros Hg.
  - rewrite fmap_app in Hg. apply not_elem_of_app in Hg as [Hhd Hrest].
    destruct (decide (length _ = 23)); cbn [fst];
      rewrite ?read_set_lastUpdatetime, read_apply_fields_other,
        read_set_totalV, read_apply_fields_other by done; done.
  - cbn [fst]. by rewrite read_apply_fields_other.
Qed.

Lemma capacity_decoded_untouched s data now g :
  g ∉ (decode_fields int16 data capacity_fields).*1 →
  read g (capacity_decoded int16 data now s).1 = read g s.
Proof.
  unfold capacity_decoded. intros Hg.
  destruct (decide _); cbn [fst];
    rewrite ?read_set_lastUpdatetime, read_apply_fields_other by done; done.
Qed.

(** The pack current is left alone unless the discharging current was
    decoded. *)
Lemma realtime_decoded_loadA s data now :
  DischargingA ∉ (decode_fields int16 data realtime_fields).*1 →
  loadA (realtime_decoded int16 data now s).1 = loadA s.
Proof.
  unfold realtime_fields, realtime_decoded.
  rewrite (decode_fields_app data realtime_header).
  change (length realtime_header) with 4.
  destruct (decide (length _ = 4)) as [H4|H4]; intros Hg.
  - rewrite fmap_app in Hg. apply not_elem_of_app in Hg as [Hhd Hrest].
    destruct (decide (length _ = 23)); cbn [fst].
    + change (loadA (set_lastUpdatetime now ?x)) with (loadA x).
      rewrite loadA_apply_fields by done.
      change (loadA (set_totalV ?v ?x)) with (loadA x).
      by rewrite loadA_apply_fields.
    + rewrite loadA_apply_fields by done.
      change (loadA (set_totalV ?v ?x)) with (loadA x).
      by rewrite loadA_apply_fields.
  - cbn [fst]. by rewrite loadA_apply_fields.
Qed.

Lemma capacity_decoded_loadA_totalV s data now :
  loadA (capacity_decoded int16 data now s).1 = loadA s ∧
  totalV (capacity_decoded int16 data now s).1 = totalV s.
Proof.
  assert (Hn : ∀ f, f ∈ (decode_fields int16 data capacity_fields).*1 →
                    f ∈ capacity_fields.*1)
    by (intros f; apply decode_fields_known).
  assert (Hd : DischargingA ∉ (decode_fields int16 data capacity_fields).*1).
  { intros H%Hn. revert H. cbn. rewrite !elem_of_cons, elem_of_nil.
    intros H. repeat destruct H as [H|H]; done. }
  assert (Hc : ∀ i, CellV i ∉ (decode_fields int16 data capacity_fields).*1).
  { intros i H%Hn. revert H. cbn. rewrite !elem_of_cons, elem_of_nil.
    intros H. repeat destruct H as [H|H]; done. }
  unfold capacity_decoded. destruct (decide _); cbn [fst].
  - change (loadA (set_lastUpdatetime now ?x)) with (loadA x).
    change (totalV (set_lastUpdatetime now ?x)) with (totalV x).
    by rewrite loadA_apply_fields, totalV_apply_fields.
  - by rewrite loadA_apply_fields, totalV_apply_fields.
Qed.

(** The total is left alone by a frame whose header does not decode. *)
Lemma realtime_decoded_totalV s data now :
  length (decode_fields int16 data realtime_fields) < 4 →
  totalV (realtime_decoded int16 data now s).1 = totalV s.
Proof.
  unfold realtime_fields, realtime_decoded.
  rewrite (decode_fields_app data realtime_header).
  change (length realtime_header) with 4.
  destruct (decide (length _ = 4)) as [H4|H4]; intros Hlen.
  - rewrite length_app in Hlen. lia.
  - cbn [fst]. apply totalV_apply_fields.
    intros i H%decode_fields_known. revert H. cbn.
    rewrite !elem_of_cons, elem_of_nil.
    intros H. repeat destruct H as [H|H]; done.
Qed.

End FrameFacts.

Section DecoderClaims.

Variable int16 : list byte → option Z.

(** The layout view with the decoder as a function of the bounds. *)
Ltac abstract_view data dec :=
  set (dec := λ a b : nat, int16 (py_slice a b data));
  change (decode_fields int16 data) with
    (fix go (l : list region) : list (field * Z) :=
       match l with
       | [] => []
       | r :: l' => match dec r.2.1 r.2.2 with
                    | Some n => (r.1, n) :: go l'
                    | None => []
                    end
       end);
  repeat match goal with
         | |- context [int16 (py_slice ?a ?b data)] =>
             change (int16 (py_slice a b data)) with (dec a b)
         end;
  clearbody dec; clear data;
  cbv [realtime_fields realtime_header realtime_cells realtime_tail
       capacity_fields app map seq fst snd Nat.add Nat.mul].

(** Case analysis on the fields in the order of the layout; the goals
    left are those of the first field that does not decode, and the one
    where every field decodes. *)
Ltac split_regions dec l :=
  lazymatch l with
  | [] => idtac
  | (?a, ?b) :: ?l' => destruct (dec a b) eqn:?; [split_regions dec l'|]
  end.

Ltac split_realtime dec :=
  let l := eval lazy in (map snd realtime_fields) in split_regions dec l.

(** A realtime frame decoded to the end: the two currents. *)
Lemma realtime_decoded_currents s data now s' :
  realtime_decoded int16 data now s = (s', Val tt) →
  ∃ nc nd,
    int16 (py_slice 89 93 data) = Some nc ∧
    int16 (py_slice 93 97 data) = Some nd ∧
    let c := clamp (int_div_float nc (float_of_Z 100)) in
    let d := clamp (int_div_float nd (float_of_Z 100)) in
    chargingA s' = Some c ∧ dischargingA s' = Some d ∧
    loadA s' = Some (PrimFloat.add (PrimFloat.opp c) d).
Proof.
  unfold realtime_decoded. abstract_view data dec.
  split_realtime dec.
  all: lazy -[float_of_Z int_div_float too_big Z.sub].
  all: intros H; try discriminate H.
  injection H as <-. eexists _, _. repeat split.
Qed.

Lemma parse_realtime_inv s data now s' :
  wf s → length data = 128 →
  parse int16 data now s = (s', Val Realtime) →
  realtime_decoded int16 data now s = (s', Val tt).
Proof.
  intros Hwf Hlen. rewrite parse_layout, decide_True by done.
  destruct (realtime_decoded _ _ _ _) as [s1 [[]|e]]; intros [= <-]; done.
Qed.

(** ** C4 *)

(** C4.  A buffer whose length is neither 128 nor 30 changes nothing:
    every attribute of the record, the time stamp included, is as
    before, and [parse] only reports the buffer (as empty, or with its
    length at warning level). *)
Theorem parse_other_length_ignored (data : list byte) (now : float)
    (s : SupervoltData) :
  length data ≠ 128 → length data ≠ 30 →
  parse int16 data now s =
    (s, Val (if decide (data = []) then NoData
             else WrongLength (length data))).
Proof.
  intros H128 H30. unfold parse, try_except.
  destruct data as [|b data]; [reflexivity|].
  rewrite bool_decide_true by done.
  rewrite (decide_False (P := (length (b :: data) = 128))) by done.
  rewrite (decide_False (P := (length (b :: data) = 30))) by done.
  reflexivity.
Qed.

(** ** C5 *)

(** C5.  After a 128-byte frame decoded to the end, the charging and the
    discharging current are the decoded integers divided by [100.0],
    each replaced by [0.0] when it is above 500, and the pack current is
    minus the stored charging current plus the stored discharging
    current. *)
Theorem parse_realtime_currents (data : list byte) (now : float)
    (s s' : SupervoltData) :
  wf s → length data = 128 →
  parse int16 data now s = (s', Val Realtime) →
  ∃ nc nd,
    int16 (py_slice 89 93 data) = Some nc ∧
    int16 (py_slice 93 97 data) = Some nd ∧
    let c := clamp (int_div_float nc (float_of_Z 100)) in
    let d := clamp (int_div_float nd (float_of_Z 100)) in
    chargingA s' = Some c ∧ dischargingA s' = Some d ∧
    loadA s' = Some (PrimFloat.add (PrimFloat.opp c) d).
Proof.
  intros Hwf Hlen Hparse.
  by apply (realtime_decoded_currents s data now), parse_realtime_inv.
Qed.

(** ** C10 *)

(** C10.  The clamp compares strictly.  After a 128-byte frame decoded
    to the end, with [c] the decoded charging current (the integer
    divided by [100.0]): if [500 < c] then [0.0] is stored, and if not
    then [c] is stored as it is; in particular a current of exactly
    [500.0] is stored as it is.  The same holds of the discharging
    current. *)
Theorem clamp_is_strict (data : list byte) (now : float)
    (s s' : SupervoltData) (nc nd : Z) :
  wf s → length data = 128 →
  parse int16 data now s = (s', Val Realtime) →
  int16 (py_slice 89 93 data) = Some nc →
  int16 (py_slice 93 97 data) = Some nd →
  let c := int_div_float nc (float_of_Z 100) in
  let d := int_div_float nd (float_of_Z 100) in
  (c = float_of_Z 500 → chargingA s' = Some c) ∧
  (d = float_of_Z 500 → dischargingA s' = Some d) ∧
  (PrimFloat.ltb (float_of_Z 500) c = true →
     chargingA s' = Some (float_of_Z 0)) ∧
  (PrimFloat.ltb (float_of_Z 500) c = false → chargingA s' = Some c) ∧
  (PrimFloat.ltb (float_of_Z 500) d = true →
     dischargingA s' = Some (float_of_Z 0)) ∧
  (PrimFloat.ltb (float_of_Z 500) d = false → dischargingA s' = Some d).
Proof.
  intros Hwf Hlen Hparse Hc Hd c d.
  apply parse_realtime_inv, realtime_decoded_currents in Hparse
    as (nc' & nd' & Hc' & Hd' & HC & HD & _); [|done..].
  rewrite Hc in Hc'. rewrite Hd in Hd'.
  injection Hc' as <-. injection Hd' as <-.
  rewrite HC, HD. fold c d. unfold clamp, too_big.
  repeat split.
  - intros ->. reflexivity.
  - intros ->. reflexivity.
  - by intros ->.
  - by intros ->.
  - by intros ->.
  - by intros ->.
Qed.

(** ** C6 *)

(** C6, as the code has it.  A 128-byte frame whose four header fields
    decode leaves in [totalV] the sum, formed from [0] in the order of
    the slots, of the voltages of the cell slots before the first one
    that does not decode (all eleven if every one decodes), and each of
    these voltages in its slot of [cellV].  A frame with a header field
    that does not decode leaves [totalV] as it was. *)
Theorem totalV_sums_parsed_cells (data : list byte) (now : float)
    (s : SupervoltData) :
  wf s → length data = 128 →
  let s' := (parse int16 data now s).1 in
  (length (decode_fields int16 data realtime_header) = 4 →
     totalV s' = Some (fsum (cells_parsed int16 data)) ∧
     ∀ i v, cells_parsed int16 data !! i = Some v →
            cellV s' !! i = Some (Some v)) ∧
  (length (decode_fields int16 data realtime_header) ≠ 4 →
     totalV s' = totalV s).
Proof.
  intros Hwf Hlen s'. subst s'.
  rewrite parse_layout, decide_True by done.
  assert (Hfst : ∀ r : SupervoltData * res unit,
            (match r with
             | (s', Val _) => (s', Val Realtime)
             | (s', Exc e) => (s', Val (Failed e))
             end).1 = r.1) by (by intros [? [[]|?]]).
  rewrite Hfst. clear Hfst Hlen.
  destruct (wf_lists s Hwf)
    as (c0&c1&c2&c3&c4&c5&c6&c7&c8&c9&c10&c11&c12&c13&c14&c15&t0&t1&t2&t3
        &Hc&Ht).
  destruct s; simpl in Hc, Ht; subst. clear Hwf.
  unfold realtime_decoded, cells_parsed. abstract_view data dec.
  split_realtime dec.
  all: lazy -[float_of_Z int_div_float too_big Z.sub PrimFloat.add].
  all: (split; [|done]); intros Hhd; try discriminate Hhd.
  all: split; [reflexivity|].
  all: intros i v Hi.
  all: repeat (destruct i as [|i]; [by injection Hi as <-|]).
  all: done.
Qed.

(** ** C7 *)

(** C7.  In a buffer of 128 or 30 bytes, let the field number [k] of the
    layout be the first whose text does not decode.  Then [parse]
    returns (it reports the failure at error level and raises nothing)
    and the time stamp is as before.  Every field before [k] holds the
    value stored for what its text decodes to.  The decoding stops
    there: the failing field and every field after it in the layout
    read as they did before the frame, and so does every field that is
    no field of this frame; the pack current is as before unless the
    discharging current is among the fields before [k], and the total
    is as before in a 30-byte buffer and when [k] is in the header. *)
Theorem parse_failure_keeps_decoded_fields (data : list byte) (now : float)
    (s : SupervoltData) (k : nat) (f : field) (a b : nat) :
  wf s →
  frame_fields (length data) !! k = Some (f, (a, b)) →
  int16 (py_slice a b data) = None →
  (∀ j r, j < k → frame_fields (length data) !! j = Some r →
          is_Some (decode_at int16 data r)) →
  ∃ s', parse int16 data now s = (s', Val (Failed ValueError)) ∧
        lastUpdatetime s' = lastUpdatetime s ∧
        (∀ j g a' b' n, j < k →
           frame_fields (length data) !! j = Some (g, (a', b')) →
           int16 (py_slice a' b' data) = Some n →
           read g s' = Some (stored g n)) ∧
        (∀ j g a' b', k ≤ j →
           frame_fields (length data) !! j = Some (g, (a', b')) →
           read g s' = read g s) ∧
        (∀ g, g ∉ (frame_fields (length data)).*1 → read g s' = read g s) ∧
        (DischargingA ∉ (take k (frame_fields (length data))).*1 →
           loadA s' = loadA s) ∧
        (length data = 30 ∨ k < 4 → totalV s' = totalV s).
Proof.
  intros Hwf Hk Hfail Hbefore.
  destruct (decode_fields_first_failure int16 data _ k _ Hk Hfail Hbefore)
    as [Hlen Hget].
  pose proof (lookup_lt_Some _ _ _ Hk) as Hklt.
  pose proof (decode_fields_take int16 data (frame_fields (length data)))
    as Hnames.
  rewrite Hlen, <- fmap_take in Hnames.
  assert (Hnd : NoDup (frame_fields (length data)).*1).
  { unfold frame_fields. repeat case_decide;
      [apply realtime_fields_NoDup|apply capacity_fields_NoDup|
       apply NoDup_nil_2]. }
  assert (Hafter : ∀ j g a' b', k ≤ j →
            frame_fields (length data) !! j = Some (g, (a', b')) →
            g ∉ (take k (frame_fields (length data))).*1).
  { intros j g a' b' Hj Hg Hin. rewrite fmap_take in Hin.
    apply elem_of_take in Hin as (i & Hi & Hik).
    assert (Hgj : (frame_fields (length data)).*1 !! j = Some g).
    { rewrite list_lookup_fmap.
      transitivity (fst <$> Some (g, (a', b'))); [|done].
      f_equal. exact Hg. }
    pose proof (NoDup_lookup _ _ _ _ Hnd Hi Hgj). lia. }
  assert (Hother : ∀ g, g ∉ (frame_fields (length data)).*1 →
            g ∉ (take k (frame_fields (length data))).*1).
  { intros g Hg Hin. apply Hg. rewrite fmap_take in Hin.
    apply elem_of_take in Hin as (i & Hi & _).
    apply list_elem_of_lookup. by exists i. }
  rewrite parse_layout by done. unfold frame_fields in *.
  destruct (decide (length data = 128)) as [H128|H128].
  - change (length realtime_fields) with 27 in Hklt.
    destruct (realtime_decoded_failed int16 s data now) as (s' & Hs' & Ht);
      [lia|].
    exists s'. rewrite Hs'. split; [done|]. split; [done|].
    replace s' with (realtime_decoded int16 data now s).1 by (by rewrite Hs').
    split; [|split; [|split; [|split]]].
    + intros j g a' b' n Hj Hr Hn.
      eapply realtime_decoded_reads; [done|]. by eapply Hget.
    + intros j g a' b' Hj Hg. apply realtime_decoded_untouched.
      rewrite Hnames. by eapply Hafter.
    + intros g Hg. apply realtime_decoded_untouched.
      rewrite Hnames. by apply Hother.
    + intros Hd. apply realtime_decoded_loadA. by rewrite Hnames.
    + intros [?|Hk4]; [lia|]. apply realtime_decoded_totalV. lia.
  - destruct (decide (length data = 30)) as [H30|H30]; [|done].
    change (length capacity_fields) with 7 in Hklt.
    destruct (capacity_decoded_failed int16 s data now) as (s' & Hs' & Ht);
      [lia|].
    exists s'. rewrite Hs'. split; [done|]. split; [done|].
    replace s' with (capacity_decoded int16 data now s).1 by (by rewrite Hs').
    split; [|split; [|split; [|split]]].
    + intros j g a' b' n Hj Hr Hn.
      eapply capacity_decoded_reads; [done|]. by eapply Hget.
    + intros j g a' b' Hj Hg. apply capacity_decoded_untouched.
      rewrite Hnames. by eapply Hafter.
    + intros g Hg. apply capacity_decoded_untouched.
      rewrite Hnames. by apply Hother.
    + intros _. apply capacity_decoded_loadA_totalV.
    + intros _. apply capacity_decoded_loadA_totalV.
Qed.

End DecoderClaims.

(** ** The snapshot and the reset *)

Lemma dict_set_fresh k v (d : dict) :
  k ∉ d.*1 → dict_set k v d = d ++ [(k, v)].
Proof.
  induction d as [|[k' v'] d IH]; intros Hk; [done|].
  cbn in Hk. apply not_elem_of_cons in Hk as [Hne Hk]. cbn.
  destruct (String.eqb_spec k' k) as [->|_]; [done|]. by rewrite IH.
Qed.

(** Updating with keys that are new and differ from one another appends
    them in order. *)
Lemma dict_update_fresh (d e : dict) :
  NoDup (d ++ e).*1 → dict_update d e = d ++ e.
Proof.
  revert d. induction e as [|[k v] e IH]; intros d Hnd.
  - by rewrite app_nil_r.
  - unfold dict_update in *. cbn.
    replace (d ++ (k, v) :: e) with ((d ++ [(k, v)]) ++ e) in *
      by (by rewrite <- app_assoc).
    rewrite dict_set_fresh.
    + by apply IH.
    + rewrite !fmap_app in Hnd. apply NoDup_app in Hnd as [Hnd _].
      apply NoDup_app in Hnd as (_ & Hdisj & _).
      intros Hin. apply (Hdisj k Hin). cbn. left.
Qed.

Lemma NoDup_prefix_of {A} (l1 l2 : list A) :
  l1 `prefix_of` l2 → NoDup l2 → NoDup l1.
Proof. intros [k ->] Hnd. by apply NoDup_app in Hnd as [? _]. Qed.

Lemma prefix_append (s t : string) : String.prefix s (s +:+ t) = true.
Proof.
  induction s as [|a s IH]; [by destruct t|].
  change (match Ascii.ascii_dec a a with
          | left _ => String.prefix s (s +:+ t)
          | right _ => false
          end = true).
  destruct (Ascii.ascii_dec a a); [exact IH|congruence].
Qed.

Section SnapshotFacts.

Variable K : Consts.
Hypothesis HK : consts_distinct K.

Lemma cell_key_prefix i : String.prefix (KEY_CELL_VOLTAGE K) (cell_key K i) = true.
Proof. apply prefix_append. Qed.

Lemma cell_key_inj i j : cell_key K i = cell_key K j → i = j.
Proof.
  unfold cell_key. intros H%(inj (String.append _))%(inj pretty). lia.
Qed.

Lemma cell_key_not_scalar i k :
  k ∈ ATTR_CELL_VOLTAGES K :: scalar_keys K → cell_key K i ≠ k.
Proof.
  intros Hk <-. destruct HK as [_ Hpre].
  rewrite Forall_forall in Hpre. specialize (Hpre _ Hk).
  by rewrite cell_key_prefix in Hpre.
Qed.

(** The keys that [getData] writes, in the order it writes them. *)
Lemma getData_keys_NoDup :
  NoDup (scalar_keys K
         ++ [cell_key K 0; cell_key K 1; cell_key K 2; cell_key K 3]
         ++ [ATTR_CELL_VOLTAGES K]).
Proof.
  destruct HK as [Hnd _]. apply NoDup_cons in Hnd as [Hcv Hnd].
  apply NoDup_app. split; [done|]. split.
  - intros k Hk Hin. apply elem_of_app in Hin as [Hin|Hin].
    + apply list_elem_of_In in Hin. cbn in Hin.
      destruct Hin as [<-|[<-|[<-|[<-|[]]]]];
        by eapply cell_key_not_scalar; [right|].
    + apply list_elem_of_singleton in Hin as ->. done.
  - apply NoDup_app. split; [|split].
    + repeat (apply NoDup_cons; split;
              [rewrite ?elem_of_cons, elem_of_nil;
               intros H; repeat destruct H as [H|H]; try done;
               apply cell_key_inj in H; discriminate H|]).
      apply NoDup_nil_2.
    + intros k Hk ->%list_elem_of_singleton.
      apply list_elem_of_In in Hk. cbn in Hk.
      destruct Hk as [Hk|[Hk|[Hk|[Hk|[]]]]];
        by eapply cell_key_not_scalar; [left|].
    + apply NoDup_singleton.
Qed.

Lemma getData_layout now s :
  wf s →
  getData K now s =
    (s, Val (if PrimFloat.ltb (float_of_Z MAX_TIME_S)
                              (PrimFloat.sub now (lastUpdatetime s))
                || negb (truthy (totalV s))
             then None else Some (snapshot_of K s))).
Proof.
  intros Hwf.
  destruct (wf_lists s Hwf)
    as (c0&c1&c2&c3&c4&c5&c6&c7&c8&c9&c10&c11&c12&c13&c14&c15&t0&t1&t2&t3
        &Hc&Ht).
  destruct s as [cv tv so ws al ca da la tc co re de lu ad cm ve le ba dn cn].
  simpl in Hc, Ht; subst. clear Hwf.
  cbv [getData snapshot_of mbind M_bind gets mret M_ret cellV tempC totalV
       loadA soc remainingAh lastUpdatetime].
  destruct (_ || _); [done|].
  rewrite bool_decide_true by done.
  cbv [py_getitem for_each range seq Nat.sub mbind M_bind mret M_ret
       lookup list_lookup mjoin option_join].
  pose proof getData_keys_NoDup as Hnd. unfold scalar_keys in Hnd.
  cbn [app] in Hnd. unfold dict_of.
  rewrite (dict_update_fresh []);
    [|cbn; eapply NoDup_prefix_of; [|exact Hnd];
      repeat apply prefix_cons; apply prefix_nil].
  cbn [app].
  repeat (rewrite (dict_update_fresh (_ :: _));
          [|cbn; eapply NoDup_prefix_of; [|exact Hnd];
            repeat apply prefix_cons; apply prefix_nil];
          cbn [app]).
  cbn [app].
  destruct HK as [_ Hpre]. unfold scalar_keys in Hpre.
  repeat (apply Forall_cons in Hpre as [? Hpre]).
  cbv [filter list_filter fst].
  repeat match goal with
         | H : String.prefix _ _ = false |- _ => rewrite H; clear H
         end.
  rewrite !cell_key_prefix. reflexivity.
Qed.

End SnapshotFacts.

(** ** C3 *)

(** C3, as the code has it.  On a record with its lists in shape,
    [getData] changes nothing and raises nothing.  It returns [None]
    exactly when the reading is older than 120 (now − lastUpdatetime >
    120) or [totalV] is unset or zero; otherwise it returns the
    dictionary [snapshot_of]: total voltage, the same value again as
    delta voltage, pack current, state of charge, remaining capacity,
    cell count 4, the first temperature, the first four cell slots, and
    the list of these four. *)
Theorem getData_snapshot (K : Consts) (now : float) (s : SupervoltData) :
  wf s → consts_distinct K →
  ∃ r, getData K now s = (s, Val r) ∧
    (r = None ↔
       PrimFloat.ltb (float_of_Z MAX_TIME_S)
                     (PrimFloat.sub now (lastUpdatetime s)) = true ∨
       totalV s = None ∨
       ∃ v, totalV s = Some v ∧ PrimFloat.eqb v PrimFloat.zero = true) ∧
    (∀ d, r = Some d → d = snapshot_of K s).
Proof.
  intros Hwf HK. rewrite getData_layout by done.
  eexists. split; [reflexivity|].
  destruct (PrimFloat.ltb _ _); cbn.
  - split; [|congruence]. split; auto.
  - destruct (totalV s) as [v|]; cbn.
    + destruct (PrimFloat.eqb v PrimFloat.zero) eqn:E; cbn.
      * split; [|congruence]. split; eauto.
      * split; [|congruence].
        split; [done|]. intros [?|[?|(v' & [= <-] & ?)]]; congruence.
    + split; [|congruence]. split; auto.
Qed.

(** ** C8 *)

Lemma getData_unset_totalV (K : Consts) (now : float) (s : SupervoltData) :
  totalV s = None → getData K now s = (s, Val None).
Proof.
  intros H. unfold getData. cbv [mbind M_bind gets]. rewrite H. cbn.
  by rewrite orb_true_r.
Qed.

Lemma resetValues_layout s :
  wf s →
  resetValues s =
    ({| cellV := replicate 11 None ++ drop 11 (cellV s); totalV := None;
        soc := None; workingState := None; alarm := None;
        chargingA := None; dischargingA := None; loadA := None;
        tempC := replicate 4 None; completeAh := None;
        remainingAh := None; designedAh := None;
        lastUpdatetime := lastUpdatetime s; address := address s;
        command := command s; version := None; length_ := length_ s;
        balanceState := None; dischargeNumber := None;
        chargeNumber := None |}, Val tt).
Proof.
  intros Hwf.
  destruct (wf_lists s Hwf)
    as (c0&c1&c2&c3&c4&c5&c6&c7&c8&c9&c10&c11&c12&c13&c14&c15&t0&t1&t2&t3
        &Hc&Ht).
  destruct s as [cv tv so ws al ca da la tc co re de lu ad cm ve le ba dn cn].
  simpl in Hc, Ht; subst. reflexivity.
Qed.

(** C8, as the code has it.  On a record with its lists in shape,
    [resetValues] unsets every measurement ([alarm], [balanceState],
    the cell slots 0 to 10, [chargeNumber], [chargingA], [completeAh],
    [designedAh], [dischargeNumber], [dischargingA], [loadA],
    [remainingAh], [soc], the four temperatures, [totalV], [version],
    [workingState]); it leaves [address], [command], [length], the time
    stamp and the cell slots from 11 on as they were; and [getData]
    right after it returns [None], whatever the time. *)
Theorem resetValues_unsets_measurements (s : SupervoltData) :
  wf s →
  ∃ s', resetValues s = (s', Val tt) ∧
    (alarm s' = None ∧ balanceState s' = None ∧ chargeNumber s' = None ∧
     chargingA s' = None ∧ completeAh s' = None ∧ designedAh s' = None ∧
     dischargeNumber s' = None ∧ dischargingA s' = None ∧ loadA s' = None ∧
     remainingAh s' = None ∧ soc s' = None ∧ totalV s' = None ∧
     version s' = None ∧ workingState s' = None) ∧
    cellV s' = replicate 11 None ++ drop 11 (cellV s) ∧
    tempC s' = replicate 4 None ∧
    (address s' = address s ∧ command s' = command s ∧
     length_ s' = length_ s ∧ lastUpdatetime s' = lastUpdatetime s) ∧
    ∀ K now, getData K now s' = (s', Val None).
Proof.
  intros Hwf. rewrite resetValues_layout by done.
  eexists. split; [reflexivity|]. cbn. repeat split.
  intros K now. by apply getData_unset_totalV.
Qed.

(** ** The shape of the lists is kept *)

Lemma parse_wf int16 data now s : wf s → wf (parse int16 data now s).1.
Proof.
  intros Hwf. rewrite parse_layout by done.
  unfold realtime_decoded, capacity_decoded.
  repeat case_decide; cbn; try done.
  all: repeat first [apply apply_fields_wf | done].
Qed.

Lemma resetValues_wf s : wf s → wf (resetValues s).1.
Proof.
  intros Hwf. rewrite resetValues_layout by done.
  destruct (wf_lists s Hwf)
    as (c0&c1&c2&c3&c4&c5&c6&c7&c8&c9&c10&c11&c12&c13&c14&c15&t0&t1&t2&t3
        &Hc&Ht).
  unfold wf. cbn. by rewrite Hc.
Qed.

(** ** The driver *)

Lemma bind_val {S A B} (m : M S A) (k : A → M S B) s s' a :
  m s = (s', Val a) → (m ≫= k) s = k a s'.
Proof. intros H. unfold mbind, M_bind. by rewrite H. Qed.

Lemma bind_exc {S A B} (m : M S A) (k : A → M S B) s s' e :
  m s = (s', Exc e) → (m ≫= k) s = (s', Exc e).
Proof. intros H. unfold mbind, M_bind. by rewrite H. Qed.

Lemma preserves_ret {A} I (a : A) : preserves I (mret a).
Proof. by intros st. Qed.

Lemma preserves_raise {A} I e : preserves I (raise (A := A) e).
Proof. by intros st. Qed.

Lemma preserves_gets {A} I (f : Self → A) : preserves I (gets f).
Proof. by intros st. Qed.

Lemma preserves_bind {A B} I (m : M Self A) (k : A → M Self B) :
  preserves I m → (∀ a, preserves I (k a)) → preserves I (m ≫= k).
Proof.
  intros Hm Hk st Hst. specialize (Hm st Hst).
  unfold mbind, M_bind. destruct (m st) as [st' [a|e]]; [|done].
  by apply Hk.
Qed.

Lemma preserves_try_except {A} I (b : M Self A) (h : exn → M Self A) :
  preserves I b → (∀ e, preserves I (h e)) → preserves I (try_except b h).
Proof.
  intros Hb Hh st Hst. specialize (Hb st Hst).
  unfold try_except. destruct (b st) as [st' [a|e]]; [done|].
  by apply Hh.
Qed.

Lemma preserves_for_each {B} I (l : list nat) (acc : B)
    (body : nat → B → M Self B) :
  (∀ i a, preserves I (body i a)) → preserves I (for_each l acc body).
Proof.
  intros Hb. revert acc. induction l as [|i l IH]; intros acc.
  - apply preserves_ret.
  - cbn. apply preserves_bind; [apply Hb|]. intros a. apply IH.
Qed.

Lemma preserves_on_record {A} I (m : M SupervoltData A) :
  (∀ st h, I st → I (st.1, set_heap h st.2)) → preserves I (on_record m).
Proof.
  intros H st Hst. unfold on_record.
  destruct (heap st.2 !! supervoltData st.1) as [r|]; [|done].
  destruct (m r) as [r' a]. by apply H.
Qed.

Lemma on_record_run {A} (m : M SupervoltData A) st r r' a :
  heap st.2 !! supervoltData st.1 = Some r → m r = (r', a) →
  on_record m st =
    ((st.1, set_heap (<[supervoltData st.1:=r']> (heap st.2)) st.2), a).
Proof. intros Hr Hm. unfold on_record. by rewrite Hr, Hm. Qed.

Lemma try_except_unit {S} (b : M S unit) s :
  try_except b (λ _, mret tt) s = ((b s).1, Val tt).
Proof. unfold try_except. by destruct (b s) as [s' [[]|e]]. Qed.

Lemma preserves_on_self I (f : BMS → BMS) :
  (∀ st, I st → I (f st.1, st.2)) → preserves I (on_self f).
Proof. intros H st Hst. by apply H. Qed.

Lemma preserves_on_world I (f : World → World) :
  (∀ st, I st → I (st.1, f st.2)) → preserves I (on_world f).
Proof. intros H st Hst. by apply H. Qed.

Section DriverFacts.

Variable int16 : list byte → option Z.
Variable K : Consts.
Variable calc_values : dict → list string → res dict.

Lemma suspend_silent st :
  silent (link st.2) →
  ∃ f, suspend int16 st = ((st.1, set_link (tail (link st.2)) st.2), Val f).
Proof.
  intros Hs. destruct st as [b w]. unfold suspend, silent in *.
  cbv [mbind M_bind gets on_world modify mret M_ret]. cbn [fst snd] in *.
  assert (Hn : notified (default (mkReply [] None) (head (link w))) = []).
  { destruct (link w) as [|r l]; [done|]. by apply Forall_cons in Hs as [? _]. }
  rewrite Hn. cbn. by eexists.
Qed.

Lemma suspend_quiet l r : preserves (quiet l r) (suspend int16).
Proof.
  intros st (Hl & Hr & Hs). destruct (suspend_silent st Hs) as [f ->].
  repeat split; try done. cbn. unfold silent in *.
  destruct (link st.2) as [|? ?]; [done|]. by apply Forall_cons in Hs as [_ ?].
Qed.

Lemma notification_handler_has_client n :
  preserves has_client (_notification_handler int16 n).
Proof.
  unfold _notification_handler. apply preserves_bind.
  - by apply preserves_on_record.
  - intros _. by apply preserves_on_self.
Qed.

Lemma suspend_has_client : preserves has_client (suspend int16).
Proof.
  unfold suspend. apply preserves_bind; [apply preserves_gets|].
  intros l. apply preserves_bind; [by apply preserves_on_world|].
  intros _. apply preserves_bind; [|intros; apply preserves_ret].
  apply preserves_for_each. intros i _.
  destruct (_ !! i); [apply notification_handler_has_client|].
  apply preserves_ret.
Qed.

Section Awaits.

(** A property kept by a suspension, by a call being recorded and by
    the client being marked connected. *)
Variable I : Self → Prop.
Hypothesis I_suspend : preserves I (suspend int16).
Hypothesis I_calls : ∀ st c, I st → I (st.1, set_calls c st.2).
Hypothesis I_client :
  ∀ st b, I st → I (set__client (Some (mkBleakClient b)) st.1, st.2).
Hypothesis I_event : ∀ st e, I st → I (set__data_event e st.1, st.2).

Lemma await_call_keeps c : preserves I (await_call int16 c).
Proof.
  unfold await_call. apply preserves_bind.
  { apply preserves_on_world. intros st Hst. by apply I_calls. }
  intros _. apply preserves_bind; [apply I_suspend|].
  intros [e|]; [apply preserves_raise|apply preserves_ret].
Qed.

Lemma connect_keeps : preserves I (_connect int16).
Proof.
  unfold _connect. apply preserves_bind; [apply preserves_gets|].
  intros c. apply preserves_bind.
  { destruct c; [apply preserves_ret|].
    apply preserves_on_self. intros st Hst. by apply I_client. }
  intros _. apply preserves_bind; [apply preserves_gets|].
  intros [cl|]; [|apply preserves_raise].
  destruct (negb _); [|apply preserves_ret].
  apply preserves_bind; [apply await_call_keeps|]. intros _.
  apply preserves_bind.
  { apply preserves_on_self. intros st Hst. by apply I_client. }
  intros _. apply await_call_keeps.
Qed.

Lemma wait_event_keeps : preserves I (wait_event int16).
Proof.
  unfold wait_event. apply preserves_bind; [apply I_suspend|].
  intros _. apply preserves_bind; [apply preserves_gets|].
  intros [|]; [|apply preserves_raise].
  apply preserves_on_self. intros st Hst. by apply I_event.
Qed.

Lemma disconnect_keeps : preserves I (disconnect int16).
Proof.
  unfold disconnect. apply preserves_bind; [apply preserves_gets|].
  intros [cl|]; [|apply preserves_ret].
  destruct (is_connected cl); [|apply preserves_ret].
  apply preserves_try_except.
  - apply preserves_bind.
    { apply preserves_on_self. intros st Hst. by apply I_event. }
    intros _.
    apply preserves_bind; [apply await_call_keeps|]. intros _.
    apply preserves_bind; [apply await_call_keeps|]. intros _.
    apply preserves_on_self. intros st Hst. by apply I_client.
  - intros e. destruct (decide _); [apply preserves_ret|apply preserves_raise].
Qed.

End Awaits.

Lemma quiet_stable l r :
  (∀ st c, quiet l r st → quiet l r (st.1, set_calls c st.2)) ∧
  (∀ st b, quiet l r st →
     quiet l r (set__client (Some (mkBleakClient b)) st.1, st.2)) ∧
  (∀ st e, quiet l r st → quiet l r (set__data_event e st.1, st.2)).
Proof. split; [|split]; intros st x (Hl & Hr & Hs); done. Qed.

(** Whatever [_connect] does, there is a client afterwards. *)
Lemma connect_has_client st : has_client (_connect int16 st).1.
Proof.
  unfold _connect.
  rewrite (bind_val _ _ st st (_client st.1)) by reflexivity.
  set (st0 := match _client st.1 with
              | None => (set__client (Some (mkBleakClient false)) st.1, st.2)
              | Some _ => st
              end).
  rewrite (bind_val _ _ st st0 tt) by (subst st0; by destruct (_client st.1)).
  assert (H0 : has_client st0).
  { subst st0. unfold has_client. destruct (_client st.1) eqn:E; [|by eexists].
    by rewrite E. }
  revert H0. generalize st0. clear st st0.
  apply preserves_bind; [apply preserves_gets|].
  intros [cl|]; [|apply preserves_raise].
  destruct (negb _); [|apply preserves_ret].
  apply preserves_bind.
  { apply await_call_keeps; [apply suspend_has_client|intros st c H; exact H]. }
  intros _. apply preserves_bind.
  { apply preserves_on_self. intros st H. by eexists. }
  intros _. apply await_call_keeps; [apply suspend_has_client|].
  intros st c H; exact H.
Qed.

(** ** C1 *)

(** C1, as the code has it.  In a poll during which the link hands over
    no notification and [_connect] returns, the time-out of the wait (or
    whatever else fails in the exchange) is caught inside the poll; the
    record was reset at the start of the exchange, so [getData] has
    nothing to return, and the poll then fails on its assertion: it
    raises [AssertionError] and returns no sample. *)
Theorem poll_without_notification_fails (now : float) (self : BMS)
    (w : World) (r : SupervoltData) :
  heap w !! supervoltData self = Some r → wf r →
  silent (link w) →
  (_connect int16 (self, w)).2 = Val tt →
  ∃ st',
    async_update int16 K calc_values now (self, w) =
      (st', Exc AssertionError) ∧
    ∃ r', heap st'.2 !! supervoltData st'.1 = Some r' ∧ totalV r' = None.
Proof.
  intros Hr Hwf Hs Hconn.
  set (l := supervoltData self).
  assert (Q0 : quiet l r (self, w)) by done.
  destruct (quiet_stable l r) as (Qc & Qk & Qe).
  pose proof (connect_keeps _ (suspend_quiet l r) Qc Qk _ Q0) as Q1.
  pose proof (connect_has_client (self, w)) as [cl C1].
  destruct (_connect int16 (self, w)) as [st1 r1] eqn:E1.
  cbn [fst snd] in Hconn, Q1, C1. subst r1.
  destruct Q1 as (Hl1 & Hr1 & Hs1).
  pose proof (resetValues_layout r Hwf) as Hreset.
  set (r' := (resetValues r).1).
  assert (Htv : totalV r' = None) by (subst r'; by rewrite Hreset).
  set (st2 := (st1.1, set_heap (<[l:=r']> (heap st1.2)) st1.2)).
  assert (Q2 : quiet l r' st2).
  { subst st2. repeat split; try done. cbn.
    apply list_lookup_insert_eq. by eapply lookup_lt_Some. }
  destruct (quiet_stable l r') as (Qc' & Qk' & Qe').
  unfold async_update.
  match goal with
  | |- context [try_except ?b _] => set (body := b)
  end.
  assert (Q3 : quiet l r' (body (self, w)).1).
  { subst body. rewrite (bind_val _ _ _ _ _ E1).
    rewrite (bind_val _ _ st1 st1 (Some cl)) by (unfold gets; by rewrite C1).
    rewrite (bind_val _ _ st1 st2 tt).
    2:{ rewrite (on_record_run _ st1 r r' (Val tt)); rewrite ?Hl1; try done.
        subst r'. by rewrite Hreset. }
    revert Q2. generalize st2.
    apply preserves_bind;
      [by apply await_call_keeps; [apply suspend_quiet|]|]. intros _.
    apply preserves_bind;
      [by apply wait_event_keeps; [apply suspend_quiet|]|]. intros _.
    apply preserves_bind;
      [by apply await_call_keeps; [apply suspend_quiet|]|]. intros _.
    apply preserves_bind;
      [by apply wait_event_keeps; [apply suspend_quiet|]|]. intros _.
    by apply disconnect_keeps; [apply suspend_quiet|..]. }
  rewrite (bind_val _ _ _ (body (self, w)).1 tt) by apply try_except_unit.
  destruct Q3 as (Hl3 & Hr3 & Hs3).
  set (st3 := (body (self, w)).1) in *.
  rewrite (bind_val _ _ st3
             (st3.1, set_heap (<[supervoltData st3.1:=r']> (heap st3.2))
                              st3.2) None).
  2:{ apply on_record_run with (r := r'); rewrite ?Hl3; [done|].
      by apply getData_unset_totalV. }
  eexists. split; [reflexivity|]. exists r'. split; [|done].
  cbn. rewrite Hl3. apply list_lookup_insert_eq. by eapply lookup_lt_Some.
Qed.

End DriverFacts.

(** ** The capability matcher *)

Section MatcherFacts.

Variable BmsType : Type.
Variable BmsTypes : list BmsType.
Variable type_name : BmsType → string.
Variable globals : string → option BaseBMS.

Lemma device_supported_from_spec types info :
  (∀ t, t ∈ types → is_Some (globals (type_name t))) →
  (∀ t, device_supported_from BmsType type_name globals types info
          = Val (Some t) ↔
        ∃ k, types !! k = Some t ∧
             claims BmsType type_name globals t info = true ∧
             ∀ j u, j < k → types !! j = Some u →
                    claims BmsType type_name globals u info = false) ∧
  (device_supported_from BmsType type_name globals types info = Val None ↔
   ∀ u, u ∈ types → claims BmsType type_name globals u info = false) ∧
  (∃ r, device_supported_from BmsType type_name globals types info = Val r).
Proof.
  induction types as [|t0 types IH]; intros Hall.
  - cbn. split; [|split].
    + intros t. split; [done|]. by intros (k & Hk & _).
    + split; [|done]. intros _ u Hu. by apply elem_of_nil in Hu.
    + by eexists.
  - destruct IH as (IHsome & IHnone & IHval).
    { intros t Ht. apply Hall. by right. }
    destruct (Hall t0) as [bms Hbms]; [left|].
    cbn. unfold claims in *. rewrite Hbms.
    destruct (supported bms info) eqn:Hsup.
    + split; [|split].
      * intros t. split.
        -- intros [= <-]. exists 0. cbn. rewrite Hbms.
           split; [done|]. split; [done|]. intros; lia.
        -- intros ([|k] & Hk & Hc & Hfirst); cbn in Hk; [congruence|].
           specialize (Hfirst 0 t0). cbn in Hfirst.
           rewrite Hbms, Hsup in Hfirst. discriminate Hfirst; [lia|done].
      * split; [done|]. intros H. specialize (H t0). rewrite Hbms, Hsup in H.
        discriminate H. left.
      * by eexists.
    + split; [|split].
      * intros t. rewrite IHsome. split.
        -- intros (k & Hk & Hc & Hfirst). exists (S k).
           split; [done|]. split; [done|].
           intros [|j] u Hj Hu; cbn in Hu.
           ++ injection Hu as <-. by rewrite Hbms.
           ++ apply (Hfirst j); [lia|done].
        -- intros ([|k] & Hk & Hc & Hfirst); cbn in Hk.
           ++ injection Hk as <-. rewrite Hbms in Hc. congruence.
           ++ exists k. split; [done|]. split; [done|].
              intros j u Hj Hu. apply (Hfirst (S j)); [lia|done].
      * rewrite IHnone. split.
        -- intros H u [->|Hu]%elem_of_cons; [by rewrite Hbms|by apply H].
        -- intros H u Hu. apply H. by right.
      * done.
Qed.

(** C9.  When every member of [BmsTypes] has its class in the name
    space, [_device_supported] raises nothing; it returns a type exactly
    when that type is the first member, in the order of the enumeration,
    whose class claims the device (so of two types that claim it, the
    one defined later is never returned before the earlier one), and it
    returns [None] exactly when no class claims the device. *)
Theorem device_supported_first_match
    (discovery_info : BluetoothServiceInfoBleak) :
  (∀ t, t ∈ BmsTypes → is_Some (globals (type_name t))) →
  (∀ t, _device_supported BmsType BmsTypes type_name globals discovery_info
          = Val (Some t) ↔
        ∃ k, BmsTypes !! k = Some t ∧
             claims BmsType type_name globals t discovery_info = true ∧
             ∀ j u, j < k → BmsTypes !! j = Some u →
                    claims BmsType type_name globals u discovery_info
                      = false) ∧
  (_device_supported BmsType BmsTypes type_name globals discovery_info
     = Val None ↔
   ∀ u, u ∈ BmsTypes →
        claims BmsType type_name globals u discovery_info = false) ∧
  (∃ r, _device_supported BmsType BmsTypes type_name globals discovery_info
          = Val r).
Proof. apply device_supported_from_spec. Qed.

End MatcherFacts.

(** ** The properties at sample inputs *)

Lemma fresh_record_wf : wf fresh_record.
Proof. split; reflexivity. Qed.

Lemma record_ok_wf : wf record_ok.
Proof. split; reflexivity. Qed.

Lemma sample_consts_distinct : consts_distinct sample_consts.
Proof. refine (bool_decide_unpack _ _). vm_compute. exact I. Qed.

Lemma parse_other_length_ignored_witness :
  parse py_int16 (bytes_of "abc") (float_of_Z 1000) record_ok =
    (record_ok, Val (WrongLength 3)).
Proof.
  apply (parse_other_length_ignored py_int16 (bytes_of "abc")).
  - vm_compute. lia.
  - vm_compute. lia.
Defined.

Lemma parse_realtime_currents_witness :
  ∃ nc nd,
    py_int16 (py_slice 89 93 frame_ok) = Some nc ∧
    py_int16 (py_slice 93 97 frame_ok) = Some nd ∧
    let c := clamp (int_div_float nc (float_of_Z 100)) in
    let d := clamp (int_div_float nd (float_of_Z 100)) in
    chargingA record_ok = Some c ∧ dischargingA record_ok = Some d ∧
    loadA record_ok = Some (PrimFloat.add (PrimFloat.opp c) d).
Proof.
  apply (parse_realtime_currents py_int16 frame_ok (float_of_Z 1000)
           fresh_record record_ok).
  - exact fresh_record_wf.
  - reflexivity.
  - vm_compute. reflexivity.
Defined.

Lemma clamp_is_strict_witness :
  (let s' := (parse py_int16 frame_500A (float_of_Z 1000) fresh_record).1 in
   let c := int_div_float 50000 (float_of_Z 100) in
   (c = float_of_Z 500 → chargingA s' = Some c) ∧
   (c = float_of_Z 500 → dischargingA s' = Some c) ∧
   (PrimFloat.ltb (float_of_Z 500) c = true →
      chargingA s' = Some (float_of_Z 0)) ∧
   (PrimFloat.ltb (float_of_Z 500) c = false → chargingA s' = Some c) ∧
   (PrimFloat.ltb (float_of_Z 500) c = true →
      dischargingA s' = Some (float_of_Z 0)) ∧
   (PrimFloat.ltb (float_of_Z 500) c = false → dischargingA s' = Some c)) ∧
  (let s' :=
     (parse py_int16 frame_above_500A (float_of_Z 1000) fresh_record).1 in
   let c := int_div_float 50001 (float_of_Z 100) in
   (c = float_of_Z 500 → chargingA s' = Some c) ∧
   (c = float_of_Z 500 → dischargingA s' = Some c) ∧
   (PrimFloat.ltb (float_of_Z 500) c = true →
      chargingA s' = Some (float_of_Z 0)) ∧
   (PrimFloat.ltb (float_of_Z 500) c = false → chargingA s' = Some c) ∧
   (PrimFloat.ltb (float_of_Z 500) c = true →
      dischargingA s' = Some (float_of_Z 0)) ∧
   (PrimFloat.ltb (float_of_Z 500) c = false → dischargingA s' = Some c)).
Proof.
  split.
  - apply (clamp_is_strict py_int16 frame_500A (float_of_Z 1000)
             fresh_record _ 50000 50000).
    + exact fresh_record_wf.
    + reflexivity.
    + vm_compute. reflexivity.
    + vm_compute. reflexivity.
    + vm_compute. reflexivity.
  - apply (clamp_is_strict py_int16 frame_above_500A (float_of_Z 1000)
             fresh_record _ 50001 50001).
    + exact fresh_record_wf.
    + reflexivity.
    + vm_compute. reflexivity.
    + vm_compute. reflexivity.
    + vm_compute. reflexivity.
Defined.

(** The two sides of the clamp on the sample frames: 50000 / 100.0 is
    [500.0], not above 500, and is stored; 50001 / 100.0 is above 500
    and [0.0] is stored in its place. *)
Lemma clamp_at_500A_and_above :
  let at_500 := (parse py_int16 frame_500A (float_of_Z 1000) fresh_record).1 in
  let above :=
    (parse py_int16 frame_above_500A (float_of_Z 1000) fresh_record).1 in
  int_div_float 50000 (float_of_Z 100) = float_of_Z 500 ∧
  PrimFloat.ltb (float_of_Z 500) (int_div_float 50000 (float_of_Z 100))
    = false ∧
  chargingA at_500 = Some (float_of_Z 500) ∧
  dischargingA at_500 = Some (float_of_Z 500) ∧
  PrimFloat.ltb (float_of_Z 500) (int_div_float 50001 (float_of_Z 100))
    = true ∧
  chargingA above = Some (float_of_Z 0) ∧
  dischargingA above = Some (float_of_Z 0).
Proof.
  cbv zeta. repeat match goal with |- _ ∧ _ => split end.
  all: vm_compute; reflexivity.
Qed.

Lemma totalV_sums_parsed_cells_witness :
  let s' := (parse py_int16 frame_bad_cell (float_of_Z 2000) record_ok).1 in
  (length (decode_fields py_int16 frame_bad_cell realtime_header) = 4 →
     totalV s' = Some (fsum (cells_parsed py_int16 frame_bad_cell)) ∧
     ∀ i v, cells_parsed py_int16 frame_bad_cell !! i = Some v →
            cellV s' !! i = Some (Some v)) ∧
  (length (decode_fields py_int16 frame_bad_cell realtime_header) ≠ 4 →
     totalV s' = totalV record_ok).
Proof.
  apply (totalV_sums_parsed_cells py_int16 frame_bad_cell (float_of_Z 2000)
           record_ok).
  - exact record_ok_wf.
  - reflexivity.
Defined.

Lemma parse_failure_keeps_decoded_fields_witness :
  ∃ s', parse py_int16 frame_stops_at_cell (float_of_Z 2000) record_ok
          = (s', Val (Failed ValueError)) ∧
        lastUpdatetime s' = lastUpdatetime record_ok ∧
        (∀ j g a' b' n, j < 6 →
           frame_fields (length frame_stops_at_cell) !! j
             = Some (g, (a', b')) →
           py_int16 (py_slice a' b' frame_stops_at_cell) = Some n →
           read g s' = Some (stored g n)) ∧
        (∀ j g a' b', 6 ≤ j →
           frame_fields (length frame_stops_at_cell) !! j
             = Some (g, (a', b')) →
           read g s' = read g record_ok) ∧
        (∀ g, g ∉ (frame_fields (length frame_stops_at_cell)).*1 →
           read g s' = read g record_ok) ∧
        (DischargingA
           ∉ (take 6 (frame_fields (length frame_stops_at_cell))).*1 →
           loadA s' = loadA record_ok) ∧
        (length frame_stops_at_cell = 30 ∨ 6 < 4 →
           totalV s' = totalV record_ok).
Proof.
  apply (parse_failure_keeps_decoded_fields py_int16 frame_stops_at_cell
           (float_of_Z 2000) record_ok 6 (CellV 2) 33 37).
  - exact record_ok_wf.
  - reflexivity.
  - vm_compute. reflexivity.
  - intros j r Hj Hr.
    do 6 (destruct j as [|j];
          [vm_compute in Hr; injection Hr as <-; vm_compute; by eexists|]).
    lia.
Defined.

(** The same frame on the record after [frame_ok]: the address and the
    first two cells are those of the new frame, the third cell, the
    fourth (which the new frame would set to 3.0 V), the currents and
    the charge are those of the frame before, and the total is the sum
    of the two cells decoded. *)
Lemma parse_stops_at_failing_cell :
  let s' :=
    (parse py_int16 frame_stops_at_cell (float_of_Z 2000) record_ok).1 in
  address record_ok = Some 0%Z ∧ address s' = Some 1%Z ∧
  cellV s' !! 0 = Some (Some (float_of_Z 3)) ∧
  cellV s' !! 1 = Some (Some (float_of_Z 3)) ∧
  cellV s' !! 2 = cellV record_ok !! 2 ∧
  cellV s' !! 3 = cellV record_ok !! 3 ∧
  cellV record_ok !! 3 ≠ Some (Some (float_of_Z 3)) ∧
  chargingA s' = chargingA record_ok ∧
  chargingA record_ok = Some (float_of_Z 1) ∧
  dischargingA s' = Some (float_of_Z 2) ∧
  loadA s' = loadA record_ok ∧
  soc s' = Some 100%Z ∧
  totalV s' = Some (float_of_Z 6) ∧
  lastUpdatetime s' = float_of_Z 1000.
Proof.
  cbv zeta. repeat match goal with |- _ ∧ _ => split end.
  all: vm_compute; first [reflexivity | discriminate].
Qed.

Lemma getData_snapshot_witness :
  ∃ r, getData sample_consts (float_of_Z 1001) record_ok
         = (record_ok, Val r) ∧
    (r = None ↔
       PrimFloat.ltb (float_of_Z MAX_TIME_S)
         (PrimFloat.sub (float_of_Z 1001) (lastUpdatetime record_ok)) = true ∨
       totalV record_ok = None ∨
       ∃ v, totalV record_ok = Some v ∧
            PrimFloat.eqb v PrimFloat.zero = true) ∧
    (∀ d, r = Some d → d = snapshot_of sample_consts record_ok).
Proof.
  apply (getData_snapshot sample_consts (float_of_Z 1001) record_ok).
  - exact record_ok_wf.
  - exact sample_consts_distinct.
Defined.

Lemma resetValues_unsets_measurements_witness :
  ∃ s', resetValues record_ok = (s', Val tt) ∧
    (alarm s' = None ∧ balanceState s' = None ∧ chargeNumber s' = None ∧
     chargingA s' = None ∧ completeAh s' = None ∧ designedAh s' = None ∧
     dischargeNumber s' = None ∧ dischargingA s' = None ∧ loadA s' = None ∧
     remainingAh s' = None ∧ soc s' = None ∧ totalV s' = None ∧
     version s' = None ∧ workingState s' = None) ∧
    cellV s' = replicate 11 None ++ drop 11 (cellV record_ok) ∧
    tempC s' = replicate 4 None ∧
    (address s' = address record_ok ∧ command s' = command record_ok ∧
     length_ s' = length_ record_ok ∧
     lastUpdatetime s' = lastUpdatetime record_ok) ∧
    ∀ K now, getData K now s' = (s', Val None).
Proof.
  apply (resetValues_unsets_measurements record_ok). exact record_ok_wf.
Defined.

Lemma poll_without_notification_fails_witness :
  ∃ st',
    async_update py_int16 sample_consts no_calc (float_of_Z 1000)
      (sample_driver, sample_world []) = (st', Exc AssertionError) ∧
    ∃ r', heap st'.2 !! supervoltData st'.1 = Some r' ∧ totalV r' = None.
Proof.
  apply (poll_without_notification_fails py_int16 sample_consts no_calc
           (float_of_Z 1000) sample_driver (sample_world []) fresh_record).
  - reflexivity.
  - exact fresh_record_wf.
  - apply Forall_nil_2.
  - vm_compute. reflexivity.
Defined.

Lemma device_supported_first_match_witness :
  (∀ t, _device_supported string sample_types id sample_globals sample_info
          = Val (Some t) ↔
        ∃ k, sample_types !! k = Some t ∧
             claims string id sample_globals t sample_info = true ∧
             ∀ j u, j < k → sample_types !! j = Some u →
                    claims string id sample_globals u sample_info = false) ∧
  (_device_supported string sample_types id sample_globals sample_info
     = Val None ↔
   ∀ u, u ∈ sample_types →
        claims string id sample_globals u sample_info = false) ∧
  (∃ r, _device_supported string sample_types id sample_globals sample_info
          = Val r).
Proof.
  apply (device_supported_first_match string sample_types id sample_globals
           sample_info).
  intros t Ht. apply list_elem_of_In in Ht. cbn in Ht.
  destruct Ht as [<-|[<-|[<-|[]]]]; by eexists.
Defined.

(** At the sample advertisement the second and the third type both
    claim the device, and the second is returned. *)
Lemma device_supported_tie :
  claims string id sample_globals "SecondBMS" sample_info = true ∧
  claims string id sample_globals "ThirdBMS" sample_info = true ∧
  _device_supported string sample_types id sample_globals sample_info
    = Val (Some "SecondBMS").
Proof. by vm_compute. Qed.

(** *** Where the design document and the code part *)

(** C1.  With a link that stays silent, the poll raises
    [AssertionError] instead of returning "no data", and the only calls
    made on the link are the connection, the subscription and the first
    command: no disconnect is attempted. *)
Lemma poll_timeout_raises_without_disconnect :
  let out := async_update py_int16 sample_consts no_calc (float_of_Z 1000)
               (sample_driver, sample_world []) in
  out.2 = Exc AssertionError ∧
  calls out.1.2 = [Connect; StartNotify; WriteGattChar command_realtime] ∧
  Disconnect ∉ calls out.1.2.
Proof.
  split; [by vm_compute|]. split; [by vm_compute|].
  refine (bool_decide_unpack _ _). vm_compute. exact I.
Qed.

(** C3.  A record with every cell at 0 V has [totalV] set (to [0.0])
    and is one time unit old, and still [getData] returns [None]. *)
Lemma getData_none_for_zero_volt :
  let s := (parse py_int16 frame_zero_volt (float_of_Z 1000) fresh_record).1 in
  totalV s = Some (float_of_Z 0) ∧
  PrimFloat.ltb (float_of_Z MAX_TIME_S)
    (PrimFloat.sub (float_of_Z 1001) (lastUpdatetime s)) = false ∧
  getData sample_consts (float_of_Z 1001) s = (s, Val None).
Proof. by vm_compute. Qed.

(** C6.  A 128-byte frame whose address does not decode, on a record
    that holds 13.2 V from the frame before: no cell of the frame is
    read, and [totalV] is still the old sum - neither the sum of the
    frame's cells (0 V) nor the sum of no cells. *)
Lemma totalV_kept_on_bad_header :
  let s' :=
    (parse py_int16 frame_bad_address (float_of_Z 2000) record_ok).1 in
  py_int16 (py_slice 1 3 frame_bad_address) = None ∧
  cellV s' = cellV record_ok ∧
  totalV s' = totalV record_ok ∧
  totalV s' ≠ Some (fsum (cells_parsed py_int16 frame_bad_address)) ∧
  totalV s' ≠ Some (fsum []).
Proof.
  split; [by vm_compute|]. split; [by vm_compute|]. split; [by vm_compute|].
  split; intros H;
    apply (f_equal (λ o, match o with
                         | Some x => PrimFloat.eqb x PrimFloat.zero
                         | None => true
                         end)) in H;
    vm_compute in H; discriminate H.
Qed.

(** C8.  After a decoded frame and a reset, the header attributes and
    the time stamp are still set. *)
Lemma resetValues_keeps_header :
  let s' := (resetValues record_ok).1 in
  address s' = Some 0%Z ∧ command s' = Some 1%Z ∧ length_ s' = Some 126%Z ∧
  lastUpdatetime s' = float_of_Z 1000.
Proof. by vm_compute. Qed.

(** C2.  A driver is made for a device, a frame fills its record, and a
    second driver is made for the same device: the second refers to a
    new record, which is blank, and [supervoltDatas] is still empty. *)
Lemma second_instance_starts_blank :
  ∃ w1 d1 w2 d1' w3 d2,
    BMS_init sample_device false (initial_world (float_of_Z 0) [])
      = (w1, Val d1) ∧
    _notification_handler py_int16 (frame_ok, float_of_Z 1000) (d1, w1)
      = ((d1', w2), Val tt) ∧
    BMS_init sample_device false w2 = (w3, Val d2) ∧
    heap w3 !! supervoltData d1' = Some record_ok ∧
    supervoltData d2 ≠ supervoltData d1' ∧
    heap w3 !! supervoltData d2 = Some (new_SupervoltData (float_of_Z 0)) ∧
    supervoltDatas w3 = ∅.
Proof.
  do 6 eexists.
  split; [vm_compute; reflexivity|].
  split; [vm_compute; reflexivity|].
  split; [vm_compute; reflexivity|].
  split; [vm_compute; reflexivity|].
  split; [vm_compute; discriminate|].
  split; vm_compute; reflexivity.
Qed.

(** ** More on the decoder *)

Section DecoderMore.

Variable int16 : list byte → option Z.

Lemma decode_fields_whole data l :
  (∀ r, r ∈ l → is_Some (decode_at int16 data r)) →
  length (decode_fields int16 data l) = length l ∧
  ∀ j g a b n, l !! j = Some (g, (a, b)) →
    int16 (py_slice a b data) = Some n →
    decode_fields int16 data l !! j = Some (g, n).
Proof.
  induction l as [|r0 l IH]; intros Hall; [done|].
  rewrite decode_fields_cons.
  destruct (Hall r0) as [m Hm]; [left|]. rewrite Hm.
  destruct IH as [Hlen Hget]. { intros r Hr. apply Hall. by right. }
  split; [cbn; by rewrite Hlen|].
  intros [|j] g a b n Hj Hn; cbn in *.
  - injection Hj as ->. change (int16 (py_slice a b data) = Some m) in Hm.
    cbn. congruence.
  - by eapply Hget.
Qed.

(** The record that [parse] leaves, by the length of the buffer. *)
Lemma parse_record data now s :
  wf s →
  (parse int16 data now s).1 =
    if decide (length data = 128) then (realtime_decoded int16 data now s).1
    else if decide (length data = 30)
         then (capacity_decoded int16 data now s).1
         else s.
Proof.
  intros Hwf. rewrite parse_layout by done.
  repeat case_decide; try done.
  - by destruct (realtime_decoded _ _ _ _) as [? [[]|?]].
  - by destruct (capacity_decoded _ _ _ _) as [? [[]|?]].
Qed.

Lemma realtime_decoded_whole data now s :
  (realtime_decoded int16 data now s).2 = Val tt ↔
  length (decode_fields int16 data realtime_fields) = 27.
Proof.
  unfold realtime_decoded, realtime_fields.
  rewrite (decode_fields_app int16 data realtime_header).
  change (length realtime_header) with 4.
  pose proof (decode_fields_length int16 data
                (realtime_cells ++ realtime_tail)) as Hle.
  change (length (realtime_cells ++ realtime_tail)) with 23 in Hle.
  destruct (decide (length _ = 4)) as [H4|H4].
  - rewrite length_app, H4.
    destruct (decide (length _ = 23)) as [H23|H23]; cbn [snd].
    + rewrite H23. done.
    + split; [done|lia].
  - cbn [snd]. split; [done|]. intros H.
    pose proof (decode_fields_length int16 data realtime_header) as Hle4.
    change (length realtime_header) with 4 in Hle4. lia.
Qed.

Lemma capacity_decoded_whole data now s :
  (capacity_decoded int16 data now s).2 = Val tt ↔
  length (decode_fields int16 data capacity_fields) = 7.
Proof.
  unfold capacity_decoded. destruct (decide _); cbn; split; done.
Qed.

Lemma lastUpdatetime_realtime_decoded data now s :
  (realtime_decoded int16 data now s).2 = Val tt →
  lastUpdatetime (realtime_decoded int16 data now s).1 = now.
Proof. unfold realtime_decoded. by repeat case_decide. Qed.

Lemma lastUpdatetime_capacity_decoded data now s :
  (capacity_decoded int16 data now s).2 = Val tt →
  lastUpdatetime (capacity_decoded int16 data now s).1 = now.
Proof. unfold capacity_decoded. by repeat case_decide. Qed.

(** X1.  A buffer of 128 or of 30 bytes is reported as decoded
    ([Realtime], [Capacity]) exactly when every field of its layout
    decodes; the time stamp is then the time of the decoding and every
    field holds the value stored for what its text decodes to. *)
Theorem parse_whole_frame (data : list byte) (now : float)
    (s : SupervoltData) :
  wf s → length data = 128 ∨ length data = 30 →
  let fields := frame_fields (length data) in
  let whole := if decide (length data = 128) then Realtime else Capacity in
  ((parse int16 data now s).2 = Val whole ↔
   ∀ r, r ∈ fields → is_Some (decode_at int16 data r)) ∧
  ((parse int16 data now s).2 = Val whole →
   lastUpdatetime (parse int16 data now s).1 = now ∧
   ∀ g a b n, (g, (a, b)) ∈ fields →
     int16 (py_slice a b data) = Some n →
     read g (parse int16 data now s).1 = Some (stored g n)).
Proof.
  intros Hwf Hlen fields whole. subst fields whole.
  rewrite parse_record by done. rewrite parse_layout by done.
  unfold frame_fields.
  destruct (decide (length data = 128)) as [H128|H128].
  - assert (Hev : ∀ x : SupervoltData * res unit,
              (match x with
               | (s', Val _) => (s', Val Realtime)
               | (s', Exc e) => (s', Val (Failed e))
               end).2 = Val Realtime ↔ x.2 = Val tt)
      by (intros [? [[]|?]]; cbn; split; congruence).
    rewrite Hev, realtime_decoded_whole.
    split.
    + split.
      * intros H27. by apply decode_fields_all.
      * intros Hall. by apply decode_fields_whole in Hall as [? _].
    + intros H27. split.
      { by apply lastUpdatetime_realtime_decoded, realtime_decoded_whole. }
      intros g a b n Hin Hn.
      apply list_elem_of_lookup in Hin as [j Hj].
      eapply realtime_decoded_reads; [done|].
      eapply decode_fields_whole; [|done..].
      by apply decode_fields_all.
  - destruct Hlen as [?|H30]; [done|].
    destruct (decide (length data = 30)) as [_|?]; [|done].
    assert (Hev : ∀ x : SupervoltData * res unit,
              (match x with
               | (s', Val _) => (s', Val Capacity)
               | (s', Exc e) => (s', Val (Failed e))
               end).2 = Val Capacity ↔ x.2 = Val tt)
      by (intros [? [[]|?]]; cbn; split; congruence).
    rewrite Hev, capacity_decoded_whole.
    split.
    + split.
      * intros H7. by apply decode_fields_all.
      * intros Hall. by apply decode_fields_whole in Hall as [? _].
    + intros H7. split.
      { by apply lastUpdatetime_capacity_decoded, capacity_decoded_whole. }
      intros g a b n Hin Hn.
      apply list_elem_of_lookup in Hin as [j Hj].
      eapply capacity_decoded_reads; [done|].
      eapply decode_fields_whole; [|done..].
      by apply decode_fields_all.
Qed.

End DecoderMore.

Section DecoderMore2.

Variable int16 : list byte → option Z.

(** The layout view with the decoder as a function of the bounds, and
    the case analysis on the fields in the order of the layout. *)
Ltac decoder_of_bounds data dec :=
  set (dec := λ a b : nat, int16 (py_slice a b data));
  change (decode_fields int16 data) with
    (fix go (l : list region) : list (field * Z) :=
       match l with
       | [] => []
       | r :: l' => match dec r.2.1 r.2.2 with
                    | Some n => (r.1, n) :: go l'
                    | None => []
                    end
       end);
  clearbody dec; clear data;
  cbv [realtime_fields realtime_header realtime_cells realtime_tail
       capacity_fields app map seq fst snd Nat.add Nat.mul].

Ltac split_fields dec l :=
  lazymatch l with
  | [] => idtac
  | (?a, ?b) :: ?l' => destruct (dec a b) eqn:?; [split_fields dec l'|]
  end.

Lemma apply_fields_capacity_part l s :
  (∀ f, f ∈ l.*1 → f ∈ realtime_fields.*1) →
  capacity_part (apply_fields l s) = capacity_part s.
Proof.
  revert s. induction l as [|[f n] l IH]; intros s Hl; [done|].
  rewrite apply_fields_cons, IH.
  - assert (Hf : f ∈ realtime_fields.*1) by (apply Hl; left).
    destruct f; try done.
    all: exfalso; revert Hf; vm_compute; intros Hf.
    all: repeat (apply elem_of_cons in Hf as [Hf|Hf]; [discriminate Hf|]).
    all: by apply elem_of_nil in Hf.
  - intros g Hg. apply Hl. by right.
Qed.

Lemma apply_fields_realtime_part l s :
  (∀ f, f ∈ l.*1 → f ∈ capacity_fields.*1) →
  realtime_part (apply_fields l s) = realtime_part s.
Proof.
  revert s. induction l as [|[f n] l IH]; intros s Hl; [done|].
  rewrite apply_fields_cons, IH.
  - assert (Hf : f ∈ capacity_fields.*1) by (apply Hl; left).
    destruct f; try done.
    all: exfalso; revert Hf; vm_compute; intros Hf.
    all: repeat (apply elem_of_cons in Hf as [Hf|Hf]; [discriminate Hf|]).
    all: by apply elem_of_nil in Hf.
  - intros g Hg. apply Hl. by right.
Qed.

(** X2.  The two frames write disjoint readings: a buffer of 30 bytes,
    decoded or not, leaves every reading of the realtime frame (cells,
    total, currents, load, temperatures, states, counters, charge) as it
    was, and a buffer of 128 bytes leaves the three capacities as they
    were. *)
Theorem parse_frames_disjoint (data : list byte) (now : float)
    (s : SupervoltData) :
  wf s →
  (length data = 30 →
   realtime_part (parse int16 data now s).1 = realtime_part s) ∧
  (length data = 128 →
   capacity_part (parse int16 data now s).1 = capacity_part s).
Proof.
  intros Hwf. rewrite parse_record by done. split; intros Hlen.
  - rewrite decide_False, decide_True by (done || lia).
    unfold capacity_decoded.
    assert (realtime_part
              (apply_fields (decode_fields int16 data capacity_fields) s)
            = realtime_part s) as <-.
    { apply apply_fields_realtime_part. intros f.
      apply decode_fields_known. }
    by case_decide.
  - rewrite decide_True by done. unfold realtime_decoded.
    assert (Hhd : capacity_part
              (apply_fields (decode_fields int16 data realtime_header) s)
            = capacity_part s).
    { apply apply_fields_capacity_part. intros f Hf.
      apply decode_fields_known in Hf. unfold realtime_fields.
      rewrite fmap_app. apply elem_of_app. by left. }
    assert (Hrest : ∀ s0, capacity_part
              (apply_fields
                 (decode_fields int16 data (realtime_cells ++ realtime_tail))
                 s0)
            = capacity_part s0).
    { intros s0. apply apply_fields_capacity_part. intros f Hf.
      apply decode_fields_known in Hf. unfold realtime_fields.
      rewrite fmap_app. apply elem_of_app. by right. }
    repeat case_decide; cbn [fst]; try done.
    + change (capacity_part (set_lastUpdatetime now ?x))
        with (capacity_part x).
      by rewrite Hrest, <- Hhd.
    + by rewrite Hrest, <- Hhd.
Qed.

Lemma apply_fields_spare_cells l s :
  (∀ f, f ∈ l.*1 → f ∈ (realtime_fields ++ capacity_fields).*1) →
  drop 11 (cellV (apply_fields l s)) = drop 11 (cellV s).
Proof.
  revert s. induction l as [|[f n] l IH]; intros s Hl; [done|].
  rewrite apply_fields_cons, IH.
  - assert (Hf : f ∈ (realtime_fields ++ capacity_fields).*1)
      by (apply Hl; left).
    apply known_field_index in Hf.
    destruct f; try done. cbn. by rewrite drop_insert_lt.
  - intros g Hg. apply Hl. by right.
Qed.

(** X3.  On a record whose lists have their 16 and 4 places, [parse]
    raises nothing whatever the buffer holds, keeps the two lists at
    their lengths, and never writes the cell places 11 to 15. *)
Theorem parse_keeps_shape (data : list byte) (now : float)
    (s : SupervoltData) :
  wf s →
  ∃ s' ev, parse int16 data now s = (s', Val ev) ∧
           wf s' ∧ drop 11 (cellV s') = drop 11 (cellV s).
Proof.
  intros Hwf.
  destruct (parse int16 data now s) as [s' r] eqn:E.
  assert (Hs' : s' = (parse int16 data now s).1) by (by rewrite E).
  assert (Hr : ∃ ev, r = Val ev).
  { rewrite parse_layout in E by done.
    destruct (realtime_decoded _ _ _ _) as [? [[]|?]],
             (capacity_decoded _ _ _ _) as [? [[]|?]].
    all: repeat case_decide; injection E as <- <-; by eexists. }
  destruct Hr as [ev ->]. exists s', ev. split; [done|].
  split; [rewrite Hs'; by apply parse_wf|].
  rewrite Hs', parse_record by done.
  assert (Hin1 : ∀ l f, f ∈ (decode_fields int16 data l).*1 →
                 l.*1 ⊆ (realtime_fields ++ capacity_fields).*1 →
                 f ∈ (realtime_fields ++ capacity_fields).*1).
  { intros l f Hf Hsub. apply Hsub. by apply decode_fields_known in Hf. }
  unfold realtime_decoded, capacity_decoded.
  repeat case_decide; cbn [fst]; try done.
  all: repeat first
    [ progress change (cellV (set_lastUpdatetime now ?x)) with (cellV x)
    | rewrite apply_fields_spare_cells
    | progress change (cellV (set_totalV ?v ?x)) with (cellV x) ].
  all: try done.
  all: intros f Hf; eapply Hin1; [exact Hf|].
  all: intros g Hg; unfold realtime_fields.
  all: rewrite ?fmap_app, ?elem_of_app in *; tauto.
Qed.

(** X4.  Decoding the same buffer a second time changes nothing but the
    time stamp: the record and the report after the buffer was decoded
    at [t1] and again at [t2] are those of decoding it once at [t2]. *)
Theorem parse_twice (data : list byte) (t1 t2 : float) (s : SupervoltData) :
  wf s →
  parse int16 data t2 (parse int16 data t1 s).1 = parse int16 data t2 s.
Proof.
  intros Hwf.
  pose proof (parse_wf int16 data t1 s Hwf) as Hwf1.
  pose proof (parse_record int16 data t1 s Hwf) as Hs1.
  destruct (parse int16 data t1 s) as [s1 r1]. cbn [fst] in Hwf1, Hs1 |- *.
  rewrite !parse_layout by done. subst s1.
  destruct (decide (length data = 128)) as [H128|H128];
    [|destruct (decide (length data = 30)) as [H30|H30]];
    cbv beta iota; [| |done].
  - enough (realtime_decoded int16 data t2
              (realtime_decoded int16 data t1 s).1
            = realtime_decoded int16 data t2 s) as -> by done.
    clear H128 Hwf1.
    destruct (wf_lists s Hwf)
      as (c0&c1&c2&c3&c4&c5&c6&c7&c8&c9&c10&c11&c12&c13&c14&c15&t0&t1'&t2'&t3
          &Hc&Ht).
    destruct s; simpl in Hc, Ht; subst. clear Hwf.
    unfold realtime_decoded. decoder_of_bounds data dec.
    let l := eval lazy in (map snd realtime_fields) in split_fields dec l.
    all: lazy -[float_of_Z int_div_float too_big Z.sub PrimFloat.add
                PrimFloat.opp clamp].
    all: reflexivity.
  - enough (capacity_decoded int16 data t2
              (capacity_decoded int16 data t1 s).1
            = capacity_decoded int16 data t2 s) as -> by done.
    clear H128 H30 Hwf1.
    destruct (wf_lists s Hwf)
      as (c0&c1&c2&c3&c4&c5&c6&c7&c8&c9&c10&c11&c12&c13&c14&c15&t0&t1'&t2'&t3
          &Hc&Ht).
    destruct s; simpl in Hc, Ht; subst. clear Hwf.
    unfold capacity_decoded. decoder_of_bounds data dec.
    let l := eval lazy in (map snd capacity_fields) in split_fields dec l.
    all: lazy -[float_of_Z int_div_float too_big Z.sub PrimFloat.add
                PrimFloat.opp clamp].
    all: reflexivity.
Qed.


Lemma parse_keeps_totalV data now s :
  wf s →
  length data ≠ 128 ∨
  length (decode_fields int16 data realtime_header) ≠ 4 →
  totalV (parse int16 data now s).1 = totalV s.
Proof.
  intros Hwf Hno. rewrite parse_record by done.
  assert (Hpart : ∀ l, l.*1 ⊆ capacity_fields.*1 →
            totalV (apply_fields (decode_fields int16 data l) s)
            = totalV s).
  { intros l Hl.
    assert (realtime_part (apply_fields (decode_fields int16 data l) s)
            = realtime_part s) as H.
    { apply apply_fields_realtime_part. intros f Hf. apply Hl.
      by apply decode_fields_known in Hf. }
    by injection H. }
  destruct (decide (length data = 128)) as [H128|H128].
  - destruct Hno as [?|Hhd]; [done|]. unfold realtime_decoded.
    rewrite decide_False by done. cbn [fst]. apply Hpart.
    intros f Hf.
    change (capacity_fields.*1)
      with (realtime_header.*1 ++ [RemainingAh; CompleteAh; DesignedAh]).
    apply elem_of_app. by left.
  - destruct (decide (length data = 30)); [|done].
    unfold capacity_decoded.
    case_decide; cbn [fst];
      [change (totalV (set_lastUpdatetime now ?x)) with (totalV x)|];
      by apply Hpart.
Qed.

(** X5.  After [resetValues], only a buffer of 128 bytes whose four
    header fields decode can make the record reportable again: after
    any other buffer, a capacity frame included, [getData] returns
    [None] at any time. *)
Theorem no_data_without_realtime_header (K : Consts) (data : list byte)
    (now t : float) (s : SupervoltData) :
  wf s →
  length data ≠ 128 ∨
  length (decode_fields int16 data realtime_header) ≠ 4 →
  let s' := (parse int16 data now (resetValues s).1).1 in
  getData K t s' = (s', Val None).
Proof.
  intros Hwf Hno s'. apply getData_unset_totalV. subst s'.
  rewrite parse_keeps_totalV by (done || by apply resetValues_wf).
  by rewrite resetValues_layout.
Qed.

End DecoderMore2.

(** ** The working state as text *)

Lemma land_pow2 (ws k : Z) :
  (0 ≤ k)%Z →
  Z.land ws (2 ^ k) = if Z.testbit ws k then (2 ^ k)%Z else 0%Z.
Proof.
  intros Hk. apply Z.bits_inj'. intros i Hi.
  rewrite Z.land_spec, Z.pow2_bits_eqb by lia.
  destruct (Z.eqb_spec k i) as [<-|Hne].
  - rewrite andb_true_r. destruct (Z.testbit ws k) eqn:E.
    + by rewrite Z.pow2_bits_true by lia.
    + by rewrite Z.bits_0.
  - rewrite andb_false_r. destruct (Z.testbit ws k).
    + by rewrite Z.pow2_bits_false by done.
    + by rewrite Z.bits_0.
Qed.

(** The test of one bit, as the code writes it. *)
Lemma bit_test (ws : Z) (k : nat) (m : Z) :
  m = (2 ^ Z.of_nat k)%Z →
  (Z.land ws m >? 0)%Z = Z.testbit ws (Z.of_nat k).
Proof.
  intros ->. rewrite land_pow2 by lia.
  destruct (Z.testbit ws (Z.of_nat k)); [|done]. apply Z.gtb_lt. lia.
Qed.

Lemma test_normal (ws : Z) :
  (Z.land ws 0xF003 >=? 0xF000)%Z =
    Z.testbit ws 12 && Z.testbit ws 13 && Z.testbit ws 14 && Z.testbit ws 15.
Proof.
  change 0xF003%Z with
    (Z.lor (2 ^ 0) (Z.lor (2 ^ 1) (Z.lor (2 ^ 12) (Z.lor (2 ^ 13)
       (Z.lor (2 ^ 14) (2 ^ 15)))))).
  rewrite !Z.land_lor_distr_r, !land_pow2 by lia.
  by destruct (Z.testbit ws 0), (Z.testbit ws 1), (Z.testbit ws 12),
       (Z.testbit ws 13), (Z.testbit ws 14), (Z.testbit ws 15).
Qed.

Lemma test_two_bits (ws j k m : Z) :
  (0 ≤ j)%Z → (0 ≤ k)%Z → m = Z.lor (2 ^ j) (2 ^ k) →
  (Z.land ws m >? 0)%Z = Z.testbit ws j || Z.testbit ws k.
Proof.
  intros Hj Hk ->. rewrite Z.land_lor_distr_r, !land_pow2 by lia.
  assert (0 < 2 ^ j)%Z by lia. assert (0 < 2 ^ k)%Z by lia.
  assert (0 < Z.lor (2 ^ j) (2 ^ k))%Z.
  { destruct (Z.eq_dec (Z.lor (2 ^ j) (2 ^ k)) 0%Z) as [E|E].
    - apply Z.lor_eq_0_iff in E. lia.
    - pose proof (proj2 (Z.lor_nonneg (2 ^ j) (2 ^ k))). lia. }
  destruct (Z.testbit ws j), (Z.testbit ws k); cbn [orb];
    rewrite ?Z.lor_0_r, ?Z.lor_0_l; try (apply Z.gtb_lt; lia). done.
Qed.

(** X6.  The short text by the bits of the working state: [Normal] when
    the bits 12 to 15 are all set, whatever the others are; else
    [Schutzschaltung] when bit 2 or 3 is set; else [Kurzschluss] for
    bit 5; else [Überhitzt] for bit 8 or 10; else [Unterkühlt] for bit
    9 or 11; else [Unbekannt]. *)
Theorem getWorkingStateTextShort_bits (s : SupervoltData) (ws : Z) :
  workingState s = Some ws →
  getWorkingStateTextShort s =
    if Z.testbit ws 12 && Z.testbit ws 13 && Z.testbit ws 14
       && Z.testbit ws 15 then "Normal"
    else if Z.testbit ws 2 || Z.testbit ws 3 then "Schutzschaltung"
    else if Z.testbit ws 5 then "Kurzschluss"
    else if Z.testbit ws 8 || Z.testbit ws 10 then "Überhitzt"
    else if Z.testbit ws 9 || Z.testbit ws 11 then "Unterkühlt"
    else "Unbekannt".
Proof.
  intros H. unfold getWorkingStateTextShort. rewrite H.
  rewrite test_normal.
  rewrite (test_two_bits ws 2 3 0x000C) by (reflexivity || lia).
  rewrite (bit_test ws 5 0x0020) by reflexivity.
  rewrite (test_two_bits ws 8 10 0x0500) by (reflexivity || lia).
  rewrite (test_two_bits ws 9 11 0x0A00) by (reflexivity || lia).
  reflexivity.
Qed.

(** *** The long text *)

Lemma string_app_assoc (a b c : string) : (a +:+ b) +:+ c = a +:+ b +:+ c.
Proof.
  induction a as [|x a IH]; [done|].
  change (String x ((a +:+ b) +:+ c) = String x (a +:+ b +:+ c)).
  by f_equal.
Qed.

Lemma string_length_0 (a : string) : (String.length a =? 0)%nat = true ↔ a = "".
Proof. destruct a; cbn; split; done. Qed.

Lemma appendState_nonempty text label : label ≠ "" → appendState text label ≠ "".
Proof.
  intros Hl. unfold appendState.
  destruct (String.length text =? 0)%nat eqn:E; [done|].
  destruct text; [done|]. done.
Qed.

Lemma append_labels_nonempty xs text :
  Forall (λ x : bool * string, x.2 ≠ "") xs → text ≠ "" →
  append_labels xs text =
    match chosen xs with
    | [] => text
    | l => text +:+ " | " +:+ String.concat " | " l
    end.
Proof.
  revert text. induction xs as [|[b label] xs IH]; intros text Hxs Ht; [done|].
  apply Forall_cons in Hxs as [Hl Hxs]. cbn in Hl. cbn [append_labels].
  destruct b; cbn [chosen omap list_omap fst snd].
  - rewrite IH by (done || by apply appendState_nonempty).
    unfold appendState.
    destruct (String.length text =? 0)%nat eqn:E;
      [by apply string_length_0 in E|].
    fold (chosen xs). destruct (chosen xs) as [|l0 ls]; [done|].
    cbn [String.concat]. by rewrite !string_app_assoc.
  - by apply IH.
Qed.

Lemma append_labels_concat xs :
  Forall (λ x : bool * string, x.2 ≠ "") xs →
  append_labels xs "" = String.concat " | " (chosen xs).
Proof.
  induction xs as [|[b label] xs IH]; intros Hxs; [done|].
  apply Forall_cons in Hxs as [Hl Hxs]. cbn in Hl. cbn [append_labels].
  destruct b; cbn [chosen omap list_omap fst snd].
  - change (appendState "" label) with label.
    rewrite append_labels_nonempty by done.
    fold (chosen xs). by destruct (chosen xs).
  - by apply IH.
Qed.

(** X7.  The long text of a working state is the labels of its set bits
    among the bits 0 to 15, in the order of the bits, joined by
    [" | "]: no separator begins or ends it, and it is empty when none
    of these bits is set. *)
Theorem getWorkingStateText_labels (s : SupervoltData) (ws : Z) :
  workingState s = Some ws →
  getWorkingStateText s = String.concat " | " (labels_of ws).
Proof.
  intros H. unfold getWorkingStateText. rewrite H.
  transitivity
    (append_labels
       (zip [(Z.land ws 0x0001 >? 0)%Z; (Z.land ws 0x0002 >? 0)%Z;
             (Z.land ws 0x0004 >? 0)%Z; (Z.land ws 0x0008 >? 0)%Z;
             (Z.land ws 0x0010 >? 0)%Z; (Z.land ws 0x0020 >? 0)%Z;
             (Z.land ws 0x0040 >? 0)%Z; (Z.land ws 0x0080 >? 0)%Z;
             (Z.land ws 0x0100 >? 0)%Z; (Z.land ws 0x0200 >? 0)%Z;
             (Z.land ws 0x0400 >? 0)%Z; (Z.land ws 0x0800 >? 0)%Z;
             (Z.land ws 0x1000 >? 0)%Z; (Z.land ws 0x2000 >? 0)%Z;
             (Z.land ws 0x4000 >? 0)%Z; (Z.land ws 0x8000 >? 0)%Z]
            state_labels) "");
    [reflexivity|].
  rewrite (bit_test ws 0 0x0001), (bit_test ws 1 0x0002),
    (bit_test ws 2 0x0004), (bit_test ws 3 0x0008), (bit_test ws 4 0x0010),
    (bit_test ws 5 0x0020), (bit_test ws 6 0x0040), (bit_test ws 7 0x0080),
    (bit_test ws 8 0x0100), (bit_test ws 9 0x0200), (bit_test ws 10 0x0400),
    (bit_test ws 11 0x0800), (bit_test ws 12 0x1000),
    (bit_test ws 13 0x2000), (bit_test ws 14 0x4000),
    (bit_test ws 15 0x8000) by reflexivity.
  rewrite append_labels_concat.
  - reflexivity.
  - repeat (apply Forall_cons; split; [done|]). apply Forall_nil_2.
Qed.

(** ** More on the driver *)

Lemma parse_returns int16 data now s :
  ∃ ev, (parse int16 data now s).2 = Val ev.
Proof.
  unfold parse, try_except.
  match goal with |- context [match ?b s with _ => _ end] =>
    destruct (b s) as [s' [ev|e]] end; by eexists.
Qed.

Lemma getData_record K now s : (getData K now s).1 = s.
Proof.
  unfold getData. cbv [mbind M_bind gets mret M_ret].
  destruct (_ || _); [done|].
  destruct (bool_decide (tempC s ≠ [])).
  - unfold py_getitem. destruct (tempC s !! 0); [|done].
    cbv [range seq Nat.sub for_each mbind M_bind gets mret M_ret py_getitem].
    repeat (match goal with |- context [cellV s !! ?i] =>
              destruct (cellV s !! i) end; [|done]).
    done.
  - cbv [range seq Nat.sub for_each mbind M_bind gets mret M_ret py_getitem].
    repeat (match goal with |- context [cellV s !! ?i] =>
              destruct (cellV s !! i) end; [|done]).
    done.
Qed.

Lemma resetValues_returns s : (resetValues s).2 = Val tt.
Proof. unfold resetValues. by rewrite try_except_unit. Qed.

Section DriverMore.

Variable int16 : list byte → option Z.
Variable K : Consts.
Variable calc_values : dict → list string → res dict.

Lemma at_record_id b w r :
  heap w !! supervoltData b = Some r → at_record b w r = (b, w).
Proof.
  intros H. unfold at_record. rewrite list_insert_id by done. by destruct w.
Qed.

Lemma on_record_at {A} (m : M SupervoltData A) b w r :
  supervoltData b < length (heap w) →
  on_record m (at_record b w r) = (at_record b w (m r).1, (m r).2).
Proof.
  intros Hl. unfold on_record, at_record. cbn [fst snd heap set_heap].
  rewrite list_lookup_insert_eq by done.
  destruct (m r) as [r' a]. cbn [fst snd]. by rewrite list_insert_insert_eq.
Qed.

Lemma handler_at n b w r :
  supervoltData b < length (heap w) →
  _notification_handler int16 n (at_record b w r) =
    (at_record (set__data_event true b) w (parse int16 n.1 n.2 r).1, Val tt).
Proof.
  intros Hl. unfold _notification_handler.
  destruct (parse_returns int16 n.1 n.2 r) as [ev Hev].
  erewrite bind_val; [|rewrite on_record_at by done; by rewrite Hev].
  done.
Qed.

Lemma handlers_at pre ns b w r :
  supervoltData b < length (heap w) →
  for_each (seq (length pre) (length ns)) tt (λ i _,
    match (pre ++ ns) !! i with
    | Some n => _notification_handler int16 n
    | None => mret tt
    end) (at_record b w r) =
  (at_record (set__data_event (_data_event b || arrived ns) b) w
     (handled int16 ns r), Val tt).
Proof.
  intros Hl. revert pre b r Hl.
  induction ns as [|n ns IH]; intros pre b r Hl.
  - unfold arrived. rewrite bool_decide_false by (intros H; by apply H).
    rewrite orb_false_r. by destruct b.
  - cbn [length seq for_each].
    rewrite lookup_app_r, Nat.sub_diag by done. cbn [lookup list_lookup].
    erewrite bind_val; [|by apply handler_at].
    replace (pre ++ n :: ns) with ((pre ++ [n]) ++ ns)
      by (by rewrite <- app_assoc).
    replace (S (length pre)) with (length (pre ++ [n]))
      by (rewrite length_app; cbn; lia).
    rewrite IH by done.
    unfold arrived. rewrite (bool_decide_true (n :: ns ≠ [])) by done.
    rewrite orb_true_r. by destruct b.
Qed.

Lemma suspend_at rp b w r :
  supervoltData b < length (heap w) →
  suspend int16 (at_record b (set_link (rp :: link w) w) r) =
    (at_record
       (set__data_event (_data_event b || arrived (notified rp)) b)
       w (handled int16 (notified rp) r),
     Val (failure rp)).
Proof.
  intros Hl. unfold suspend.
  cbv [mbind M_bind gets on_world modify].
  cbn [at_record fst snd link set_link set_heap head default tail].
  pose proof (handlers_at [] (notified rp) b w r Hl) as H.
  cbn [length app] in H. unfold at_record in H.
  change (id rp) with rp.
  change (set_link (link w) (set_heap _ (set_link (rp :: link w) w)))
    with (set_heap (<[supervoltData b:=r]> (heap w)) w).
  rewrite H. cbv [mret M_ret]. done.
Qed.

Lemma arrived_app ns1 ns2 : arrived (ns1 ++ ns2) = arrived ns1 || arrived ns2.
Proof. by destruct ns1, ns2. Qed.

Lemma handled_app ns1 ns2 r :
  handled int16 (ns1 ++ ns2) r = handled int16 ns2 (handled int16 ns1 r).
Proof. apply foldl_app. Qed.

Lemma world_at_id w : world_at w (link w) (calls w) = w.
Proof. by destruct w. Qed.

Lemma suspend_step rp lk cs b w r :
  supervoltData b < length (heap w) →
  suspend int16 (at_record b (world_at w (rp :: lk) cs) r) =
    (at_record (set__data_event (_data_event b || arrived (notified rp)) b)
       (world_at w lk cs) (handled int16 (notified rp) r),
     Val (failure rp)).
Proof. intros Hl. by apply (suspend_at rp b (world_at w lk cs) r). Qed.

Lemma await_call_step c rp lk cs b w r :
  supervoltData b < length (heap w) →
  await_call int16 c (at_record b (world_at w (rp :: lk) cs) r) =
    (at_record (set__data_event (_data_event b || arrived (notified rp)) b)
       (world_at w lk (cs ++ [c])) (handled int16 (notified rp) r),
     match failure rp with Some e => Exc e | None => Val tt end).
Proof.
  intros Hl. unfold await_call.
  erewrite bind_val; [|reflexivity].
  erewrite bind_val;
    [|by apply (suspend_step rp lk (cs ++ [c]) b w r)].
  by destruct (failure rp).
Qed.

Lemma wait_event_step rp lk cs b w r :
  supervoltData b < length (heap w) →
  wait_event int16 (at_record b (world_at w (rp :: lk) cs) r) =
    if _data_event b || arrived (notified rp)
    then (at_record (set__data_event false b) (world_at w lk cs)
            (handled int16 (notified rp) r), Val tt)
    else (at_record (set__data_event false b) (world_at w lk cs)
            (handled int16 (notified rp) r), Exc TimeoutError).
Proof.
  intros Hl. unfold wait_event.
  erewrite bind_val; [|by apply suspend_step].
  erewrite bind_val; [|reflexivity]. cbn [fst at_record _data_event set__data_event].
  destruct (_data_event b || arrived (notified rp)) eqn:E; [done|].
  unfold raise, at_record. by destruct b.
Qed.

Lemma connect_step rc rs lk cs b w r :
  supervoltData b < length (heap w) →
  (∀ cl, _client b = Some cl → is_connected cl = false) →
  failure rc = None →
  _connect int16 (at_record b (world_at w (rc :: rs :: lk) cs) r) =
    (at_record
       (set__client (Some (mkBleakClient true))
          (set__data_event
             (_data_event b || arrived (notified rc ++ notified rs)) b))
       (world_at w lk (cs ++ [Connect; StartNotify]))
       (handled int16 (notified rc ++ notified rs) r),
     match failure rs with Some e => Exc e | None => Val tt end).
Proof.
  intros Hl Hcl Hrc. unfold _connect.
  erewrite bind_val; [|reflexivity].
  set (b0 := set__client (Some (mkBleakClient false)) b).
  erewrite (bind_val _ _ _ (at_record b0 (world_at w (rc :: rs :: lk) cs) r) tt).
  2:{ cbn [fst at_record]. destruct (_client b) as [cl|] eqn:E; [|done].
      cbv [mret M_ret]. f_equal. unfold at_record. f_equal.
      subst b0. destruct b as [? ? c ? ?]. cbn in *. subst c.
      destruct cl as [ic]. pose proof (Hcl _ eq_refl) as Hic.
      cbn in Hic. by subst ic. }
  erewrite bind_val; [|reflexivity].
  cbn [fst at_record b0 _client set__client is_connected negb].
  erewrite bind_val;
    [|rewrite await_call_step by done; rewrite Hrc; reflexivity].
  erewrite bind_val; [|reflexivity].
  match goal with |- await_call _ _ ?st = _ =>
    change st with
      (at_record
         (set__client (Some (mkBleakClient true))
            (set__data_event (_data_event b || arrived (notified rc)) b))
         (world_at w (rs :: lk) (cs ++ [Connect]))
         (handled int16 (notified rc) r)) end.
  rewrite await_call_step by done.
  rewrite handled_app, arrived_app, <- app_assoc, orb_assoc.
  f_equal.
Qed.

Lemma self_at_record (st : Self) r :
  heap st.2 !! supervoltData st.1 = Some r →
  st = at_record st.1 (world_at st.2 (link st.2) (calls st.2)) r ∧
  supervoltData st.1 < length (heap st.2).
Proof.
  intros Hr. split; [|by eapply lookup_lt_Some].
  destruct st as [b w]. cbn [fst snd] in *.
  rewrite world_at_id. by rewrite at_record_id.
Qed.

(** X8.  How a poll goes when nothing fails: the client is not yet
    connected, the link answers the eight awaits of the poll without a
    failure, some notification has set the event by the end of the first
    wait and another one between the first wait and the end of the
    second.  Then the six calls are made in order (connect, subscribe,
    the two commands, unsubscribe, disconnect), the client ends
    disconnected, the record is the one reset after the notifications of
    the connection and then fed every later notification in order, and
    the poll ends as [getData] on that record decides. *)
Theorem async_update_completes (now : float) (st : Self) (r : SupervoltData)
    (rc rs rw1 re1 rw2 re2 rst rd : reply) (lk : list reply) :
  heap st.2 !! supervoltData st.1 = Some r →
  (∀ cl, _client st.1 = Some cl → is_connected cl = false) →
  link st.2 = rc :: rs :: rw1 :: re1 :: rw2 :: re2 :: rst :: rd :: lk →
  Forall (λ x, failure x = None) [rc; rs; rw1; re1; rw2; re2; rst; rd] →
  _data_event st.1
  || arrived (notified rc ++ notified rs ++ notified rw1 ++ notified re1)
  = true →
  arrived (notified rw2 ++ notified re2) = true →
  let r' :=
    handled int16
      (notified rw1 ++ notified re1 ++ notified rw2 ++ notified re2
       ++ notified rst ++ notified rd)
      (resetValues (handled int16 (notified rc ++ notified rs) r)).1 in
  let st' := (async_update int16 K calc_values now st).1 in
  calls st'.2 =
    calls st.2 ++ [Connect; StartNotify; WriteGattChar command_realtime;
                   WriteGattChar command_capacity; StopNotify; Disconnect] ∧
  link st'.2 = lk ∧
  _client st'.1 = Some (mkBleakClient false) ∧
  supervoltData st'.1 = supervoltData st.1 ∧
  heap st'.2 = <[supervoltData st.1:=r']> (heap st.2) ∧
  (async_update int16 K calc_values now st).2 =
    poll_outcome K calc_values now r'.
Proof.
  intros Hr Hcl Hlk Hok Hev1 Hev2 r' st'.
  destruct (self_at_record st r Hr) as [Hst Hl].
  apply Forall_cons in Hok as [Hc Hok]. apply Forall_cons in Hok as [Hs Hok].
  apply Forall_cons in Hok as [Hw1 Hok]. apply Forall_cons in Hok as [He1 Hok].
  apply Forall_cons in Hok as [Hw2 Hok]. apply Forall_cons in Hok as [He2 Hok].
  apply Forall_cons in Hok as [Hst' Hok]. apply Forall_cons in Hok as [Hd _].
  destruct st as [b w]. cbn [fst snd] in *.
  set (cs := calls w) in *.
  assert (Hev1' : _data_event b || arrived (notified rc ++ notified rs)
                  || arrived (notified rw1) || arrived (notified re1) = true).
  { rewrite <- Hev1, !arrived_app. by rewrite !orb_assoc. }
  assert (Hev2' : arrived (notified rw2) || arrived (notified re2) = true)
    by (by rewrite <- arrived_app).
  assert (Hbody :
    ∃ e, try_except
      (_connect int16;;
       c ← gets (λ st : Self, _client st.1);
       match c with
       | Some _ =>
           on_record resetValues;;
           await_call int16 (WriteGattChar command_realtime);;
           wait_event int16;;
           await_call int16 (WriteGattChar command_capacity);;
           wait_event int16;;
           disconnect int16
       | None => mret tt
       end)
      (λ _, mret tt) (b, w) =
    (at_record
       (set__client (Some (mkBleakClient false)) (set__data_event e b))
       (world_at w lk
          (cs ++ [Connect; StartNotify; WriteGattChar command_realtime;
                  WriteGattChar command_capacity; StopNotify; Disconnect]))
       r', Val tt)).
  { rewrite try_except_unit. eexists. f_equal.
    rewrite Hst at 1. rewrite Hlk.
    erewrite bind_val;
      [|rewrite connect_step by done; rewrite Hs; reflexivity].
    erewrite bind_val; [|reflexivity].
    cbn [fst at_record _client set__client].
    erewrite bind_val;
      [|rewrite on_record_at by done; rewrite resetValues_returns;
        reflexivity].
    cbn [fst].
    erewrite bind_val;
      [|rewrite await_call_step by done; rewrite Hw1; reflexivity].
    erewrite bind_val.
    2:{ rewrite wait_event_step by done.
        cbn [_data_event set__data_event set__client].
        rewrite Hev1'. reflexivity. }
    erewrite bind_val;
      [|rewrite await_call_step by done; rewrite Hw2; reflexivity].
    erewrite bind_val.
    2:{ rewrite wait_event_step by done.
        cbn [_data_event set__data_event set__client orb].
        rewrite Hev2'. reflexivity. }
    unfold disconnect. erewrite bind_val; [|reflexivity].
    cbn [fst at_record _client set__client set__data_event is_connected].
    unfold try_except.
    erewrite bind_val; [|reflexivity].
    erewrite bind_val.
    2:{ match goal with |- await_call _ _ ?s = _ =>
          change s with
            (at_record
               (set__client (Some (mkBleakClient true))
                  (set__data_event false b))
               (world_at w (rst :: rd :: lk)
                  (((cs ++ [Connect; StartNotify])
                    ++ [WriteGattChar command_realtime])
                   ++ [WriteGattChar command_capacity]))
               (handled int16 (notified re2)
                  (handled int16 (notified rw2)
                     (handled int16 (notified re1)
                        (handled int16 (notified rw1)
                           (resetValues
                              (handled int16 (notified rc ++ notified rs) r)).1)))))
        end.
        rewrite await_call_step by done. rewrite Hst'. reflexivity. }
    erewrite bind_val;
      [|rewrite await_call_step by done; rewrite Hd; reflexivity].
    cbv [on_self modify]. cbn [fst snd at_record].
    subst r'. rewrite !handled_app, <- !app_assoc. reflexivity. }
  destruct Hbody as [e Hbody].
  subst st'. unfold async_update.
  erewrite bind_val; [|exact Hbody].
  cbv beta. unfold mbind, M_bind.
  rewrite on_record_at by done. rewrite getData_record.
  unfold poll_outcome.
  destruct (getData K now r').2 as [[d|]|e']; cbn [fst snd].
  - destruct (calc_values d _); cbn; repeat split; done.
  - cbn; repeat split; done.
  - cbn; repeat split; done.
Qed.

(** X9.  Unsubscribing and disconnecting stand in one [try]: when the
    client is connected and the unsubscription fails, [disconnect] makes
    no disconnect call and leaves the client connected; a [BleakError]
    is swallowed and any other failure is raised. *)
Theorem disconnect_gives_up_after_stop_notify (st : Self)
    (r : SupervoltData) (rp : reply) (lk : list reply) (e : exn) :
  heap st.2 !! supervoltData st.1 = Some r →
  _client st.1 = Some (mkBleakClient true) →
  link st.2 = rp :: lk → failure rp = Some e →
  let st' := (disconnect int16 st).1 in
  (disconnect int16 st).2
    = (if decide (e = BleakError) then Val tt else Exc e) ∧
  calls st'.2 = calls st.2 ++ [StopNotify] ∧
  _client st'.1 = Some (mkBleakClient true) ∧
  link st'.2 = lk.
Proof.
  intros Hr Hcl Hlk He st'. subst st'.
  destruct (self_at_record st r Hr) as [Hst Hl].
  destruct st as [b w]. cbn [fst snd] in *.
  rewrite Hst, Hlk. unfold disconnect.
  erewrite bind_val; [|reflexivity].
  cbn [fst at_record]. rewrite Hcl. cbn [is_connected].
  unfold try_except.
  erewrite bind_val; [|reflexivity].
  erewrite bind_exc.
  2:{ match goal with |- await_call _ _ ?s = _ =>
        change s with
          (at_record (set__data_event false b)
             (world_at w (rp :: lk) (calls w)) r) end.
      rewrite await_call_step by done. rewrite He. reflexivity. }
  destruct (decide (e = BleakError)); cbn; by rewrite ?Hcl.
Qed.

(** X10.  A client whose connect call has returned counts as connected,
    whether the subscription that follows succeeds or fails; the next
    [_connect] then returns at once: it makes no call and does not
    subscribe again. *)
Theorem connect_not_repeated (st : Self) (r : SupervoltData)
    (rc rs : reply) (lk : list reply) :
  heap st.2 !! supervoltData st.1 = Some r →
  (∀ cl, _client st.1 = Some cl → is_connected cl = false) →
  link st.2 = rc :: rs :: lk → failure rc = None →
  let st1 := (_connect int16 st).1 in
  (_connect int16 st).2
    = match failure rs with Some e => Exc e | None => Val tt end ∧
  calls st1.2 = calls st.2 ++ [Connect; StartNotify] ∧
  _connect int16 st1 = (st1, Val tt).
Proof.
  intros Hr Hcl Hlk Hc st1. subst st1.
  destruct (self_at_record st r Hr) as [Hst Hl].
  destruct st as [b w]. cbn [fst snd] in *.
  rewrite Hst, Hlk. rewrite connect_step by done.
  cbn [fst snd]. split; [done|]. split; [done|].
  reflexivity.
Qed.

(** *** What a poll keeps *)

Lemma getData_returns now s : wf s → ∃ d, (getData K now s).2 = Val d.
Proof.
  intros Hwf.
  destruct (wf_lists s Hwf)
    as (c0&c1&c2&c3&c4&c5&c6&c7&c8&c9&c10&c11&c12&c13&c14&c15&t0&t1&t2&t3
        &Hc&Ht).
  destruct s as [cv tv so ws al ca da la tc co re de lu ad cm ve le ba dn cn].
  simpl in Hc, Ht; subst. clear Hwf.
  cbv [getData mbind M_bind gets mret M_ret cellV tempC totalV
       loadA soc remainingAh lastUpdatetime].
  destruct (_ || _); [by eexists|].
  rewrite bool_decide_true by done.
  cbv [py_getitem for_each range seq Nat.sub mbind M_bind mret M_ret
       lookup list_lookup].
  by eexists.
Qed.

Lemma has_record_on_record {A} (m : M SupervoltData A) :
  (∀ s, wf s → wf (m s).1) → preserves has_record (on_record m).
Proof.
  intros Hm [b w] (r & Hr & Hwf). unfold on_record. cbn [fst snd] in *.
  rewrite Hr. destruct (m r) as [r' a] eqn:E. cbn [fst snd].
  exists r'. split.
  - apply list_lookup_insert_eq. by eapply lookup_lt_Some.
  - specialize (Hm r Hwf). by rewrite E in Hm.
Qed.

Lemma has_record_handler n :
  preserves has_record (_notification_handler int16 n).
Proof.
  unfold _notification_handler. apply preserves_bind.
  - apply has_record_on_record. intros s. apply parse_wf.
  - intros _. by apply preserves_on_self.
Qed.

Lemma has_record_suspend : preserves has_record (suspend int16).
Proof.
  unfold suspend. apply preserves_bind; [apply preserves_gets|].
  intros l. apply preserves_bind; [by apply preserves_on_world|].
  intros _. apply preserves_bind; [|intros; apply preserves_ret].
  apply preserves_for_each. intros i _.
  destruct (_ !! i); [apply has_record_handler|apply preserves_ret].
Qed.

(** The [try] statement of [async_update] keeps [I], if the awaits and
    the assignments do. *)
Lemma poll_body_keeps (I : Self → Prop) :
  preserves I (suspend int16) →
  (∀ st c, I st → I (st.1, set_calls c st.2)) →
  (∀ st b, I st → I (set__client (Some (mkBleakClient b)) st.1, st.2)) →
  (∀ st e, I st → I (set__data_event e st.1, st.2)) →
  preserves I (on_record resetValues) →
  preserves I
    (try_except
       (_connect int16;;
        c ← gets (λ st : Self, _client st.1);
        match c with
        | Some _ =>
            on_record resetValues;;
            await_call int16 (WriteGattChar command_realtime);;
            wait_event int16;;
            await_call int16 (WriteGattChar command_capacity);;
            wait_event int16;;
            disconnect int16
        | None => mret tt
        end)
       (λ _, mret tt)).
Proof.
  intros Hs Hc Hk He Hreset.
  apply preserves_try_except; [|intros; apply preserves_ret].
  apply preserves_bind; [by apply connect_keeps|]. intros _.
  apply preserves_bind; [apply preserves_gets|].
  intros [cl|]; [|apply preserves_ret].
  apply preserves_bind; [done|]. intros _.
  apply preserves_bind; [by apply await_call_keeps|]. intros _.
  apply preserves_bind; [by apply wait_event_keeps|]. intros _.
  apply preserves_bind; [by apply await_call_keeps|]. intros _.
  apply preserves_bind; [by apply wait_event_keeps|]. intros _.
  by apply disconnect_keeps.
Qed.

(** X11.  No failure of the link reaches the caller of a poll: whatever
    the link answers, and whatever it hands over, [async_update] on an
    instance with its record either returns, or raises the
    [AssertionError] of the missing data, or raises what [calc_values]
    raised. *)
Theorem async_update_raises_only (now : float) (st : Self) (e : exn) :
  has_record st →
  (async_update int16 K calc_values now st).2 = Exc e →
  e = AssertionError ∨
  ∃ data, calc_values data [ATTR_POWER K; ATTR_BATTERY_CHARGING K;
                            ATTR_DELTA_VOLTAGE K] = Exc e.
Proof.
  intros Hrec. unfold async_update.
  pose proof (poll_body_keeps has_record has_record_suspend) as Hkeep.
  match type of Hkeep with _ → _ → _ → _ → preserves _ ?m =>
    set (body := m) in * end.
  assert (H1 : has_record (body st).1).
  { apply Hkeep; try done.
    apply has_record_on_record. intros s. apply resetValues_wf. }
  assert (H2 : (body st).2 = Val tt).
  { subst body. by rewrite try_except_unit. }
  unfold mbind, M_bind.
  destruct (body st) as [st1 x]. cbn [fst snd] in H1, H2. subst x.
  destruct H1 as (r1 & Hr1 & Hwf1).
  unfold on_record. rewrite Hr1.
  destruct (getData_returns now r1 Hwf1) as [d Hd].
  destruct (getData K now r1) as [r2 x]. cbn [snd] in Hd. subst x.
  destruct d as [d|]; cbn.
  - destruct (calc_values d _) eqn:Ecalc; cbn; [done|].
    intros [= <-]. right. by eexists.
  - intros [= <-]. by left.
Qed.

(** X12.  Nothing writes the dictionary [BMS.supervoltDatas]: it is the
    same after [BMS(...)], after a poll and after [disconnect], however
    they end. *)
Theorem supervoltDatas_never_written :
  (∀ dev reconnect w,
     supervoltDatas (BMS_init dev reconnect w).1 = supervoltDatas w) ∧
  (∀ now st,
     supervoltDatas (async_update int16 K calc_values now st).1.2
     = supervoltDatas st.2) ∧
  (∀ st, supervoltDatas (disconnect int16 st).1.2 = supervoltDatas st.2).
Proof.
  split; [|split].
  - intros dev rc w. unfold BMS_init. by destruct (ble_name dev).
  - intros now st.
    set (I := λ st' : Self, supervoltDatas st'.2 = supervoltDatas st.2).
    assert (Hh : ∀ st0 h, I st0 → I (st0.1, set_heap h st0.2)) by done.
    assert (Hsus : preserves I (suspend int16)).
    { unfold suspend. apply preserves_bind; [apply preserves_gets|].
      intros l. apply preserves_bind; [by apply preserves_on_world|].
      intros _. apply preserves_bind; [|intros; apply preserves_ret].
      apply preserves_for_each. intros i _.
      destruct (_ !! i); [|apply preserves_ret].
      apply preserves_bind; [by apply preserves_on_record|].
      intros _. by apply preserves_on_self. }
    enough (preserves I (async_update int16 K calc_values now)) as H
      by (by apply H).
    unfold async_update. apply preserves_bind.
    { apply poll_body_keeps; try done. by apply preserves_on_record. }
    intros _. apply preserves_bind; [by apply preserves_on_record|].
    intros [d|]; [|apply preserves_raise].
    destruct (calc_values d _); [apply preserves_ret|apply preserves_raise].
  - intros st.
    set (I := λ st' : Self, supervoltDatas st'.2 = supervoltDatas st.2).
    enough (preserves I (disconnect int16)) as H by (by apply H).
    apply disconnect_keeps; try done.
    unfold suspend. apply preserves_bind; [apply preserves_gets|].
    intros l. apply preserves_bind; [by apply preserves_on_world|].
    intros _. apply preserves_bind; [|intros; apply preserves_ret].
    apply preserves_for_each. intros i _.
    destruct (_ !! i); [|apply preserves_ret].
    apply preserves_bind; [by apply preserves_on_record|].
    intros _. by apply preserves_on_self.
Qed.

End DriverMore.

(** ** The steps of the configuration flow *)

Lemma item_set_fresh {V} (k : string) (v : V) d :
  k ∉ d.*1 → item_set k v d = d ++ [(k, v)].
Proof.
  induction d as [|[k' v'] d IH]; intros Hk; [done|].
  cbn. destruct (String.eqb k' k) eqn:E.
  - apply String.eqb_eq in E as ->. exfalso. apply Hk. left.
  - rewrite IH; [done|]. intros H. apply Hk. by right.
Qed.

Lemma item_get_NoDup {V} (k : string) (v : V) d :
  NoDup d.*1 → (k, v) ∈ d → item_get k d = Some v.
Proof.
  induction d as [|[k' v'] d IH]; intros Hnd Hin;
    [by apply elem_of_nil in Hin|].
  cbn in *. apply NoDup_cons in Hnd as [Hk' Hnd].
  apply elem_of_cons in Hin as [[= <- <-]|Hin].
  - by rewrite String.eqb_refl.
  - destruct (String.eqb k' k) eqn:E; [|by apply IH].
    apply String.eqb_eq in E as ->. exfalso. apply Hk'.
    apply list_elem_of_fmap. by exists (k, v).
Qed.

Lemma item_get_None {V} (k : string) (d : list (string * V)) :
  k ∉ d.*1 → item_get k d = None.
Proof.
  induction d as [|[k' v'] d IH]; intros Hk; [done|].
  cbn. destruct (String.eqb k' k) eqn:E.
  - apply String.eqb_eq in E as ->. exfalso. apply Hk. left.
  - apply IH. intros H. apply Hk. by right.
Qed.

Section UserStepFacts.

Variable BmsType : Type.
Variable BmsTypes : list BmsType.
Variable type_name : BmsType → string.
Variable globals : string → option BaseBMS.
Variable type_truthy : BmsType → bool.
Variable CONF_ADDRESS : string.
Variable _async_current_ids : gset string.
Variable _abort_if_unique_id_configured : option string → res unit.

(** Every member of the enumeration has its class in the name space. *)
Hypothesis classes_found :
  ∀ t, t ∈ BmsTypes → is_Some (globals (type_name t)).

Lemma discover_step info self :
  discover BmsType BmsTypes type_name globals type_truthy
    _async_current_ids info self =
  ({| unique_id := unique_id self;
      title_placeholders := title_placeholders self;
      _discovered_device := _discovered_device self;
      _discovered_devices := (discovered_step BmsType BmsTypes type_name globals type_truthy _async_current_ids) (_discovered_devices self) info |},
   Val tt).
Proof.
  unfold discover, discovered_step, offered.
  cbv [mbind M_bind gets mret M_ret modify raise].
  destruct (bool_decide (info_address info ∈ _async_current_ids)) eqn:E1;
    cbn [orb]; [by destruct self|].
  destruct (bool_decide (info_address info ∈ (_discovered_devices self).*1))
    eqn:E2; [by destruct self|].
  apply bool_decide_eq_false in E2.
  destruct (device_supported_from_spec BmsType type_name globals BmsTypes info
              classes_found) as (_ & _ & [r Hr]).
  unfold _device_supported. rewrite Hr.
  destruct r as [t|]; [|by destruct self].
  destruct (type_truthy t); cbn [negb]; [|by destruct self].
  by rewrite item_set_fresh.
Qed.

Lemma for_in_discover infos self :
  for_in infos
    (discover BmsType BmsTypes type_name globals type_truthy
       _async_current_ids) self =
  ({| unique_id := unique_id self;
      title_placeholders := title_placeholders self;
      _discovered_device := _discovered_device self;
      _discovered_devices := (discovered BmsType BmsTypes type_name globals type_truthy _async_current_ids) infos (_discovered_devices self) |},
   Val tt).
Proof.
  revert self. induction infos as [|info infos IH]; intros self.
  - by destruct self.
  - cbn [for_in]. erewrite bind_val; [|apply discover_step].
    by rewrite IH.
Qed.

Lemma found_step_cases D info :
  (discovered_step BmsType BmsTypes type_name globals type_truthy _async_current_ids) D info = D ∨
  ∃ t, (discovered_step BmsType BmsTypes type_name globals type_truthy _async_current_ids) D info
       = D ++ [(info_address info,
                mkDiscoveredDevice (info_name info) info t)] ∧
       (info_address info ∉ _async_current_ids) ∧
       (info_address info ∉ D.*1) ∧
       (offered BmsType BmsTypes type_name globals type_truthy) info = Some t.
Proof.
  unfold discovered_step.
  destruct (bool_decide (info_address info ∈ _async_current_ids)) eqn:E1;
    cbn [orb]; [by left|].
  destruct (bool_decide (info_address info ∈ D.*1)) eqn:E2; [by left|].
  apply bool_decide_eq_false in E1, E2.
  destruct ((offered BmsType BmsTypes type_name globals type_truthy) info) as [t|]; [|by left].
  right. by exists t.
Qed.

Lemma found_step_skips D info :
  (discovered_step BmsType BmsTypes type_name globals type_truthy _async_current_ids) D info = D →
  info_address info ∈ _async_current_ids ∨ info_address info ∈ D.*1 ∨
  (offered BmsType BmsTypes type_name globals type_truthy) info = None.
Proof.
  unfold discovered_step.
  destruct (bool_decide (info_address info ∈ _async_current_ids)) eqn:E1;
    cbn [orb]; [apply bool_decide_eq_true in E1; by left|].
  destruct (bool_decide (info_address info ∈ D.*1)) eqn:E2;
    [apply bool_decide_eq_true in E2; by right; left|].
  destruct ((offered BmsType BmsTypes type_name globals type_truthy) info) as [t|]; [|by right; right].
  intros H. apply (f_equal length) in H. rewrite length_app in H.
  cbn in H. lia.
Qed.

(** The devices after the loop: those before, in their places, and
    after them one entry for each address that is new, not configured
    and offered, made from the first of its discoveries that is
    offered. *)
Lemma found_spec infos (D : list (string * DiscoveredDevice BmsType)) :
  NoDup D.*1 →
  D `prefix_of` (discovered BmsType BmsTypes type_name globals type_truthy _async_current_ids) infos D ∧
  NoDup ((discovered BmsType BmsTypes type_name globals type_truthy _async_current_ids) infos D).*1 ∧
  (∀ a d, (a, d) ∈ (discovered BmsType BmsTypes type_name globals type_truthy _async_current_ids) infos D →
     (a, d) ∈ D ∨
     (a ∉ _async_current_ids) ∧ (a ∉ D.*1) ∧
     dd_discovery_info d ∈ infos ∧
     a = info_address (dd_discovery_info d) ∧
     dd_name d = info_name (dd_discovery_info d) ∧
     (offered BmsType BmsTypes type_name globals type_truthy) (dd_discovery_info d) = Some (dd_type d)) ∧
  (∀ i info t,
     infos !! i = Some info →
     info_address info ∉ _async_current_ids →
     info_address info ∉ D.*1 →
     (offered BmsType BmsTypes type_name globals type_truthy) info = Some t →
     (∀ j info', j < i → infos !! j = Some info' →
        info_address info' = info_address info → (offered BmsType BmsTypes type_name globals type_truthy) info' = None) →
     (info_address info, mkDiscoveredDevice (info_name info) info t)
       ∈ (discovered BmsType BmsTypes type_name globals type_truthy _async_current_ids) infos D).
Proof.
  revert D. induction infos as [|info0 infos IH]; intros D Hnd.
  { cbn. split; [done|]. split; [done|]. split; [by left|].
    intros i info t Hi. by rewrite lookup_nil in Hi. }
  unfold discovered. cbn [foldl]. fold (discovered BmsType BmsTypes type_name globals type_truthy _async_current_ids infos (discovered_step BmsType BmsTypes type_name globals type_truthy _async_current_ids D info0)).
  destruct (found_step_cases D info0) as [Hsame|(t0 & Hnew & Hc0 & Hd0 & Ho0)].
  - rewrite Hsame. destruct (IH D Hnd) as (Hp & Hn & Hin & Hfirst).
    split; [done|]. split; [done|]. split.
    + intros a d Had. destruct (Hin a d Had) as [?|(?&?&?&?&?&?)]; [by left|].
      right. repeat split; try done. by right.
    + intros [|i] info t Hi Hc Hd Ho Hbefore; cbn in Hi.
      * injection Hi as ->. apply found_step_skips in Hsame.
        destruct Hsame as [?|[?|?]]; [done|done|congruence].
      * apply (Hfirst i); try done.
        intros j info' Hj Hj' Ha. apply (Hbefore (S j)); [lia|done|done].
  - rewrite Hnew.
    set (e0 := (info_address info0,
                mkDiscoveredDevice (info_name info0) info0 t0)).
    assert (Hnd' : NoDup (D ++ [e0]).*1).
    { rewrite fmap_app. apply NoDup_app. split; [done|]. split.
      - intros a Ha ->%list_elem_of_singleton. done.
      - apply NoDup_singleton. }
    destruct (IH (D ++ [e0]) Hnd') as (Hp & Hn & Hin & Hfirst).
    split; [by etrans; [apply prefix_app_r|exact Hp]|].
    split; [done|]. split.
    + intros a d Had.
      destruct (Hin a d Had) as [Hold|(Hc & Hd & Hi & Ha & Hname & Ho)].
      * apply elem_of_app in Hold as [?|Hold]; [by left|].
        apply list_elem_of_singleton in Hold. injection Hold as -> ->.
        right. cbn. repeat split; try done. left.
      * right. repeat split; try done.
        -- intros H. apply Hd. rewrite fmap_app. apply elem_of_app. by left.
        -- by right.
    + intros [|i] info t Hi Hc Hd Ho Hbefore; cbn in Hi.
      * injection Hi as <-. assert (t = t0) as -> by congruence.
        destruct Hp as [l ->]. apply elem_of_app. left.
        apply elem_of_app. right. left.
      * destruct (decide (info_address info = info_address info0)) as [E|E].
        { specialize (Hbefore 0 info0). cbn in Hbefore.
          rewrite Hbefore in Ho0; [done|lia|done|done]. }
        apply (Hfirst i); try done.
        -- rewrite fmap_app. intros [H|H]%elem_of_app; [done|].
           apply list_elem_of_singleton in H. done.
        -- intros j info' Hj Hj' Ha. apply (Hbefore (S j)); [lia|done|done].
Qed.

Lemma user_step_discovery infos self :
  async_step_user BmsType BmsTypes type_name globals type_truthy
    CONF_ADDRESS _async_current_ids infos _abort_if_unique_id_configured
    None self =
  let D' :=
    discovered BmsType BmsTypes type_name globals type_truthy
      _async_current_ids infos (_discovered_devices self) in
  ({| unique_id := unique_id self;
      title_placeholders := title_placeholders self;
      _discovered_device := _discovered_device self;
      _discovered_devices := D' |},
   Val (if bool_decide (D' = []) then AsyncAbort "no_devices_found"
        else AsyncShowForm "user"
               (Some (map (λ ad, (ad.1, dd_name ad.2)) D')) None)).
Proof.
  unfold async_step_user.
  erewrite bind_val; [|apply for_in_discover].
  cbv [mbind M_bind gets mret M_ret _discovered_devices].
  by destruct (bool_decide _).
Qed.

(** X13.  The user step without input, on a flow whose known devices
    have distinct addresses, raises nothing.  It keeps the devices known
    before, in their places, and adds after them one entry for each
    address that is new, not configured and offered: the entry is made
    from the first discovery of that address that is offered, later
    ones change nothing.  It aborts with [no_devices_found] when no
    device is known then, and otherwise shows the form with one option
    for each known device, in that order, labelled with its name. *)
Theorem async_step_user_discovers
    (infos : list BluetoothServiceInfoBleak) (self : Flow BmsType) :
  NoDup (_discovered_devices self).*1 →
  ∃ self',
    let D := _discovered_devices self in
    let D' := _discovered_devices self' in
    async_step_user BmsType BmsTypes type_name globals type_truthy
      CONF_ADDRESS _async_current_ids infos _abort_if_unique_id_configured
      None self =
    (self', Val (if bool_decide (D' = []) then AsyncAbort "no_devices_found"
                 else AsyncShowForm "user"
                        (Some (map (λ ad, (ad.1, dd_name ad.2)) D'))
                        None)) ∧
    D `prefix_of` D' ∧
    NoDup D'.*1 ∧
    (∀ a d, (a, d) ∈ D' →
       (a, d) ∈ D ∨
       (a ∉ _async_current_ids) ∧ (a ∉ D.*1) ∧
       dd_discovery_info d ∈ infos ∧
       a = info_address (dd_discovery_info d) ∧
       dd_name d = info_name (dd_discovery_info d) ∧
       offered BmsType BmsTypes type_name globals type_truthy
         (dd_discovery_info d) = Some (dd_type d)) ∧
    (∀ i info t,
       infos !! i = Some info →
       info_address info ∉ _async_current_ids →
       info_address info ∉ D.*1 →
       offered BmsType BmsTypes type_name globals type_truthy info
         = Some t →
       (∀ j info', j < i → infos !! j = Some info' →
          info_address info' = info_address info →
          offered BmsType BmsTypes type_name globals type_truthy info'
            = None) →
       (info_address info, mkDiscoveredDevice (info_name info) info t)
         ∈ D').
Proof.
  intros Hnd. rewrite user_step_discovery.
  exists {| unique_id := unique_id self;
            title_placeholders := title_placeholders self;
            _discovered_device := _discovered_device self;
            _discovered_devices :=
              discovered BmsType BmsTypes type_name globals type_truthy
                _async_current_ids infos (_discovered_devices self) |}.
  cbn zeta. split; [reflexivity|]. cbn [_discovered_devices].
  by apply found_spec.
Qed.

(** X14.  Every option that the user step shows can be chosen: when the
    flow's known devices had distinct addresses, the step without input
    showed the form, and the check of the unique id lets the chosen
    address pass, the step with the value of an option as address
    raises no [KeyError]; it creates the entry titled with the label of
    that option, typed with the name of the type under which the device
    was discovered, and leaves the address as unique id. *)
Theorem async_step_user_creates_offered
    (infos infos' : list BluetoothServiceInfoBleak)
    (self self1 : Flow BmsType) (step_id : string)
    (options : list (string * string)) (address label : string)
    (user_input : gmap string string) :
  NoDup (_discovered_devices self).*1 →
  async_step_user BmsType BmsTypes type_name globals type_truthy
    CONF_ADDRESS _async_current_ids infos _abort_if_unique_id_configured
    None self = (self1, Val (AsyncShowForm step_id (Some options) None)) →
  (address, label) ∈ options →
  user_input !! CONF_ADDRESS = Some address →
  _abort_if_unique_id_configured (Some address) = Val tt →
  ∃ device self2,
    async_step_user BmsType BmsTypes type_name globals type_truthy
      CONF_ADDRESS _async_current_ids infos' _abort_if_unique_id_configured
      (Some user_input) self1 =
    (self2, Val (AsyncCreateEntry label (type_name (dd_type device)))) ∧
    (address, device) ∈ _discovered_devices self1 ∧
    dd_name device = label ∧
    _discovered_device self2 = Some device ∧
    unique_id self2 = Some address ∧
    _discovered_devices self2 = _discovered_devices self1.
Proof.
  intros Hnd Hstep Hopt Hui Hpass.
  rewrite user_step_discovery in Hstep. cbn zeta in Hstep.
  destruct (found_spec infos _ Hnd) as (_ & Hnd1 & _).
  destruct (bool_decide _); [done|].
  injection Hstep as <- _ <-.
  apply list_elem_of_fmap in Hopt as ([a d] & [= -> ->] & Hin).
  cbn [fst snd] in *.
  exists d. eexists.
  unfold async_step_user. rewrite Hui.
  cbv [mbind M_bind gets mret M_ret modify unique_id _discovered_devices].
  rewrite Hpass.
  rewrite (item_get_NoDup a d) by done.
  cbn. done.
Qed.

Variable async_set_unique_id : string → res unit.

(** X15.  The Bluetooth step, when the unique id of the device is
    accepted: for a device that no class claims it aborts with
    [not_supported] and stores no device; for a device that some class
    claims it shows the confirmation form with the name of the device,
    and the confirmation that follows creates the entry titled with that
    name and typed with the name of the first type, in the order of the
    enumeration, whose class claims the device.  The truth value of the
    type plays no part here. *)
Theorem async_step_bluetooth_confirms_first_match
    (discovery_info : BluetoothServiceInfoBleak) (self : Flow BmsType) :
  async_set_unique_id (info_address discovery_info) = Val tt →
  _abort_if_unique_id_configured (Some (info_address discovery_info))
    = Val tt →
  ((∀ u, u ∈ BmsTypes →
      claims BmsType type_name globals u discovery_info = false) →
   ∃ self1,
     async_step_bluetooth BmsType BmsTypes type_name globals
       _abort_if_unique_id_configured async_set_unique_id discovery_info
       self = (self1, Val (AsyncAbort "not_supported")) ∧
     _discovered_device self1 = _discovered_device self ∧
     _discovered_devices self1 = _discovered_devices self) ∧
  (∀ k t,
     BmsTypes !! k = Some t →
     claims BmsType type_name globals t discovery_info = true →
     (∀ j u, j < k → BmsTypes !! j = Some u →
        claims BmsType type_name globals u discovery_info = false) →
     ∃ self1,
       async_step_bluetooth BmsType BmsTypes type_name globals
         _abort_if_unique_id_configured async_set_unique_id discovery_info
         self =
       (self1, Val (AsyncShowForm "bluetooth_confirm" None
                      (Some (info_name discovery_info)))) ∧
       unique_id self1 = Some (info_address discovery_info) ∧
       _discovered_devices self1 = _discovered_devices self ∧
       ∀ user_input,
         async_step_bluetooth_confirm BmsType type_name (Some user_input)
           self1 =
         (self1, Val (AsyncCreateEntry (info_name discovery_info)
                        (type_name t)))).
Proof.
  intros Hset Hpass.
  destruct (device_supported_from_spec BmsType type_name globals BmsTypes
              discovery_info classes_found) as (Hsome & Hnone & _).
  split.
  - intros Hno. apply Hnone in Hno.
    unfold async_step_bluetooth, _device_supported.
    cbv [mbind M_bind gets mret M_ret modify unique_id].
    rewrite Hset, Hpass, Hno. by eexists.
  - intros k t Hk Hc Hfirst.
    assert (Ht : device_supported_from BmsType type_name globals BmsTypes
                   discovery_info = Val (Some t))
      by (apply Hsome; eauto).
    unfold async_step_bluetooth, _device_supported,
      async_step_bluetooth_confirm.
    cbv [mbind M_bind gets mret M_ret modify unique_id _discovered_device].
    rewrite Hset, Hpass, Ht. cbn. by eexists.
Qed.

End UserStepFacts.

(** ** The further properties on the sample data *)

Lemma sample_classes_found :
  ∀ t, t ∈ sample_types → is_Some (sample_globals (id t)).
Proof.
  intros t Ht. apply list_elem_of_In in Ht. cbn in Ht.
  destruct Ht as [<-|[<-|[<-|[]]]]; by eexists.
Qed.

Lemma parse_whole_frame_witness :
  let fields := frame_fields (length frame_ok) in
  let whole := if decide (length frame_ok = 128) then Realtime else Capacity in
  ((parse py_int16 frame_ok (float_of_Z 1000) fresh_record).2 = Val whole ↔
   ∀ r, r ∈ fields → is_Some (decode_at py_int16 frame_ok r)) ∧
  ((parse py_int16 frame_ok (float_of_Z 1000) fresh_record).2 = Val whole →
   lastUpdatetime (parse py_int16 frame_ok (float_of_Z 1000) fresh_record).1
     = float_of_Z 1000 ∧
   ∀ g a b n, (g, (a, b)) ∈ fields →
     py_int16 (py_slice a b frame_ok) = Some n →
     read g (parse py_int16 frame_ok (float_of_Z 1000) fresh_record).1
       = Some (stored g n)).
Proof.
  apply (parse_whole_frame py_int16 frame_ok (float_of_Z 1000) fresh_record).
  - exact fresh_record_wf.
  - left. reflexivity.
Defined.

Lemma parse_frames_disjoint_witness :
  (length frame_capacity = 30 →
   realtime_part (parse py_int16 frame_capacity (float_of_Z 1001) record_ok).1
     = realtime_part record_ok) ∧
  (length frame_capacity = 128 →
   capacity_part (parse py_int16 frame_capacity (float_of_Z 1001) record_ok).1
     = capacity_part record_ok).
Proof.
  apply (parse_frames_disjoint py_int16 frame_capacity (float_of_Z 1001)
           record_ok).
  exact record_ok_wf.
Defined.

Lemma parse_keeps_shape_witness :
  ∃ s' ev,
    parse py_int16 frame_bad_cell (float_of_Z 2000) record_ok = (s', Val ev) ∧
    wf s' ∧ drop 11 (cellV s') = drop 11 (cellV record_ok).
Proof.
  apply (parse_keeps_shape py_int16 frame_bad_cell (float_of_Z 2000)
           record_ok).
  exact record_ok_wf.
Defined.

Lemma parse_twice_witness :
  parse py_int16 frame_bad_cell (float_of_Z 2000)
    (parse py_int16 frame_bad_cell (float_of_Z 1000) record_ok).1
  = parse py_int16 frame_bad_cell (float_of_Z 2000) record_ok.
Proof.
  apply (parse_twice py_int16 frame_bad_cell (float_of_Z 1000)
           (float_of_Z 2000) record_ok).
  exact record_ok_wf.
Defined.

Lemma no_data_without_realtime_header_witness :
  let s' := (parse py_int16 frame_capacity (float_of_Z 1001)
               (resetValues record_ok).1).1 in
  getData sample_consts (float_of_Z 1002) s' = (s', Val None).
Proof.
  apply (no_data_without_realtime_header py_int16 sample_consts
           frame_capacity (float_of_Z 1001) (float_of_Z 1002) record_ok).
  - exact record_ok_wf.
  - left. vm_compute. lia.
Defined.

Lemma getWorkingStateTextShort_bits_witness :
  getWorkingStateTextShort record_protected =
    if Z.testbit 0x0124 12 && Z.testbit 0x0124 13 && Z.testbit 0x0124 14
       && Z.testbit 0x0124 15 then "Normal"
    else if Z.testbit 0x0124 2 || Z.testbit 0x0124 3 then "Schutzschaltung"
    else if Z.testbit 0x0124 5 then "Kurzschluss"
    else if Z.testbit 0x0124 8 || Z.testbit 0x0124 10 then "Überhitzt"
    else if Z.testbit 0x0124 9 || Z.testbit 0x0124 11 then "Unterkühlt"
    else "Unbekannt".
Proof.
  apply (getWorkingStateTextShort_bits record_protected 0x0124).
  reflexivity.
Defined.

Lemma getWorkingStateText_labels_witness :
  getWorkingStateText record_protected
  = String.concat " | " (labels_of 0x0124).
Proof.
  apply (getWorkingStateText_labels record_protected 0x0124).
  reflexivity.
Defined.

Lemma async_update_completes_witness :
  let st := (sample_driver, sample_world sample_link_ok) in
  let r' :=
    handled py_int16
      ([] ++ [(frame_ok, float_of_Z 1000)] ++ []
       ++ [(frame_capacity, float_of_Z 1001)] ++ [] ++ [])
      (resetValues (handled py_int16 ([] ++ []) fresh_record)).1 in
  let st' :=
    (async_update py_int16 sample_consts no_calc (float_of_Z 1002) st).1 in
  calls st'.2 =
    calls st.2 ++ [Connect; StartNotify; WriteGattChar command_realtime;
                   WriteGattChar command_capacity; StopNotify; Disconnect] ∧
  link st'.2 = [] ∧
  _client st'.1 = Some (mkBleakClient false) ∧
  supervoltData st'.1 = supervoltData st.1 ∧
  heap st'.2 = <[supervoltData st.1:=r']> (heap st.2) ∧
  (async_update py_int16 sample_consts no_calc (float_of_Z 1002) st).2 =
    poll_outcome sample_consts no_calc (float_of_Z 1002) r'.
Proof.
  apply (async_update_completes py_int16 sample_consts no_calc
           (float_of_Z 1002) (sample_driver, sample_world sample_link_ok)
           fresh_record
           (mkReply [] None) (mkReply [] None)
           (mkReply [] None) (mkReply [(frame_ok, float_of_Z 1000)] None)
           (mkReply [] None)
           (mkReply [(frame_capacity, float_of_Z 1001)] None)
           (mkReply [] None) (mkReply [] None) []).
  - reflexivity.
  - intros cl H. discriminate H.
  - reflexivity.
  - repeat (apply Forall_cons; split; [reflexivity|]). apply Forall_nil_2.
  - reflexivity.
  - reflexivity.
Defined.

Lemma disconnect_gives_up_after_stop_notify_witness :
  let st := (connected_driver, sample_world [mkReply [] (Some BleakError)]) in
  let st' := (disconnect py_int16 st).1 in
  (disconnect py_int16 st).2
    = (if decide (BleakError = BleakError) then Val tt else Exc BleakError) ∧
  calls st'.2 = calls st.2 ++ [StopNotify] ∧
  _client st'.1 = Some (mkBleakClient true) ∧
  link st'.2 = [].
Proof.
  apply (disconnect_gives_up_after_stop_notify py_int16
           (connected_driver, sample_world [mkReply [] (Some BleakError)])
           fresh_record (mkReply [] (Some BleakError)) [] BleakError).
  - reflexivity.
  - reflexivity.
  - reflexivity.
  - reflexivity.
Defined.

Lemma connect_not_repeated_witness :
  let st := (sample_driver, sample_world sample_link_failing) in
  let st1 := (_connect py_int16 st).1 in
  (_connect py_int16 st).2
    = match failure (mkReply [] (Some BleakError)) with
      | Some e => Exc e
      | None => Val tt
      end ∧
  calls st1.2 = calls st.2 ++ [Connect; StartNotify] ∧
  _connect py_int16 st1 = (st1, Val tt).
Proof.
  apply (connect_not_repeated py_int16
           (sample_driver, sample_world sample_link_failing) fresh_record
           (mkReply [] None) (mkReply [] (Some BleakError)) []).
  - reflexivity.
  - intros cl H. discriminate H.
  - reflexivity.
  - reflexivity.
Defined.

Lemma async_update_raises_only_witness :
  AssertionError = AssertionError ∨
  ∃ data, no_calc data [ATTR_POWER sample_consts;
                        ATTR_BATTERY_CHARGING sample_consts;
                        ATTR_DELTA_VOLTAGE sample_consts]
          = Exc AssertionError.
Proof.
  apply (async_update_raises_only py_int16 sample_consts no_calc
           (float_of_Z 1000)
           (sample_driver, sample_world sample_link_failing)).
  - exists fresh_record. split; [reflexivity|exact fresh_record_wf].
  - vm_compute. reflexivity.
Defined.

Lemma async_step_user_discovers_witness :
  ∃ self',
    let D := _discovered_devices (Flow_init (BmsType := string)) in
    let D' := _discovered_devices self' in
    async_step_user string sample_types id sample_globals (λ _, true)
      "address" ∅ sample_infos (λ _, Val tt) None Flow_init =
    (self', Val (if bool_decide (D' = []) then AsyncAbort "no_devices_found"
                 else AsyncShowForm "user"
                        (Some (map (λ ad, (ad.1, dd_name ad.2)) D'))
                        None)) ∧
    D `prefix_of` D' ∧
    NoDup D'.*1 ∧
    (∀ a d, (a, d) ∈ D' →
       (a, d) ∈ D ∨
       (a ∉ (∅ : gset string)) ∧ (a ∉ D.*1) ∧
       dd_discovery_info d ∈ sample_infos ∧
       a = info_address (dd_discovery_info d) ∧
       dd_name d = info_name (dd_discovery_info d) ∧
       offered string sample_types id sample_globals (λ _, true)
         (dd_discovery_info d) = Some (dd_type d)) ∧
    (∀ i info t,
       sample_infos !! i = Some info →
       info_address info ∉ (∅ : gset string) →
       info_address info ∉ D.*1 →
       offered string sample_types id sample_globals (λ _, true) info
         = Some t →
       (∀ j info', j < i → sample_infos !! j = Some info' →
          info_address info' = info_address info →
          offered string sample_types id sample_globals (λ _, true) info'
            = None) →
       (info_address info, mkDiscoveredDevice (info_name info) info t)
         ∈ D').
Proof.
  apply (async_step_user_discovers string sample_types id sample_globals
           (λ _, true) "address" ∅ (λ _, Val tt) sample_classes_found
           sample_infos Flow_init).
  apply NoDup_nil_2.
Defined.

Lemma async_step_user_creates_offered_witness :
  ∃ device self2,
    async_step_user string sample_types id sample_globals (λ _, true)
      "address" ∅ [] (λ _, Val tt) (Some sample_user_input) sample_flow =
    (self2, Val (AsyncCreateEntry "libatt-0001" (id (dd_type device)))) ∧
    ("AA:BB:CC:DD:EE:FF", device) ∈ _discovered_devices sample_flow ∧
    dd_name device = "libatt-0001" ∧
    _discovered_device self2 = Some device ∧
    unique_id self2 = Some "AA:BB:CC:DD:EE:FF" ∧
    _discovered_devices self2 = _discovered_devices sample_flow.
Proof.
  apply (async_step_user_creates_offered string sample_types id
           sample_globals (λ _, true) "address" ∅ (λ _, Val tt)
           sample_classes_found sample_infos [] Flow_init sample_flow
           "user" [("AA:BB:CC:DD:EE:FF", "libatt-0001")]
           "AA:BB:CC:DD:EE:FF" "libatt-0001" sample_user_input).
  - apply NoDup_nil_2.
  - vm_compute. reflexivity.
  - left.
  - reflexivity.
  - reflexivity.
Defined.

Lemma async_step_bluetooth_confirms_first_match_witness :
  ((∀ u, u ∈ sample_types →
      claims string id sample_globals u sample_info = false) →
   ∃ self1,
     async_step_bluetooth string sample_types id sample_globals
       (λ _, Val tt) (λ _, Val tt) sample_info Flow_init
     = (self1, Val (AsyncAbort "not_supported")) ∧
     _discovered_device self1 = _discovered_device (Flow_init (BmsType := string)) ∧
     _discovered_devices self1 = _discovered_devices (Flow_init (BmsType := string))) ∧
  (∀ k t,
     sample_types !! k = Some t →
     claims string id sample_globals t sample_info = true →
     (∀ j u, j < k → sample_types !! j = Some u →
        claims string id sample_globals u sample_info = false) →
     ∃ self1,
       async_step_bluetooth string sample_types id sample_globals
         (λ _, Val tt) (λ _, Val tt) sample_info Flow_init =
       (self1, Val (AsyncShowForm "bluetooth_confirm" None
                      (Some (info_name sample_info)))) ∧
       unique_id self1 = Some (info_address sample_info) ∧
       _discovered_devices self1 = _discovered_devices (Flow_init (BmsType := string)) ∧
       ∀ user_input,
         async_step_bluetooth_confirm string id (Some user_input) self1 =
         (self1, Val (AsyncCreateEntry (info_name sample_info) (id t)))).
Proof.
  apply (async_step_bluetooth_confirms_first_match string sample_types id
           sample_globals (λ _, Val tt) sample_classes_found (λ _, Val tt)
           sample_info Flow_init).
  - reflexivity.
  - reflexivity.
Defined.
